(** * Palettenkonto: balance calculator, month closure and entry recorder

    A shallow embedding of [app.py]: the SQLAlchemy models become records,
    the database session becomes an explicit [DB] value threaded through the
    three write handlers, and each handler returns the response it renders
    together with the database it leaves behind.

    Modelling conventions.
    - [datetime] values are kept as Python keeps them, as calendar fields
      compared lexicographically; arithmetic with [timedelta] goes through
      proleptic Gregorian ordinals as in CPython's [datetime] module.
    - Quantities are integer columns that the calculator converts with
      [float(...)].  Every float it meets denotes an integer, so a float
      is carried as that integer and the rounding of binary64 is written
      out in [float]: conversions, sums and products are exact up to 2^53
      and round to 53 significant bits above.  What is proved about sums
      carries the bound under which they are exact.
    - Strings are byte strings, a Python [str] standing as its UTF-8
      bytes.  [upper] and the digit class of the reference-number search
      are embedded for ASCII text, where they are [str.upper] and [\d];
      what is proved about a rejected direction or comment is stated for
      ASCII text.  [NULL] in a text column behaves in every query
      modelled here like a string that matches nothing.
    - The wall clock is an input: one [now] per request. *)

From Stdlib Require Import ZArith List String Ascii Bool Lia Permutation Sorted.
From Stdlib Require Import DecimalString DecimalNat.
Import ListNotations.
Open Scope Z_scope.

(* ================================================================== *)
(** ** Calendar: [datetime.date], [datetime.time], [datetime.datetime] *)
(* ================================================================== *)

Record date := mkdate { dyear : Z; dmonth : Z; dday : Z }.
Record time := mktime { hour : Z; minute : Z; second : Z; microsecond : Z }.

(** [datetime.combine(d, t)] is the constructor; [.date()] and [.time()]
    are the projections. *)
Record datetime := combine { date_of : date; time_of : time }.

Definition year (dt : datetime) : Z := dyear (date_of dt).
Definition month (dt : datetime) : Z := dmonth (date_of dt).
Definition day (dt : datetime) : Z := dday (date_of dt).

Definition _is_leap (y : Z) : bool :=
  (y mod 4 =? 0) && (negb (y mod 100 =? 0) || (y mod 400 =? 0)).

Definition _DAYS_IN_MONTH (m : Z) : Z :=
  match m with
  | 1 => 31 | 2 => 28 | 3 => 31 | 4 => 30 | 5 => 31 | 6 => 30
  | 7 => 31 | 8 => 31 | 9 => 30 | 10 => 31 | 11 => 30 | 12 => 31
  | _ => -1
  end.

Definition _DAYS_BEFORE_MONTH (m : Z) : Z :=
  match m with
  | 1 => 0 | 2 => 31 | 3 => 59 | 4 => 90 | 5 => 120 | 6 => 151
  | 7 => 181 | 8 => 212 | 9 => 243 | 10 => 273 | 11 => 304 | 12 => 334
  | _ => -1
  end.

Definition _days_before_year (y : Z) : Z :=
  let y := y - 1 in y * 365 + y / 4 - y / 100 + y / 400.

Definition _days_in_month (y m : Z) : Z :=
  if (m =? 2) && _is_leap y then 29 else _DAYS_IN_MONTH m.

Definition _days_before_month (y m : Z) : Z :=
  _DAYS_BEFORE_MONTH m + (if (2 <? m) && _is_leap y then 1 else 0).

Definition _ymd2ord (y m d : Z) : Z :=
  _days_before_year y + _days_before_month y m + d.

Definition _DI400Y : Z := 146097.
Definition _DI100Y : Z := 36524.
Definition _DI4Y : Z := 1461.
Definition _MAXORDINAL : Z := 3652059.

Definition _ord2ymd (n : Z) : date :=
  let n := n - 1 in
  let n400 := n / _DI400Y in let n := n mod _DI400Y in
  let y := n400 * 400 + 1 in
  let n100 := n / _DI100Y in let n := n mod _DI100Y in
  let n4 := n / _DI4Y in let n := n mod _DI4Y in
  let n1 := n / 365 in let n := n mod 365 in
  let y := y + n100 * 100 + n4 * 4 + n1 in
  if (n1 =? 4) || (n100 =? 4) then mkdate (y - 1) 12 31
  else
    let leapyear := (n1 =? 3) && (negb (n4 =? 24) || (n100 =? 3)) in
    let m := Z.shiftr (n + 50) 5 in
    let preceding := _DAYS_BEFORE_MONTH m + (if (2 <? m) && leapyear then 1 else 0) in
    if n <? preceding then
      let m := m - 1 in
      let preceding :=
        preceding - (_DAYS_IN_MONTH m + (if (m =? 2) && leapyear then 1 else 0)) in
      mkdate y m (n - preceding + 1)
    else mkdate y m (n - preceding + 1).

(** Range checks of the [date] and [datetime] constructors; Python raises
    [ValueError] where these are [false]. *)
Definition check_date_fields (y m d : Z) : bool :=
  (1 <=? y) && (y <=? 9999) && (1 <=? m) && (m <=? 12)
  && (1 <=? d) && (d <=? _days_in_month y m).

Definition check_time_fields (h mi s us : Z) : bool :=
  (0 <=? h) && (h <=? 23) && (0 <=? mi) && (mi <=? 59)
  && (0 <=? s) && (s <=? 59) && (0 <=? us) && (us <=? 999999).

(** [date(y, m, d)]; [None] is the [ValueError]. *)
Definition new_date (y m d : Z) : option date :=
  if check_date_fields y m d then Some (mkdate y m d) else None.

(** [datetime(y, m, d)] with the time left at midnight. *)
Definition new_datetime (y m d : Z) : option datetime :=
  match new_date y m d with
  | Some dd => Some (combine dd (mktime 0 0 0 0))
  | None => None
  end.

Definition valid_date (d : date) : bool :=
  check_date_fields (dyear d) (dmonth d) (dday d).

Definition valid_time (t : time) : bool :=
  check_time_fields (hour t) (minute t) (second t) (microsecond t).

Definition valid_datetime (dt : datetime) : bool :=
  valid_date (date_of dt) && valid_time (time_of dt).

Definition datetime_min : datetime := combine (mkdate 1 1 1) (mktime 0 0 0 0).

(** Comparison of naive datetimes: the field tuples, lexicographically. *)
Fixpoint lex_compare (a b : list Z) : comparison :=
  match a, b with
  | [], [] => Eq
  | [], _ :: _ => Lt
  | _ :: _, [] => Gt
  | x :: a', y :: b' =>
      match x ?= y with
      | Eq => lex_compare a' b'
      | c => c
      end
  end.

Definition dt_fields (dt : datetime) : list Z :=
  [year dt; month dt; day dt;
   hour (time_of dt); minute (time_of dt); second (time_of dt);
   microsecond (time_of dt)].

Definition dt_compare (a b : datetime) : comparison :=
  lex_compare (dt_fields a) (dt_fields b).

Definition dt_ltb (a b : datetime) : bool :=
  match dt_compare a b with Lt => true | _ => false end.

Definition dt_leb (a b : datetime) : bool :=
  match dt_compare a b with Gt => false | _ => true end.

Infix "<?t" := dt_ltb (at level 70, no associativity).
Infix "<=?t" := dt_leb (at level 70, no associativity).

(** [dt - timedelta(seconds=s)]: through the ordinal of the date and the
    seconds of the day; [None] is the [OverflowError]. *)
Definition sub_seconds (dt : datetime) (s : Z) : option datetime :=
  let t := time_of dt in
  let ord := _ymd2ord (year dt) (month dt) (day dt) in
  let total := ord * 86400 + hour t * 3600 + minute t * 60 + second t - s in
  let days := total / 86400 in
  let secs := total mod 86400 in
  let h := secs / 3600 in
  let rem := secs mod 3600 in
  if (0 <? days) && (days <=? _MAXORDINAL)
  then Some (combine (_ord2ymd days)
                     (mktime h (rem / 60) (rem mod 60) (microsecond t)))
  else None.

(** [month_range(dt_date)]: first instant and last second of the month of
    [dt_date].  [None] is the [ValueError] raised when the following month
    lies beyond year 9999. *)
Definition month_range (dt_date : date) : option (datetime * datetime) :=
  match new_datetime (dyear dt_date) (dmonth dt_date) 1 with
  | None => None
  | Some start =>
      let next_m :=
        if dmonth dt_date =? 12
        then new_datetime (dyear dt_date + 1) 1 1
        else new_datetime (dyear dt_date) (dmonth dt_date + 1) 1 in
      match next_m with
      | None => None
      | Some next_m =>
          match sub_seconds next_m 1 with
          | None => None
          | Some end_ => Some (start, end_)
          end
      end
  end.

(* ================================================================== *)
(** ** Strings: the library calls the handlers make *)
(* ================================================================== *)

Open Scope string_scope.

(** The class [\d] on ASCII text: the digits 0 to 9.  (On other text the
    class has every Unicode decimal digit; see [is_ascii].) *)
Definition isdigit (c : ascii) : bool :=
  let n := nat_of_ascii c in (48 <=? n)%nat && (n <=? 57)%nat.

(** [c.upper()] on ASCII text: a to z go to A to Z.  (On other text
    [str.upper] maps further letters; see [is_ascii].) *)
Definition upper_ascii (c : ascii) : ascii :=
  let n := nat_of_ascii c in
  if (97 <=? n)%nat && (n <=? 122)%nat then ascii_of_nat (n - 32) else c.

(** [s.upper()] *)
Fixpoint upper (s : string) : string :=
  match s with
  | EmptyString => EmptyString
  | String c s' => String (upper_ascii c) (upper s')
  end.

(** [re.search(r"\d{k,}", s)] as a left-to-right scan; [run] counts the
    digits that immediately precede the current position. *)
Fixpoint search_digit_run (k run : nat) (s : string) : bool :=
  match s with
  | EmptyString => false
  | String c s' =>
      if isdigit c
      then if (k <=? S run)%nat then true else search_digit_run k (S run) s'
      else search_digit_run k 0 s'
  end.

Definition has_reference_number (kommentar : string) : bool :=
  search_digit_run 4 0 kommentar.

(** [str(n)] for a natural number. *)
Definition decimal (n : nat) : string :=
  NilEmpty.string_of_uint (Nat.to_uint n).

(** [s.zfill(w)] for a string of digits. *)
Fixpoint zeros (n : nat) : string :=
  match n with O => "" | S n' => String "0" (zeros n') end.

Definition zfill (w : nat) (s : string) : string :=
  zeros (w - String.length s) ++ s.

(** [f"{n:02d}"] *)
Definition format_02d (n : Z) : string :=
  if (n <? 0)%Z then String "-" (decimal (Z.to_nat (- n)))
  else zfill 2 (decimal (Z.to_nat n)).

(** The fixed-width fields of [strftime]: [%Y] is the year on four digits,
    [%m] and [%d] are on two. *)
Definition digit_char (n : Z) : ascii :=
  ascii_of_nat (48 + Z.to_nat (n mod 10)).

Definition field2 (n : Z) : string :=
  String (digit_char (n / 10)) (String (digit_char n) "").

Definition field4 (n : Z) : string :=
  String (digit_char (n / 1000)) (String (digit_char (n / 100))
    (String (digit_char (n / 10)) (String (digit_char n) ""))).

(** [dt.strftime("%Y%m%d")] and [dt.strftime("%Y-%m-%d")]. *)
Definition strftime_Ymd (dt : datetime) : string :=
  field4 (year dt) ++ field2 (month dt) ++ field2 (day dt).

Definition strftime_iso (dt : datetime) : string :=
  field4 (year dt) ++ "-" ++ field2 (month dt) ++ "-" ++ field2 (day dt).

(** [column.like(p + "%")] for a pattern [p] without wildcards. *)
Definition like_prefix (p s : string) : bool := String.prefix p s.

Close Scope string_scope.

(* ================================================================== *)
(** ** Models *)
(* ================================================================== *)

Module Partner.
Record t := mk { id : Z; name : string }.
End Partner.

Module Account.
Record t := mk { id : Z; partner_id : Z }.
End Account.

Module Entry.
Record t := mk {
  id : Z;
  belegnummer : string;
  datum : option datetime;
  richtung : string;
  menge_eup : option Z;
  menge_gb : option Z;
  menge_tmb1 : option Z;
  menge_tmb2 : option Z;
  kommentar : string;
  konto_seq : Z;
  erfasst_von : string;
  account_id : Z
}.
End Entry.

Module MonthClosure.
Record t := mk {
  id : Z;
  partner_id : Z;
  year : Z;
  month : Z;
  saldo_eup : option Z;
  saldo_gb : option Z;
  saldo_tmb1 : option Z;
  saldo_tmb2 : option Z;
  period_end : datetime;
  created_at : datetime
}.
End MonthClosure.

(** The four tables; rows are kept in insertion order. *)
Record DB := mkDB {
  partners : list Partner.t;
  accounts : list Account.t;
  entries : list Entry.t;
  month_closures : list MonthClosure.t
}.

(** Primary keys are handed out above every key in the table. *)
Definition next_id (ids : list Z) : Z := 1 + fold_right Z.max 0 ids.

Definition add_entry (db : DB) (e : Entry.t) : DB :=
  mkDB (partners db) (accounts db) (entries db ++ [e]) (month_closures db).

Definition add_closure (db : DB) (c : MonthClosure.t) : DB :=
  mkDB (partners db) (accounts db) (entries db) (month_closures db ++ [c]).

(* ================================================================== *)
(** ** Queries *)
(* ================================================================== *)

(** [.order_by(key.desc()).first()]: the first row, in table order, that no
    other row beats; [gtb x y] says that [x] sorts strictly before [y]. *)
Definition first_desc {A} (gtb : A -> A -> bool) (rows : list A) : option A :=
  fold_left (fun best x =>
               match best with
               | None => Some x
               | Some b => if gtb x b then Some x else Some b
               end) rows None.

(** [Partner.query.get(partner_id)] *)
Definition Partner_get (db : DB) (partner_id : Z) : option Partner.t :=
  find (fun p => Partner.id p =? partner_id) (partners db).

(** [partner.accounts] *)
Definition partner_accounts (db : DB) (partner : Partner.t) : list Account.t :=
  filter (fun a => Account.partner_id a =? Partner.id partner) (accounts db).

(** [acc.entries] *)
Definition account_entries (db : DB) (acc : Account.t) : list Entry.t :=
  filter (fun e => Entry.account_id e =? Account.id acc) (entries db).

Definition collect_partner_entries (db : DB) (partner : Partner.t)
  : list Entry.t :=
  flat_map (account_entries db) (partner_accounts db partner).

Definition closure_later (c1 c2 : MonthClosure.t) : bool :=
  MonthClosure.period_end c2 <?t MonthClosure.period_end c1.

Definition get_last_closure_before (db : DB) (partner_id : Z) (dt : datetime)
  : option MonthClosure.t :=
  first_desc closure_later
    (filter (fun c => MonthClosure.period_end c <?t dt)
       (filter (fun c => MonthClosure.partner_id c =? partner_id)
          (month_closures db))).

(** [MonthClosure.query.filter_by(partner_id=...)
       .order_by(MonthClosure.period_end.desc()).first()] *)
Definition last_closure (db : DB) (partner_id : Z) : option MonthClosure.t :=
  first_desc closure_later
    (filter (fun c => MonthClosure.partner_id c =? partner_id)
       (month_closures db)).

(** [Entry.query.join(Account, Entry.account_id == Account.id)
       .filter(Account.partner_id == partner_id)] *)
Definition entry_of_partner (db : DB) (partner_id : Z) (e : Entry.t) : bool :=
  existsb (fun a => (Entry.account_id e =? Account.id a)
                    && (Account.partner_id a =? partner_id)) (accounts db).

(* ================================================================== *)
(** ** Balance calculator *)
(* ================================================================== *)

(** The dictionaries keyed by ["eup"], ["gb"], ["tmb1"], ["tmb2"]. *)
Record saldo := mksaldo { eup : Z; gb : Z; tmb1 : Z; tmb2 : Z }.

Definition saldo_zero : saldo := mksaldo 0 0 0 0.

(** Up to this magnitude every integer is a binary64 value: 2^53. *)
Definition float_exact_max : Z := 9007199254740992.

(** The binary64 value nearest to the integer [n], ties going to the even
    significand: [float(n)], and the result of a float addition or
    multiplication whose exact result is [n].  Up to 2^53 that is [n]
    itself; above, [n] is cut to its 53 leading bits and rounded.
    (Magnitudes that have no finite binary64 value, from 2^1024 on, are
    outside this embedding; a 64-bit integer column stays far below.) *)
Definition float (n : Z) : Z :=
  let a := Z.abs n in
  if a <=? float_exact_max then n
  else
    let shift := Z.log2 a - 52 in
    let q := Z.shiftr a shift in
    let rest := a - Z.shiftl q shift in
    let half := Z.shiftl 1 (shift - 1) in
    let q' :=
      if (half <? rest) || ((rest =? half) && Z.odd q) then q + 1 else q in
    Z.sgn n * Z.shiftl q' shift.

(** [x + y] and [x * m] on floats. *)
Definition fadd (x y : Z) : Z := float (x + y).

Definition fmul (x m : Z) : Z := float (x * m).

(** [x or 0] *)
Definition int_or0 (x : option Z) : Z :=
  match x with Some z => z | None => 0 end.

(** [float(x or 0)] *)
Definition float_or0 (x : option Z) : Z := float (int_or0 x).

(** [d[key] += q] in all four keys. *)
Definition saldo_fadd (a b : saldo) : saldo :=
  mksaldo (fadd (eup a) (eup b)) (fadd (gb a) (gb b))
          (fadd (tmb1 a) (tmb1 b)) (fadd (tmb2 a) (tmb2 b)).

Definition mult_of (richtung : string) : Z :=
  if String.eqb richtung "Eingang" then 1
  else if String.eqb richtung "Ausgang" then -1
  else if String.eqb richtung "Korrektur" then 1
  else 1.

(** [(me_eup, me_gb, me_tmb1, me_tmb2)] of an entry. *)
Definition mengen (e : Entry.t) : saldo :=
  mksaldo (float_or0 (Entry.menge_eup e)) (float_or0 (Entry.menge_gb e))
          (float_or0 (Entry.menge_tmb1 e)) (float_or0 (Entry.menge_tmb2 e)).

(** [me_* * mult] *)
Definition saldo_fmul (a : saldo) (m : Z) : saldo :=
  mksaldo (fmul (eup a) m) (fmul (gb a) m) (fmul (tmb1 a) m) (fmul (tmb2 a) m).

Record loop_state := mkloop {
  l_saldo_start : saldo;
  l_movement : saldo;
  l_sums_eingang : saldo;
  l_sums_ausgang : saldo;
  l_entries_in_period : list Entry.t
}.

(** One iteration of [for e in all_entries]. *)
Definition loop_body (base_date start_date end_date : datetime)
  (st : loop_state) (e : Entry.t) : loop_state :=
  match Entry.datum e with
  | None => st
  | Some d =>
      if d <=?t base_date then st
      else
        let mult := mult_of (Entry.richtung e) in
        let me := mengen e in
        if (base_date <?t d) && (d <?t start_date) then
          mkloop (saldo_fadd (l_saldo_start st) (saldo_fmul me mult))
                 (l_movement st) (l_sums_eingang st) (l_sums_ausgang st)
                 (l_entries_in_period st)
        else if (start_date <=?t d) && (d <=?t end_date) then
          mkloop (l_saldo_start st)
                 (saldo_fadd (l_movement st) (saldo_fmul me mult))
                 (if String.eqb (Entry.richtung e) "Eingang"
                  then saldo_fadd (l_sums_eingang st) me
                  else l_sums_eingang st)
                 (if String.eqb (Entry.richtung e) "Eingang"
                  then l_sums_ausgang st
                  else if String.eqb (Entry.richtung e) "Ausgang"
                       then saldo_fadd (l_sums_ausgang st) me
                       else l_sums_ausgang st)
                 (l_entries_in_period st ++ [e])
        else st
  end.

(** [x.datum or datetime.min] *)
Definition sort_key (e : Entry.t) : datetime :=
  match Entry.datum e with Some d => d | None => datetime_min end.

(** [list.sort(key=..., reverse=True)]: stable, largest key first. *)
Fixpoint insert_desc (x : Entry.t) (l : list Entry.t) : list Entry.t :=
  match l with
  | [] => [x]
  | y :: l' =>
      if sort_key x <?t sort_key y then y :: insert_desc x l' else x :: l
  end.

Definition sort_desc (l : list Entry.t) : list Entry.t :=
  fold_right insert_desc [] l.

Record result := mkresult {
  r_entries : list Entry.t;
  r_saldo_start : saldo;
  r_movement : saldo;
  r_saldo_end : saldo;
  r_sums_eingang : saldo;
  r_sums_ausgang : saldo
}.

(** Seed of the starting balance and the base date. *)
Definition closure_saldo (c : MonthClosure.t) : saldo :=
  mksaldo (float_or0 (MonthClosure.saldo_eup c))
          (float_or0 (MonthClosure.saldo_gb c))
          (float_or0 (MonthClosure.saldo_tmb1 c))
          (float_or0 (MonthClosure.saldo_tmb2 c)).

Definition base_of (last_closure : option MonthClosure.t) : saldo * datetime :=
  match last_closure with
  | Some c => (closure_saldo c, MonthClosure.period_end c)
  | None => (saldo_zero, datetime_min)
  end.

Definition calculate_saldo_and_sums (db : DB) (partner_id : Z)
  (start_date end_date : datetime) : option result :=
  match Partner_get db partner_id with
  | None => None
  | Some partner =>
      let all_entries := collect_partner_entries db partner in
      let '(saldo_start, base_date) :=
        base_of (get_last_closure_before db partner_id start_date) in
      let st :=
        fold_left (loop_body base_date start_date end_date) all_entries
          (mkloop saldo_start saldo_zero saldo_zero saldo_zero []) in
      Some (mkresult (sort_desc (l_entries_in_period st))
                     (l_saldo_start st)
                     (l_movement st)
                     (saldo_fadd (l_saldo_start st) (l_movement st))
                     (l_sums_eingang st)
                     (l_sums_ausgang st))
  end.

(* ================================================================== *)
(** ** Responses *)
(* ================================================================== *)

(** The error messages the handlers flash, under the names of the error
    kinds they stand for. *)
Inductive failure :=
| NoAccount               (* "Kein Konto für diesen Partner vorhanden." *)
| InvalidDate             (* "Fehler! Datum ist ungültig." *)
| ClosureLocked           (* "Fehler! Monat ... ist abgeschlossen. ..." *)
| InvalidQuantity         (* "Fehler! Menge ist ungültig." *)
| InvalidDirection        (* "Fehler! Ungültige Richtung." *)
| MissingReferenceNumber  (* "Fehler! Bei Ausgang muss im Kommentar ..." *)
| MissingBelegnummer      (* "Fehler! Belegnummer fehlt." *)
| MissingComment          (* "Fehler! Kommentar fehlt." *)
| OriginalEntryNotFound   (* "Fehler! Belegnummer ... nicht gefunden." *)
| DuplicateClosure.       (* "Monat ist bereits abgeschlossen." *)

Inductive response :=
| NotFound                (* [get_or_404] aborted the request *)
| Raised                  (* an exception left the handler *)
| Flashed (f : failure)   (* the message was flashed, nothing was written *)
| Redirected.             (* the write was committed *)

(* ================================================================== *)
(** ** Closure manager *)
(* ================================================================== *)

Definition existing_closure (db : DB) (partner_id year month : Z)
  : option MonthClosure.t :=
  find (fun c => (MonthClosure.partner_id c =? partner_id)
                 && (MonthClosure.year c =? year)
                 && (MonthClosure.month c =? month))
       (month_closures db).

(** [close_month], POST with the form fields [year] and [month] already
    converted by [int]. *)
Definition close_month (utcnow : datetime) (db : DB)
  (partner_id year month : Z) : response * DB :=
  match Partner_get db partner_id with
  | None => (NotFound, db)
  | Some partner =>
      match existing_closure db partner_id year month with
      | Some _ => (Flashed DuplicateClosure, db)
      | None =>
          match new_date year month 1 with
          | None => (Raised, db)
          | Some period_ref =>
              match month_range period_ref with
              | None => (Raised, db)
              | Some (period_start, period_end) =>
                  match calculate_saldo_and_sums db partner_id
                          datetime_min period_end with
                  | None => (Raised, db)
                  | Some result =>
                      let saldo := r_saldo_end result in
                      let closure :=
                        MonthClosure.mk
                          (next_id (map MonthClosure.id (month_closures db)))
                          partner_id year month
                          (Some (eup saldo)) (Some (gb saldo))
                          (Some (tmb1 saldo)) (Some (tmb2 saldo))
                          period_end utcnow in
                      (Redirected, add_closure db closure)
                  end
              end
          end
      end
  end.

(* ================================================================== *)
(** ** Entry recorder *)
(* ================================================================== *)

(** The fields of the posted form as the handlers hold them in their local
    variables, that is after [(... or "").strip()]. *)
Record entry_form := mkentry_form {
  richtung_raw : option string;
  typ : option string;
  menge_str : string;
  kommentar : string;
  datum_str : string
}.

Record correction_form := mkcorrection_form {
  c_belegnummer : string;
  c_datum_str : string;
  c_typ : option string;
  c_menge_str : string;
  c_kommentar : string
}.

(** [mapping.get((richtung_raw or "").upper())] *)
Definition richtung_db_of (richtung_raw : option string) : option string :=
  let key := upper (match richtung_raw with Some s => s | None => ""%string end) in
  if String.eqb key "EIN" then Some "Eingang"%string
  else if String.eqb key "AUS" then Some "Ausgang"%string
  else None.

Definition typ_is (typ : option string) (name : string) : bool :=
  match typ with Some s => String.eqb s name | None => false end.

(** Distribution of the quantity over the four columns. *)
Definition verteilung (typ : option string) (menge : Z) : saldo :=
  if typ_is typ "EUP" then mksaldo menge 0 0 0
  else if typ_is typ "GB" then mksaldo 0 menge 0 0
  else if typ_is typ "TMB1" then mksaldo 0 0 menge 0
  else if typ_is typ "TMB2" then mksaldo 0 0 0 menge
  else mksaldo 0 0 0 0.

Definition count_like (today_str : string) (rows : list Entry.t) : Z :=
  Z.of_nat (List.length
              (filter (fun e => like_prefix today_str (Entry.belegnummer e))
                      rows)).

Definition entry_later (e1 e2 : Entry.t) : bool :=
  (Entry.konto_seq e2 <? Entry.konto_seq e1)
  || ((Entry.konto_seq e2 =? Entry.konto_seq e1)
      && (Entry.id e2 <? Entry.id e1)).

Definition seq_later (e1 e2 : Entry.t) : bool :=
  Entry.konto_seq e2 <? Entry.konto_seq e1.

(** The original booking: the last [Eingang]/[Ausgang] row of the partner
    under this [belegnummer]. *)
Definition find_original (db : DB) (partner_id : Z) (belegnummer : string)
  : option Entry.t :=
  first_desc entry_later
    (filter (fun e => String.eqb (Entry.richtung e) "Eingang"
                      || String.eqb (Entry.richtung e) "Ausgang")
       (filter (fun e => String.eqb (Entry.belegnummer e) belegnummer)
          (filter (entry_of_partner db partner_id) (entries db)))).

Definition find_last_for_beleg (db : DB) (partner_id : Z)
  (belegnummer : string) : option Entry.t :=
  first_desc seq_later
    (filter (fun e => String.eqb (Entry.belegnummer e) belegnummer)
       (filter (entry_of_partner db partner_id) (entries db))).

Section Handlers.

(** [int(s)]; [None] is the [ValueError]. *)
Variable py_int : string -> option Z.

(** [datetime.strptime(s, "%Y-%m-%d").date()]; [None] is the [ValueError]. *)
Variable strptime_date : string -> option date.

(** [state["datum"]] parsed and combined with the current time of day. *)
Definition entry_date_of (now : datetime) (datum_str : string)
  : option datetime :=
  let state_datum :=
    if String.eqb datum_str "" then strftime_iso now else datum_str in
  match strptime_date state_datum with
  | Some user_date => Some (combine user_date (time_of now))
  | None => None
  end.

(** [new_entry], POST. *)
Definition new_entry (now : datetime) (db : DB) (partner_id : Z)
  (form : entry_form) : response * DB :=
  match Partner_get db partner_id with
  | None => (NotFound, db)
  | Some partner =>
  match partner_accounts db partner with
  | [] => (Flashed NoAccount, db)
  | account :: _ =>
  match entry_date_of now (datum_str form) with
  | None => (Flashed InvalidDate, db)
  | Some entry_date =>
  if match last_closure db (Partner.id partner) with
     | Some last_close => entry_date <=?t MonthClosure.period_end last_close
     | None => false
     end
  then (Flashed ClosureLocked, db)
  else
  match py_int (menge_str form) with
  | None => (Flashed InvalidQuantity, db)
  | Some menge =>
  match richtung_db_of (richtung_raw form) with
  | None => (Flashed InvalidDirection, db)
  | Some richtung_db =>
  if String.eqb richtung_db "Ausgang"
     && negb (has_reference_number (kommentar form))
  then (Flashed MissingReferenceNumber, db)
  else
    let m := verteilung (typ form) menge in
    let today_str := strftime_Ymd now in
    let count_today := count_like today_str (entries db) + 1 in
    let belegnummer := (today_str ++ format_02d count_today)%string in
    let konto_seq := 0 in
    let new_e :=
      Entry.mk (next_id (map Entry.id (entries db)))
               belegnummer (Some entry_date) richtung_db
               (Some (eup m)) (Some (gb m)) (Some (tmb1 m)) (Some (tmb2 m))
               (kommentar form) konto_seq "Taach" (Account.id account) in
    (Redirected, add_entry db new_e)
  end end end end end.

(** [correction_entry], POST. *)
Definition correction_entry (now : datetime) (db : DB) (partner_id : Z)
  (form : correction_form) : response * DB :=
  match Partner_get db partner_id with
  | None => (NotFound, db)
  | Some partner =>
  match partner_accounts db partner with
  | [] => (Flashed NoAccount, db)
  | account :: _ =>
  let belegnummer := c_belegnummer form in
  if String.eqb belegnummer "" then (Flashed MissingBelegnummer, db)
  else if String.eqb (c_kommentar form) "" then (Flashed MissingComment, db)
  else
  match entry_date_of now (c_datum_str form) with
  | None => (Flashed InvalidDate, db)
  | Some entry_date =>
  match find_original db (Partner.id partner) belegnummer with
  | None => (Flashed OriginalEntryNotFound, db)
  | Some original =>
  match
    match last_closure db (Partner.id partner) with
    | Some last_close =>
        match Entry.datum original with
        | Some d => Some (d <=?t MonthClosure.period_end last_close)
        | None => None    (* [None <= datetime]: TypeError *)
        end
    | None => Some false
    end
  with
  | None => (Raised, db)
  | Some true => (Flashed ClosureLocked, db)
  | Some false =>
  match py_int (c_menge_str form) with
  | None => (Flashed InvalidQuantity, db)
  | Some menge =>
    let korr_menge :=
      if String.eqb (Entry.richtung original) "Ausgang"
      then menge else - menge in
    let m := verteilung (c_typ form) korr_menge in
    let next_seq :=
      match find_last_for_beleg db (Partner.id partner) belegnummer with
      | Some last_for_beleg => Entry.konto_seq last_for_beleg + 1
      | None => 1
      end in
    let new_e :=
      Entry.mk (next_id (map Entry.id (entries db)))
               belegnummer (Some entry_date) "Korrektur"
               (Some (eup m)) (Some (gb m)) (Some (tmb1 m)) (Some (tmb2 m))
               (c_kommentar form) next_seq "Taach" (Account.id account) in
    (Redirected, add_entry db new_e)
  end end end end end end.

End Handlers.

(* ================================================================== *)
(** ** Reference instances of the two library parsers *)
(* ================================================================== *)

(** Decimal literals [[+-]?[0-9]+], the ASCII core of what [int] accepts. *)
Definition digits_value (s : string) : option Z :=
  match s with
  | EmptyString => None
  | _ => option_map Z.of_uint (NilEmpty.uint_of_string s)
  end.

Definition parse_int (s : string) : option Z :=
  match s with
  | String "-" r => option_map Z.opp (digits_value r)
  | String "+" r => digits_value r
  | _ => digits_value s
  end.

(** Dates written [YYYY-MM-DD] with every field zero-filled, the form an
    HTML date input posts. *)
Definition parse_iso_date (s : string) : option date :=
  if (String.length s =? 10)%nat
     && String.eqb (substring 4 1 s) "-" && String.eqb (substring 7 1 s) "-"
  then
    match digits_value (substring 0 4 s), digits_value (substring 5 2 s),
          digits_value (substring 8 2 s) with
    | Some y, Some m, Some d => new_date y m d
    | _, _, _ => None
    end
  else None.

(* ================================================================== *)
(** ** Vocabulary of the statements *)
(* ================================================================== *)

Inductive lademittel := EUP | GB | TMB1 | TMB2.

Definition typ_name (k : lademittel) : string :=
  match k with
  | EUP => "EUP" | GB => "GB" | TMB1 => "TMB1" | TMB2 => "TMB2"
  end.

Definition saldo_get (k : lademittel) (s : saldo) : Z :=
  match k with
  | EUP => eup s | GB => gb s | TMB1 => tmb1 s | TMB2 => tmb2 s
  end.

(** Sums and multiples of balances as numbers, without rounding. *)
Definition saldo_add (a b : saldo) : saldo :=
  mksaldo (eup a + eup b) (gb a + gb b) (tmb1 a + tmb1 b) (tmb2 a + tmb2 b).

Definition saldo_scale (a : saldo) (m : Z) : saldo :=
  mksaldo (eup a * m) (gb a * m) (tmb1 a * m) (tmb2 a * m).

(** What one entry adds to a running balance: [me_* * mult]. *)
Definition contribution (e : Entry.t) : saldo :=
  saldo_scale (mengen e) (mult_of (Entry.richtung e)).

Fixpoint saldo_sum (l : list saldo) : saldo :=
  match l with
  | [] => saldo_zero
  | s :: l' => saldo_add s (saldo_sum l')
  end.

(** The size of a balance and of the stored quantities of an entry, and
    the volume of a list of entries: the sums of absolute values.  While
    the seed and the volume together stay within 2^53, no sum the
    calculator forms is rounded. *)
Definition saldo_weight (a : saldo) : Z :=
  Z.abs (eup a) + Z.abs (gb a) + Z.abs (tmb1 a) + Z.abs (tmb2 a).

Definition quantities (e : Entry.t) : saldo :=
  mksaldo (int_or0 (Entry.menge_eup e)) (int_or0 (Entry.menge_gb e))
          (int_or0 (Entry.menge_tmb1 e)) (int_or0 (Entry.menge_tmb2 e)).

Definition weight (e : Entry.t) : Z := saldo_weight (quantities e).

Fixpoint volume (l : list Entry.t) : Z :=
  match l with
  | [] => 0
  | e :: l' => weight e + volume l'
  end.

Definition books_exact (seed : saldo) (l : list Entry.t) : Prop :=
  saldo_weight seed + volume l <= float_exact_max.

(** The size of the accumulators of the loop: the running balance and the
    two directional sums. *)
Definition state_weight (st : loop_state) : Z :=
  Z.max (saldo_weight (l_saldo_start st) + saldo_weight (l_movement st))
        (Z.max (saldo_weight (l_sums_eingang st))
               (saldo_weight (l_sums_ausgang st))).

(** The two zones of the calculator, as predicates on an entry. *)
Definition in_catch_up (base_date start_date : datetime) (e : Entry.t) : bool :=
  match Entry.datum e with
  | Some d => (base_date <?t d) && (d <?t start_date)
  | None => false
  end.

Definition in_period (base_date start_date end_date : datetime) (e : Entry.t)
  : bool :=
  match Entry.datum e with
  | Some d => (base_date <?t d) && (start_date <=?t d) && (d <=?t end_date)
  | None => false
  end.

(** ASCII text: every byte below 128. *)
Definition is_ascii_char (c : ascii) : bool := (nat_of_ascii c <? 128)%nat.

Fixpoint is_ascii (s : string) : bool :=
  match s with
  | EmptyString => true
  | String c s' => is_ascii_char c && is_ascii s'
  end.

(** A run of at least [k] consecutive digits somewhere in [s]. *)
Fixpoint all_digits (s : string) : bool :=
  match s with
  | EmptyString => true
  | String c s' => isdigit c && all_digits s'
  end.

Definition contains_digit_run (k : nat) (s : string) : Prop :=
  exists pre run post,
    s = (pre ++ run ++ post)%string
    /\ (k <= String.length run)%nat /\ all_digits run = true.

(** The rows stored under one [belegnummer], oldest first. *)
Definition beleg_group (belegnummer : string) (rows : list Entry.t)
  : list Entry.t :=
  filter (fun e => String.eqb (Entry.belegnummer e) belegnummer) rows.

(** One request to the entry recorder. *)
Inductive recorder_step (py_int : string -> option Z)
  (strptime_date : string -> option date) : DB -> DB -> Prop :=
| step_new_entry now db partner_id form r db' :
    new_entry py_int strptime_date now db partner_id form = (r, db') ->
    recorder_step py_int strptime_date db db'
| step_correction_entry now db partner_id form r db' :
    correction_entry py_int strptime_date now db partner_id form = (r, db') ->
    recorder_step py_int strptime_date db db'.

(** Any number of requests, one after the other. *)
Inductive recorder_run (py_int : string -> option Z)
  (strptime_date : string -> option date) : DB -> DB -> Prop :=
| run_refl db : recorder_run py_int strptime_date db db
| run_step db db' db'' :
    recorder_run py_int strptime_date db db' ->
    recorder_step py_int strptime_date db' db'' ->
    recorder_run py_int strptime_date db db''.

(* ================================================================== *)
(** ** Calendar vocabulary *)
(* ================================================================== *)

(** The last second of month [m] of year [y]. *)
Definition last_second (y m : Z) : datetime :=
  combine (mkdate y m (_days_in_month y m)) (mktime 23 59 59 0).

(** [(year, month)] of the month that follows. *)
Definition next_month (y m : Z) : Z * Z :=
  if m =? 12 then (y + 1, 1) else (y, m + 1).

Definition date_eqb (a b : date) : bool :=
  (dyear a =? dyear b) && (dmonth a =? dmonth b) && (dday a =? dday b).

(** [f] holds on [lo, lo + n). *)
Fixpoint forall_from (f : Z -> bool) (lo : Z) (n : nat) : bool :=
  match n with
  | O => true
  | S n' => f lo && forall_from f (lo + 1) n'
  end.

(** Everything after [base_date] up to and including [end_date]. *)
Definition in_range (base_date end_date : datetime) (e : Entry.t) : bool :=
  match Entry.datum e with
  | Some d => (base_date <?t d) && (d <=?t end_date)
  | None => false
  end.

(* ================================================================== *)
(** ** Sample data *)
(* ================================================================== *)

Definition at_time (y m d h mi : Z) : datetime :=
  combine (mkdate y m d) (mktime h mi 0 0).

Definition sample_entry (id : Z) (belegnummer : string) (datum : datetime)
  (richtung : string) (m : saldo) (kommentar : string) (konto_seq : Z)
  : Entry.t :=
  Entry.mk id belegnummer (Some datum) richtung
           (Some (eup m)) (Some (gb m)) (Some (tmb1 m)) (Some (tmb2 m))
           kommentar konto_seq "Taach" 1.

(** One partner with one account and no bookings. *)
Definition db_empty : DB :=
  mkDB [Partner.mk 1 "Spedition Nord"] [Account.mk 1 1] [] [].

(** 10 EUP in on 1 January 2024, 4 EUP out on 5 January 2024. *)
Definition db_january : DB :=
  mkDB [Partner.mk 1 "Spedition Nord"] [Account.mk 1 1]
       [sample_entry 1 "2024010101" (at_time 2024 1 1 9 0) "Eingang"
                     (mksaldo 10 0 0 0) "" 0;
        sample_entry 2 "2024010501" (at_time 2024 1 5 9 0) "Ausgang"
                     (mksaldo 4 0 0 0) "doc-10023" 0]
       [].

(** January 2024 closed at 6 EUP, then 5 GB out on 5 February 2024. *)
Definition db_february : DB :=
  mkDB [Partner.mk 1 "Spedition Nord"] [Account.mk 1 1]
       [sample_entry 1 "2024010101" (at_time 2024 1 1 9 0) "Eingang"
                     (mksaldo 10 0 0 0) "" 0;
        sample_entry 2 "2024010501" (at_time 2024 1 5 9 0) "Ausgang"
                     (mksaldo 4 0 0 0) "doc-10023" 0;
        sample_entry 3 "2024020501" (at_time 2024 2 5 9 0) "Ausgang"
                     (mksaldo 0 5 0 0) "inv-4471" 0]
       [MonthClosure.mk 1 1 2024 1 (Some 6) (Some 0) (Some 0) (Some 0)
                        (last_second 2024 1) (at_time 2024 2 1 8 0)].

(** The requests of the scenarios. *)
Definition noon_10_feb : datetime := at_time 2024 2 10 12 0.



(* ================================================================== *)
(** ** The validations of the entry recorder, as propositions *)
(* ================================================================== *)

(** No closure of the partner ends at or after [dt]. *)
Definition unlocked (db : DB) (partner_id : Z) (dt : datetime) : Prop :=
  forall c, last_closure db partner_id = Some c ->
            (dt <=?t MonthClosure.period_end c) = false.

(** The checks [new_entry] makes before it looks at the direction. *)
Definition new_entry_admitted (py_int : string -> option Z)
  (strptime_date : string -> option date) (now : datetime) (db : DB)
  (partner_id : Z) (form : entry_form)
  (account : Account.t) (entry_date : datetime) (menge : Z) : Prop :=
  exists partner,
    Partner_get db partner_id = Some partner
    /\ hd_error (partner_accounts db partner) = Some account
    /\ entry_date_of strptime_date now (datum_str form) = Some entry_date
    /\ unlocked db partner_id entry_date
    /\ py_int (menge_str form) = Some menge.

(** The row [new_entry] writes. *)
Definition new_entry_row (now : datetime) (db : DB) (form : entry_form)
  (account : Account.t) (entry_date : datetime) (menge : Z)
  (richtung_db : string) : Entry.t :=
  let m := verteilung (typ form) menge in
  Entry.mk (next_id (map Entry.id (entries db)))
           (strftime_Ymd now
            ++ format_02d (count_like (strftime_Ymd now) (entries db) + 1))
           (Some entry_date) richtung_db
           (Some (eup m)) (Some (gb m)) (Some (tmb1 m)) (Some (tmb2 m))
           (kommentar form) 0 "Taach" (Account.id account).

(** All the checks [correction_entry] makes. *)
Definition correction_admitted (py_int : string -> option Z)
  (strptime_date : string -> option date) (now : datetime) (db : DB)
  (partner_id : Z) (form : correction_form)
  (account : Account.t) (entry_date : datetime) (original : Entry.t)
  (menge : Z) : Prop :=
  exists partner,
    Partner_get db partner_id = Some partner
    /\ hd_error (partner_accounts db partner) = Some account
    /\ c_belegnummer form <> ""%string
    /\ c_kommentar form <> ""%string
    /\ entry_date_of strptime_date now (c_datum_str form) = Some entry_date
    /\ find_original db partner_id (c_belegnummer form) = Some original
    /\ (forall c, last_closure db partner_id = Some c ->
          exists d, Entry.datum original = Some d
                    /\ (d <=?t MonthClosure.period_end c) = false)
    /\ py_int (c_menge_str form) = Some menge.

(** The row [correction_entry] writes. *)
Definition correction_row (db : DB) (partner_id : Z) (form : correction_form)
  (account : Account.t) (entry_date : datetime) (original : Entry.t)
  (menge : Z) : Entry.t :=
  let korr_menge :=
    if String.eqb (Entry.richtung original) "Ausgang" then menge else - menge in
  let m := verteilung (c_typ form) korr_menge in
  Entry.mk (next_id (map Entry.id (entries db)))
           (c_belegnummer form) (Some entry_date) "Korrektur"
           (Some (eup m)) (Some (gb m)) (Some (tmb1 m)) (Some (tmb2 m))
           (c_kommentar form)
           (match find_last_for_beleg db partner_id (c_belegnummer form) with
            | Some last_for_beleg => Entry.konto_seq last_for_beleg + 1
            | None => 1
            end)
           "Taach" (Account.id account).

(* ================================================================== *)
(** ** Sample requests *)
(* ================================================================== *)


Definition form_bad_direction_locked : entry_form :=
  mkentry_form (Some "XXX"%string) (Some "EUP"%string)
    "4" "ref 1234" "2024-01-15".

Definition form_bad_direction : entry_form :=
  mkentry_form (Some "XXX"%string) (Some "EUP"%string)
    "4" "ref 1234" "2024-02-10".

Definition form_in_unknown_typ : entry_form :=
  mkentry_form (Some "EIN"%string) (Some "H1"%string)
    "7" "" "2024-02-10".

Definition form_in_eup : entry_form :=
  mkentry_form (Some "EIN"%string) (Some "EUP"%string)
    "7" "" "2024-02-10".

Definition form_correction_gb : correction_form :=
  mkcorrection_form "2024020501" "2024-02-10" (Some "GB"%string)
    "2" "Retoure".

Definition form_correction_unknown_typ : correction_form :=
  mkcorrection_form "2024020501" "2024-02-10" (Some "H1"%string)
    "2" "Retoure".

Definition form_correction_backdated : correction_form :=
  mkcorrection_form "2024020501" "2024-01-15" (Some "GB"%string)
    "2" "Retoure".

(** The running balance the loop carries. *)
Definition l_saldo_end (st : loop_state) : saldo :=
  saldo_fadd (l_saldo_start st) (l_movement st).

(** The number a string of decimal digits denotes. *)
Definition decimal_value (s : string) : option nat :=
  option_map Nat.of_uint (NilEmpty.uint_of_string s).

(* ================================================================== *)
(** ** The ledger invariant of the entry recorder *)
(* ================================================================== *)

(** [0, 1, ..., n - 1] *)
Definition zrange (n : nat) : list Z := map Z.of_nat (seq 0 n).

(** Sequence numbers of every voucher group count up from 0 in creation
    order. *)
Definition groups_gapless (rows : list Entry.t) : Prop :=
  forall b,
    map Entry.konto_seq (beleg_group b rows)
    = zrange (List.length (beleg_group b rows)).

(** The number behind an eight-character prefix never exceeds the number
    of rows that carry the prefix. *)
Definition numbers_counted (rows : list Entry.t) : Prop :=
  forall e D n,
    In e rows -> String.length D = 8%nat -> 0 <= n ->
    Entry.belegnummer e = (D ++ format_02d n)%string ->
    n <= count_like D rows.

(** Rows under one voucher number belong to the same partners. *)
Definition groups_with_partner (db : DB) : Prop :=
  forall e1 e2 partner_id,
    In e1 (entries db) -> In e2 (entries db) ->
    Entry.belegnummer e1 = Entry.belegnummer e2 ->
    entry_of_partner db partner_id e1 = true ->
    entry_of_partner db partner_id e2 = true.

(** Sequence number 0 marks the bookings, the others the corrections. *)
Definition seq_marks_kind (e : Entry.t) : Prop :=
  (Entry.konto_seq e = 0
   /\ (Entry.richtung e = "Eingang"%string
       \/ Entry.richtung e = "Ausgang"%string))
  \/ (0 < Entry.konto_seq e /\ Entry.richtung e = "Korrektur"%string).

Record ledger_inv (db : DB) : Prop := mkinv {
  inv_accounts : NoDup (map Account.id (accounts db));
  inv_gapless : groups_gapless (entries db);
  inv_counted : numbers_counted (entries db);
  inv_partner : groups_with_partner db;
  inv_kind : forall e, In e (entries db) -> seq_marks_kind e
}.

Definition form_correction_first : correction_form :=
  mkcorrection_form "2024021001" "2024-02-11" (Some "EUP"%string)
    "2" "Bruch".



(* ================================================================== *)
(** ** Vocabulary of the further properties *)
(* ================================================================== *)

Definition is_eingang (e : Entry.t) : bool :=
  String.eqb (Entry.richtung e) "Eingang".

Definition is_ausgang (e : Entry.t) : bool :=
  String.eqb (Entry.richtung e) "Ausgang".

(** [a] may stand before [b] in a list sorted newest first. *)
Definition not_older (a b : Entry.t) : Prop :=
  (sort_key b <=?t sort_key a) = true.

(** The rows with the same sort key as [e]. *)
Definition same_key (e x : Entry.t) : bool :=
  (sort_key x <=?t sort_key e) && (sort_key e <=?t sort_key x).

Definition form_in_january : entry_form :=
  mkentry_form (Some "EIN"%string) (Some "EUP"%string) "3" "" "2024-01-20".

Definition form_correction_january : correction_form :=
  mkcorrection_form "2024010501" "2024-02-10" (Some "EUP"%string)
    "1" "Bruch".

(* ================================================================== *)
(** ** Partner administration and the overview *)
(* ================================================================== *)

Inductive partner_response :=
| PartnerNotFound         (* [get_or_404] aborted the request *)
| PartnerNameMissing      (* "Fehler! Partnername fehlt." *)
| PartnerCreated          (* "Partner wurde angelegt." *)
| PartnerDeleted.         (* "Partner wurde gelöscht." *)

(** [new_partner], POST; [name] is the form field after
    [(... or "").strip()]. *)
Definition new_partner (db : DB) (name : string) : partner_response * DB :=
  if String.eqb name "" then (PartnerNameMissing, db)
  else
    let partner := Partner.mk (next_id (map Partner.id (partners db))) name in
    let account :=
      Account.mk (next_id (map Account.id (accounts db)))
                 (Partner.id partner) in
    (PartnerCreated,
     mkDB (partners db ++ [partner]) (accounts db ++ [account])
          (entries db) (month_closures db)).

(** [Entry.query.filter_by(account_id=acc.id).delete()] for each account
    of the partner. *)
Definition delete_entries_of (accs : list Account.t) (rows : list Entry.t)
  : list Entry.t :=
  fold_left
    (fun rows acc =>
       filter (fun e => negb (Entry.account_id e =? Account.id acc)) rows)
    accs rows.

(** [delete_partner], POST. *)
Definition delete_partner (db : DB) (partner_id : Z)
  : partner_response * DB :=
  match Partner_get db partner_id with
  | None => (PartnerNotFound, db)
  | Some partner =>
      let month_closures' :=
        filter (fun c => negb (MonthClosure.partner_id c =? Partner.id partner))
               (month_closures db) in
      let entries' :=
        delete_entries_of (partner_accounts db partner) (entries db) in
      let accounts' :=
        filter (fun a => negb (Account.partner_id a =? Partner.id partner))
               (accounts db) in
      let partners' :=
        filter (fun p => negb (Partner.id p =? Partner.id partner))
               (partners db) in
      (PartnerDeleted, mkDB partners' accounts' entries' month_closures')
  end.

(** The balance columns of one row of [index]: every entry of every
    account of the partner, whatever its date.  ([round(x, 2)] returns a
    float that denotes an integer as it is.) *)
Definition index_saldo (db : DB) (p : Partner.t) : saldo :=
  fold_left
    (fun acc_saldo acc =>
       fold_left
         (fun s e => saldo_fadd s (saldo_fmul (mengen e)
                                     (mult_of (Entry.richtung e))))
         (account_entries db acc) acc_saldo)
    (partner_accounts db p) saldo_zero.

(** Foreign keys point at existing rows. *)
Record references_ok (db : DB) : Prop := mkrefs {
  refs_accounts : forall a, In a (accounts db) ->
    exists p, In p (partners db) /\ Account.partner_id a = Partner.id p;
  refs_entries : forall e, In e (entries db) ->
    exists a, In a (accounts db) /\ Entry.account_id e = Account.id a;
  refs_closures : forall c, In c (month_closures db) ->
    exists p, In p (partners db) /\ MonthClosure.partner_id c = Partner.id p
}.

(* ================================================================== *)
(** ** The month view: may the month be closed? *)
(* ================================================================== *)

Definition dt_eqb (a b : datetime) : bool :=
  match dt_compare a b with Eq => true | _ => false end.

Definition date_ltb (a b : date) : bool :=
  match lex_compare [dyear a; dmonth a; dday a] [dyear b; dmonth b; dday b]
  with Lt => true | _ => false end.

(** [can_close_month] of [partner_detail] for the period on display;
    [None] is the [ValueError] of [month_range]. *)
Definition can_close_month (today : date) (db : DB) (partner_id : Z)
  (start_date end_date : datetime) : option bool :=
  match month_range (date_of start_date) with
  | None => None
  | Some (ms, me) =>
      let is_full_month := dt_eqb start_date ms && dt_eqb end_date me in
      let first_of_current := mkdate (dyear today) (dmonth today) 1 in
      let existing_closure :=
        existing_closure db partner_id (year start_date) (month start_date) in
      Some (is_full_month
            && date_ltb (date_of end_date) first_of_current
            && match existing_closure with None => true | Some _ => false end)
  end.

(* ================================================================== *)
(** ** Calendar facts *)
(* ================================================================== *)

Lemma lex_compare_antisym a : forall b,
  lex_compare b a = CompOpp (lex_compare a b).
Proof.
  induction a as [|x a IH]; intros [|y b]; simpl; try reflexivity.
  rewrite (Z.compare_antisym x y).
  destruct (x ?= y); simpl; auto.
Qed.

Lemma lex_compare_refl a : lex_compare a a = Eq.
Proof. induction a as [|x a IH]; simpl; [|rewrite Z.compare_refl]; auto. Qed.

Lemma lex_compare_trans_lt a : forall b c,
  lex_compare a b = Lt -> lex_compare b c = Lt -> lex_compare a c = Lt.
Proof.
  induction a as [|x a IH]; intros [|y b] [|z c]; simpl; try congruence.
  destruct (x ?= y) eqn:Hxy; try congruence;
    destruct (y ?= z) eqn:Hyz; try congruence; intros H1 H2.
  - apply Z.compare_eq in Hxy, Hyz. subst. rewrite Z.compare_refl. eauto.
  - apply Z.compare_eq in Hxy. subst. now rewrite Hyz.
  - apply Z.compare_eq in Hyz. subst. now rewrite Hxy.
  - rewrite Z.compare_lt_iff in *. 
    assert (x < z) by lia. apply Z.compare_lt_iff in H. now rewrite H.
Qed.

Lemma lex_compare_eq_len a : forall b,
  List.length a = List.length b -> lex_compare a b = Eq -> a = b.
Proof.
  induction a as [|x a IH]; intros [|y b]; simpl; try congruence.
  intros Hl. destruct (x ?= y) eqn:Hxy; try congruence.
  apply Z.compare_eq in Hxy. intros. f_equal; auto.
Qed.

Lemma dt_ltb_leb a b : (a <?t b) = negb (b <=?t a).
Proof.
  unfold dt_ltb, dt_leb, dt_compare.
  rewrite (lex_compare_antisym (dt_fields a) (dt_fields b)).
  destruct (lex_compare (dt_fields a) (dt_fields b)); reflexivity.
Qed.

Lemma dt_leb_ltb a b : (a <=?t b) = negb (b <?t a).
Proof. rewrite dt_ltb_leb, negb_involutive. reflexivity. Qed.

Lemma dt_leb_refl a : (a <=?t a) = true.
Proof. unfold dt_leb, dt_compare. now rewrite lex_compare_refl. Qed.

Lemma dt_ltb_trans a b c :
  (a <?t b) = true -> (b <?t c) = true -> (a <?t c) = true.
Proof.
  unfold dt_ltb, dt_compare.
  destruct (lex_compare (dt_fields a) (dt_fields b)) eqn:H1; try discriminate.
  destruct (lex_compare (dt_fields b) (dt_fields c)) eqn:H2; try discriminate.
  now rewrite (lex_compare_trans_lt _ _ _ H1 H2).
Qed.

Lemma dt_compare_eq a b : dt_compare a b = Eq -> a = b.
Proof.
  unfold dt_compare. intros H.
  apply lex_compare_eq_len in H; [|reflexivity].
  destruct a as [[ya ma da] [ha mia sa ua]], b as [[yb mb db] [hb mib sb ub]].
  unfold dt_fields, year, month, day in H. simpl in H. congruence.
Qed.

Lemma dt_leb_cases a b : (a <=?t b) = true <-> (a <?t b) = true \/ a = b.
Proof.
  unfold dt_leb, dt_ltb. split.
  - destruct (dt_compare a b) eqn:H; try discriminate; auto.
    right. now apply dt_compare_eq.
  - intros [H| ->].
    + destruct (dt_compare a b); auto; discriminate.
    + unfold dt_compare. now rewrite lex_compare_refl.
Qed.

Lemma dt_lt_le_trans a b c :
  (a <?t b) = true -> (b <=?t c) = true -> (a <?t c) = true.
Proof.
  intros H1 H2. apply dt_leb_cases in H2 as [H2| ->]; eauto using dt_ltb_trans.
Qed.

Lemma dt_le_lt_trans a b c :
  (a <=?t b) = true -> (b <?t c) = true -> (a <?t c) = true.
Proof.
  intros H1 H2. apply dt_leb_cases in H1 as [H1| ->]; eauto using dt_ltb_trans.
Qed.

Lemma dt_leb_trans a b c :
  (a <=?t b) = true -> (b <=?t c) = true -> (a <=?t c) = true.
Proof.
  intros H1 H2. apply dt_leb_cases in H1 as [H1| ->]; auto.
  apply dt_leb_cases. left. eauto using dt_lt_le_trans.
Qed.

Example month_range_feb_2024 :
  month_range (mkdate 2024 2 17)
  = Some (combine (mkdate 2024 2 1) (mktime 0 0 0 0),
          combine (mkdate 2024 2 29) (mktime 23 59 59 0)).
Proof. reflexivity. Qed.

Example month_range_dec_2023 :
  month_range (mkdate 2023 12 5)
  = Some (combine (mkdate 2023 12 1) (mktime 0 0 0 0),
          combine (mkdate 2023 12 31) (mktime 23 59 59 0)).
Proof. reflexivity. Qed.

Example month_range_dec_9999 : month_range (mkdate 9999 12 1) = None.
Proof. reflexivity. Qed.

(** *** The last second of a month *)

Lemma _is_leap_shift y q : _is_leap (y + 400 * q) = _is_leap y.
Proof.
  unfold _is_leap.
  replace (y + 400 * q) with (y + (100 * q) * 4) at 1 by lia.
  replace (y + 400 * q) with (y + (4 * q) * 100) at 1 by lia.
  replace (y + 400 * q) with (y + q * 400) by lia.
  now rewrite !Z_mod_plus_full.
Qed.

Lemma _days_before_year_shift y q :
  _days_before_year (y + 400 * q) = _days_before_year y + _DI400Y * q.
Proof.
  unfold _days_before_year, _DI400Y. cbv zeta.
  replace (y + 400 * q - 1) with (y - 1 + (100 * q) * 4) at 2 by lia.
  replace (y + 400 * q - 1) with (y - 1 + (4 * q) * 100) at 2 by lia.
  replace (y + 400 * q - 1) with (y - 1 + q * 400) at 2 by lia.
  rewrite !Z_div_plus_full by lia. lia.
Qed.

Lemma _ymd2ord_shift y m d q :
  _ymd2ord (y + 400 * q) m d = _ymd2ord y m d + _DI400Y * q.
Proof.
  unfold _ymd2ord, _days_before_month.
  rewrite _days_before_year_shift, _is_leap_shift. lia.
Qed.

Lemma _days_in_month_shift y m q :
  _days_in_month (y + 400 * q) m = _days_in_month y m.
Proof. unfold _days_in_month. now rewrite _is_leap_shift. Qed.

Lemma _ord2ymd_shift n q :
  _ord2ymd (n + _DI400Y * q)
  = mkdate (dyear (_ord2ymd n) + 400 * q)
           (dmonth (_ord2ymd n)) (dday (_ord2ymd n)).
Proof.
  unfold _ord2ymd. cbv zeta.
  replace (n + _DI400Y * q - 1) with (n - 1 + q * _DI400Y) by lia.
  rewrite Z_div_plus_full, Z_mod_plus_full by (unfold _DI400Y; lia).
  repeat match goal with
         | |- context [if ?c then _ else _] => destruct c
         end; cbn [dyear dmonth dday]; f_equal; lia.
Qed.

Lemma forall_from_spec f n : forall lo,
  forall_from f lo n = true ->
  forall z, lo <= z < lo + Z.of_nat n -> f z = true.
Proof.
  induction n as [|n IH]; intros lo H z Hz; [lia|].
  simpl in H. apply andb_true_iff in H as [H0 H1].
  destruct (Z.eq_dec z lo) as [->|Hne]; auto.
  apply (IH (lo + 1)); auto. lia.
Qed.

Lemma date_eqb_eq a b : date_eqb a b = true -> a = b.
Proof.
  destruct a, b. unfold date_eqb. simpl. intros H.
  apply andb_true_iff in H as [H H3]. apply andb_true_iff in H as [H1 H2].
  apply Z.eqb_eq in H1, H2, H3. congruence.
Qed.

(** The ordinal of the last day of a month converts back to that day:
    checked over one 400-year cycle, then carried to every year. *)
Lemma month_end_ok_cycle :
  forall_from
    (fun y =>
       forall_from
         (fun m => date_eqb (_ord2ymd (_ymd2ord y m (_days_in_month y m)))
                            (mkdate y m (_days_in_month y m)))
         1 12) 1 400
  = true.
Proof. vm_cast_no_check (@eq_refl bool true). Qed.

Lemma month_end_roundtrip_cycle r q m :
  1 <= r <= 400 -> 1 <= m <= 12 ->
  _ord2ymd (_ymd2ord (r + 400 * q) m (_days_in_month (r + 400 * q) m))
  = mkdate (r + 400 * q) m (_days_in_month (r + 400 * q) m).
Proof.
  intros Hr Hm.
  assert (Hr' : 1 <= r < 1 + Z.of_nat 400) by lia.
  assert (Hm' : 1 <= m < 1 + Z.of_nat 12) by lia.
  pose proof (forall_from_spec _ _ _
                (forall_from_spec _ _ _ month_end_ok_cycle r Hr') m Hm') as H.
  apply date_eqb_eq in H.
  rewrite _days_in_month_shift, _ymd2ord_shift, _ord2ymd_shift, H.
  reflexivity.
Qed.

Lemma month_end_roundtrip y m :
  1 <= y -> 1 <= m <= 12 ->
  _ord2ymd (_ymd2ord y m (_days_in_month y m))
  = mkdate y m (_days_in_month y m).
Proof.
  intros Hy Hm.
  assert (Hyr : y = ((y - 1) mod 400 + 1) + 400 * ((y - 1) / 400)).
  { pose proof (Z.div_mod (y - 1) 400). lia. }
  rewrite Hyr. apply month_end_roundtrip_cycle; auto.
  pose proof (Z.mod_pos_bound (y - 1) 400). lia.
Qed.

Lemma _days_before_next_month y m :
  1 <= m < 12 ->
  _days_before_month y (m + 1) = _days_before_month y m + _days_in_month y m.
Proof.
  intros Hm. unfold _days_before_month, _days_in_month.
  assert (C : m = 1 \/ m = 2 \/ m = 3 \/ m = 4 \/ m = 5 \/ m = 6 \/ m = 7
              \/ m = 8 \/ m = 9 \/ m = 10 \/ m = 11) by lia.
  destruct (_is_leap y);
    repeat (destruct C as [->|C]; [reflexivity|]); subst; reflexivity.
Qed.

Lemma _days_before_next_year y :
  _days_before_year (y + 1)
  = _days_before_year y + _days_before_month y 12 + _days_in_month y 12.
Proof.
  unfold _days_before_year, _days_before_month, _days_in_month, _is_leap.
  cbv zeta. cbn [_DAYS_BEFORE_MONTH _DAYS_IN_MONTH Z.eqb Z.ltb Z.compare
                 Pos.compare Pos.compare_cont andb].
  replace (y + 1 - 1) with y by lia.
  destruct (y mod 4 =? 0) eqn:E4; destruct (y mod 100 =? 0) eqn:E100;
    destruct (y mod 400 =? 0) eqn:E400; simpl;
    rewrite ?Z.eqb_eq, ?Z.eqb_neq in *;
    Z.div_mod_to_equations; lia.
Qed.

Lemma _days_in_month_bounds y m :
  1 <= m <= 12 -> 28 <= _days_in_month y m <= 31.
Proof.
  intros Hm. unfold _days_in_month.
  assert (C : m = 1 \/ m = 2 \/ m = 3 \/ m = 4 \/ m = 5 \/ m = 6 \/ m = 7
              \/ m = 8 \/ m = 9 \/ m = 10 \/ m = 11 \/ m = 12) by lia.
  destruct (_is_leap y);
    repeat (destruct C as [->|C]; [simpl; lia|]); subst; simpl; lia.
Qed.

Lemma _days_before_month_bounds y m :
  1 <= m <= 12 -> 0 <= _days_before_month y m <= 335.
Proof.
  intros Hm. unfold _days_before_month.
  assert (C : m = 1 \/ m = 2 \/ m = 3 \/ m = 4 \/ m = 5 \/ m = 6 \/ m = 7
              \/ m = 8 \/ m = 9 \/ m = 10 \/ m = 11 \/ m = 12) by lia.
  destruct (_is_leap y);
    repeat (destruct C as [->|C]; [simpl; lia|]); subst; simpl; lia.
Qed.

Lemma _days_before_year_bounds y :
  1 <= y <= 10000 -> 0 <= _days_before_year y <= _MAXORDINAL.
Proof.
  intros Hy. unfold _days_before_year, _MAXORDINAL. cbv zeta.
  Z.div_mod_to_equations. lia.
Qed.

Lemma _days_before_year_mono y : 1 <= y ->
  _days_before_year y + 365 <= _days_before_year (y + 1).
Proof.
  intros Hy. unfold _days_before_year. cbv zeta.
  replace (y + 1 - 1) with (y - 1 + 1) by lia.
  Z.div_mod_to_equations. lia.
Qed.

(** The ordinal of the first day of the following month is one more than
    the ordinal of the last day of this one. *)
Lemma _ymd2ord_next_month y m :
  1 <= m <= 12 ->
  _ymd2ord (fst (next_month y m)) (snd (next_month y m)) 1
  = _ymd2ord y m (_days_in_month y m) + 1.
Proof.
  intros Hm. unfold next_month, _ymd2ord.
  destruct (m =? 12) eqn:E; cbn [fst snd].
  - apply Z.eqb_eq in E. subst m. rewrite _days_before_next_year.
    change (_days_before_month (y + 1) 1) with 0. lia.
  - apply Z.eqb_neq in E. rewrite _days_before_next_month by lia. lia.
Qed.

Lemma sub_seconds_midnight y m d :
  0 < _ymd2ord y m d - 1 <= _MAXORDINAL ->
  sub_seconds (combine (mkdate y m d) (mktime 0 0 0 0)) 1
  = Some (combine (_ord2ymd (_ymd2ord y m d - 1)) (mktime 23 59 59 0)).
Proof.
  intros Hr. unfold sub_seconds. cbn [time_of date_of hour minute second
    microsecond year month day dyear dmonth dday]. cbv zeta.
  set (ord := _ymd2ord y m d) in *.
  replace (ord * 86400 + 0 * 3600 + 0 * 60 + 0 - 1)
    with (86399 + (ord - 1) * 86400) by lia.
  rewrite Z_div_plus_full, Z_mod_plus_full by lia.
  change (86399 / 86400) with 0. change (86399 mod 86400) with 86399.
  change (86399 / 3600) with 23. change (86399 mod 3600) with 3599.
  change (3599 / 60) with 59. change (3599 mod 60) with 59.
  replace (0 + (ord - 1)) with (ord - 1) by lia.
  assert (E : (0 <? ord - 1) && (ord - 1 <=? _MAXORDINAL) = true).
  { apply andb_true_iff. split; [apply Z.ltb_lt|apply Z.leb_le]; lia. }
  now rewrite E.
Qed.

Lemma new_datetime_first y m :
  1 <= y <= 9999 -> 1 <= m <= 12 ->
  new_datetime y m 1 = Some (combine (mkdate y m 1) (mktime 0 0 0 0)).
Proof.
  intros Hy Hm. unfold new_datetime, new_date, check_date_fields.
  pose proof (_days_in_month_bounds y m Hm).
  replace (1 <=? y) with true by (symmetry; apply Z.leb_le; lia).
  replace (y <=? 9999) with true by (symmetry; apply Z.leb_le; lia).
  replace (1 <=? m) with true by (symmetry; apply Z.leb_le; lia).
  replace (m <=? 12) with true by (symmetry; apply Z.leb_le; lia).
  replace (1 <=? _days_in_month y m) with true
    by (symmetry; apply Z.leb_le; lia).
  reflexivity.
Qed.

Lemma month_range_last_second y m :
  1 <= y <= 9999 -> 1 <= m <= 12 -> ~ (y = 9999 /\ m = 12) ->
  month_range (mkdate y m 1)
  = Some (combine (mkdate y m 1) (mktime 0 0 0 0), last_second y m).
Proof.
  intros Hy Hm Hne. unfold month_range. cbn [dyear dmonth].
  rewrite (new_datetime_first y m Hy Hm).
  pose proof (_ymd2ord_next_month y m Hm) as Hord.
  pose proof (month_end_roundtrip y m (proj1 Hy) Hm) as Hrt.
  pose proof (_days_in_month_bounds y m Hm) as Hdim.
  pose proof (_days_before_month_bounds y m Hm) as Hdbm.
  assert (Hrange : 0 < _ymd2ord y m (_days_in_month y m) <= _MAXORDINAL).
  { pose proof (_days_before_year_bounds y ltac:(lia)).
    pose proof (_days_before_year_bounds (y + 1) ltac:(lia)).
    pose proof (_ymd2ord_next_month y 12 ltac:(lia)) as H12.
    unfold next_month in H12. cbn [Z.eqb Pos.eqb fst snd] in H12.
    unfold _ymd2ord in *.
    change (_days_before_month (y + 1) 1) with 0 in H12.
    split; [lia|].
    destruct (Z.eq_dec m 12) as [->|Hm12]; [lia|].
    assert (_days_before_month y m + _days_in_month y m
            <= _days_before_month y 12).
    { clear -Hm Hm12. unfold _days_before_month, _days_in_month.
      assert (C : m = 1 \/ m = 2 \/ m = 3 \/ m = 4 \/ m = 5 \/ m = 6 \/ m = 7
              \/ m = 8 \/ m = 9 \/ m = 10 \/ m = 11) by lia.
      destruct (_is_leap y);
        repeat (destruct C as [->|C]; [simpl; lia|]); subst; simpl; lia. }
    pose proof (_days_in_month_bounds y 12 ltac:(lia)). 
    lia. }
  unfold next_month in Hord.
  destruct (m =? 12) eqn:E; cbn [fst snd] in Hord.
  - apply Z.eqb_eq in E. subst m.
    rewrite (new_datetime_first (y + 1) 1) by lia.
    rewrite sub_seconds_midnight by lia.
    rewrite Hord. replace (_ymd2ord y 12 (_days_in_month y 12) + 1 - 1)
      with (_ymd2ord y 12 (_days_in_month y 12)) by lia.
    now rewrite Hrt.
  - apply Z.eqb_neq in E.
    rewrite (new_datetime_first y (m + 1)) by lia.
    rewrite sub_seconds_midnight by lia.
    rewrite Hord. replace (_ymd2ord y m (_days_in_month y m) + 1 - 1)
      with (_ymd2ord y m (_days_in_month y m)) by lia.
    now rewrite Hrt.
Qed.

(* ================================================================== *)
(** ** Query facts *)
(* ================================================================== *)

Lemma Partner_get_id db partner_id partner :
  Partner_get db partner_id = Some partner -> Partner.id partner = partner_id.
Proof.
  unfold Partner_get. intros H. apply find_some in H as [_ H].
  now apply Z.eqb_eq in H.
Qed.

Lemma Partner_get_In db partner_id partner :
  Partner_get db partner_id = Some partner -> In partner (partners db).
Proof. unfold Partner_get. intros H. now apply find_some in H. Qed.

Section FirstDesc.

Context {A : Type} (gtb : A -> A -> bool).

Let pick (best : option A) (x : A) : option A :=
  match best with
  | None => Some x
  | Some b => if gtb x b then Some x else Some b
  end.

Lemma first_desc_fold_some rows : forall b,
  exists r, fold_left pick rows (Some b) = Some r /\ (r = b \/ In r rows).
Proof.
  induction rows as [|x rows IH]; intros b; simpl.
  - eauto.
  - destruct (gtb x b).
    + destruct (IH x) as (r & Hr & [->|Hin]); eauto.
    + destruct (IH b) as (r & Hr & [->|Hin]); eauto.
Qed.

Lemma first_desc_In rows r : first_desc gtb rows = Some r -> In r rows.
Proof.
  unfold first_desc. destruct rows as [|x rows]; simpl; [discriminate|].
  destruct (first_desc_fold_some rows x) as (r' & Hr & Hin).
  fold pick. rewrite Hr. intros [= <-]. destruct Hin; subst; auto.
Qed.

Lemma first_desc_None rows : first_desc gtb rows = None -> rows = [].
Proof.
  unfold first_desc. destruct rows as [|x rows]; simpl; auto.
  destruct (first_desc_fold_some rows x) as (r' & Hr & _).
  fold pick. rewrite Hr. discriminate.
Qed.

Lemma first_desc_Some rows x :
  In x rows -> exists r, first_desc gtb rows = Some r.
Proof.
  intros Hin. destruct (first_desc gtb rows) eqn:E; eauto.
  apply first_desc_None in E. subst. destruct Hin.
Qed.

(** For a strict order whose complement is transitive, no row beats the
    selected one. *)
Hypothesis gtb_asym : forall x y, gtb x y = true -> gtb y x = false.
Hypothesis ngtb_trans : forall x y z,
  gtb x y = false -> gtb y z = false -> gtb x z = false.

Lemma first_desc_fold_max rows : forall b r,
  fold_left pick rows (Some b) = Some r ->
  gtb b r = false /\ forall y, In y rows -> gtb y r = false.
Proof.
  induction rows as [|x rows IH]; intros b r; simpl.
  - intros [= <-]. split; [|intros y []].
    destruct (gtb b b) eqn:E; auto. now rewrite (gtb_asym _ _ E) in E.
  - destruct (gtb x b) eqn:E; intros H; apply IH in H as [H1 H2].
    + split; [eauto|]. intros y [<-|Hy]; auto.
    + split; auto. intros y [<-|Hy]; eauto.
Qed.

Lemma first_desc_max rows r :
  first_desc gtb rows = Some r -> forall y, In y rows -> gtb y r = false.
Proof.
  unfold first_desc. destruct rows as [|x rows]; simpl; [discriminate|].
  fold pick. intros H. apply first_desc_fold_max in H as [H1 H2].
  intros y [<-|Hy]; auto.
Qed.

End FirstDesc.

Lemma closure_later_asym c1 c2 :
  closure_later c1 c2 = true -> closure_later c2 c1 = false.
Proof.
  unfold closure_later. intros H.
  rewrite dt_ltb_leb. apply negb_false_iff.
  apply dt_leb_cases. auto.
Qed.

Lemma closure_later_ntrans c1 c2 c3 :
  closure_later c1 c2 = false -> closure_later c2 c3 = false ->
  closure_later c1 c3 = false.
Proof.
  unfold closure_later. rewrite !dt_ltb_leb, !negb_false_iff.
  eauto using dt_leb_trans.
Qed.

(** The closure the lock checks consult is one of the partner's, and none
    of the partner's closures ends later. *)
Lemma last_closure_spec db partner_id c :
  last_closure db partner_id = Some c ->
  In c (month_closures db) /\ MonthClosure.partner_id c = partner_id
  /\ forall c', In c' (month_closures db) ->
       MonthClosure.partner_id c' = partner_id ->
       (MonthClosure.period_end c' <=?t MonthClosure.period_end c) = true.
Proof.
  unfold last_closure. intros H.
  pose proof (first_desc_In _ _ _ H) as Hin.
  apply filter_In in Hin as [Hin Hp]. apply Z.eqb_eq in Hp.
  repeat split; auto. intros c' Hc' Hp'.
  pose proof (first_desc_max _ closure_later_asym closure_later_ntrans _ _ H c')
    as Hmax.
  unfold closure_later in Hmax. rewrite dt_leb_ltb, Hmax; auto.
  apply filter_In. split; auto. now apply Z.eqb_eq.
Qed.

Lemma last_closure_None db partner_id :
  last_closure db partner_id = None ->
  forall c, In c (month_closures db) ->
            MonthClosure.partner_id c <> partner_id.
Proof.
  unfold last_closure. intros H c Hc Hp.
  apply first_desc_None in H.
  assert (Hin : In c (filter (fun c => MonthClosure.partner_id c =? partner_id)
                             (month_closures db))).
  { apply filter_In. split; auto. now apply Z.eqb_eq. }
  rewrite H in Hin. destruct Hin.
Qed.

(** The closure that seeds a balance ends before the period starts and is
    the latest of the partner's closures that do. *)
Lemma get_last_closure_before_spec db partner_id dt c :
  get_last_closure_before db partner_id dt = Some c ->
  In c (month_closures db) /\ MonthClosure.partner_id c = partner_id
  /\ (MonthClosure.period_end c <?t dt) = true
  /\ forall c', In c' (month_closures db) ->
       MonthClosure.partner_id c' = partner_id ->
       (MonthClosure.period_end c' <?t dt) = true ->
       (MonthClosure.period_end c' <=?t MonthClosure.period_end c) = true.
Proof.
  unfold get_last_closure_before. intros H.
  pose proof (first_desc_In _ _ _ H) as Hin.
  apply filter_In in Hin as [Hin Hlt].
  apply filter_In in Hin as [Hin Hp]. apply Z.eqb_eq in Hp.
  repeat split; auto. intros c' Hc' Hp' Hlt'.
  pose proof (first_desc_max _ closure_later_asym closure_later_ntrans _ _ H c')
    as Hmax.
  unfold closure_later in Hmax. rewrite dt_leb_ltb, Hmax; auto.
  apply filter_In. split; auto.
  apply filter_In. split; auto. now apply Z.eqb_eq.
Qed.

(* ================================================================== *)
(** ** Balance calculator facts *)
(* ================================================================== *)

Lemma saldo_eq a b :
  eup a = eup b -> gb a = gb b -> tmb1 a = tmb1 b -> tmb2 a = tmb2 b -> a = b.
Proof. destruct a, b; simpl; congruence. Qed.

Ltac saldo_arith :=
  apply saldo_eq; unfold saldo_add, saldo_scale, saldo_zero; simpl; lia.

Lemma saldo_add_assoc a b c :
  saldo_add (saldo_add a b) c = saldo_add a (saldo_add b c).
Proof. saldo_arith. Qed.

Lemma saldo_add_zero_r a : saldo_add a saldo_zero = a.
Proof. saldo_arith. Qed.

Lemma saldo_get_add k a b :
  saldo_get k (saldo_add a b) = saldo_get k a + saldo_get k b.
Proof. destruct k; reflexivity. Qed.

Lemma saldo_sum_app l1 l2 :
  saldo_sum (l1 ++ l2) = saldo_add (saldo_sum l1) (saldo_sum l2).
Proof.
  induction l1 as [|s l1 IH]; simpl.
  - saldo_arith.
  - rewrite IH. now rewrite saldo_add_assoc.
Qed.

(* ================================================================== *)
(** ** Binary64: where sums are exact *)
(* ================================================================== *)

Lemma float_exact n : Z.abs n <= float_exact_max -> float n = n.
Proof.
  intros H. unfold float. cbv zeta. apply Z.leb_le in H. now rewrite H.
Qed.

(** Above 2^53 conversions and sums round. *)
Example float_rounds :
  float (float_exact_max + 1) = float_exact_max
  /\ float (float_exact_max + 3) = float_exact_max + 4
  /\ fadd (fmul (float (float_exact_max + 1)) (-1)) (float 1)
     = - float_exact_max + 1.
Proof. repeat split. Qed.

Lemma mult_of_cases richtung : mult_of richtung = 1 \/ mult_of richtung = -1.
Proof.
  unfold mult_of. destruct (String.eqb richtung "Eingang"); auto.
  destruct (String.eqb richtung "Ausgang"); auto.
  destruct (String.eqb richtung "Korrektur"); auto.
Qed.

Lemma saldo_weight_nonneg a : 0 <= saldo_weight a.
Proof. unfold saldo_weight. lia. Qed.

Lemma weight_nonneg e : 0 <= weight e.
Proof. apply saldo_weight_nonneg. Qed.

Lemma volume_nonneg l : 0 <= volume l.
Proof.
  induction l as [|e l IH]; simpl; [lia|]. pose proof (weight_nonneg e). lia.
Qed.

Lemma volume_app l1 l2 : volume (l1 ++ l2) = volume l1 + volume l2.
Proof. induction l1 as [|e l1 IH]; simpl; lia. Qed.

Ltac saldo_exact :=
  apply saldo_eq; cbn [eup gb tmb1 tmb2];
  unfold fadd, fmul; apply float_exact; lia.

Lemma saldo_fadd_exact a b :
  saldo_weight a + saldo_weight b <= float_exact_max ->
  saldo_fadd a b = saldo_add a b.
Proof.
  unfold saldo_weight, saldo_fadd, saldo_add. intros H. saldo_exact.
Qed.

Lemma saldo_fmul_exact a m :
  saldo_weight a <= float_exact_max -> m = 1 \/ m = -1 ->
  saldo_fmul a m = saldo_scale a m.
Proof.
  unfold saldo_weight, saldo_fmul, saldo_scale. intros H [-> | ->];
    saldo_exact.
Qed.

Lemma mengen_exact e : weight e <= float_exact_max -> mengen e = quantities e.
Proof.
  unfold weight, saldo_weight, mengen, quantities, float_or0.
  cbn [eup gb tmb1 tmb2]. intros H.
  apply saldo_eq; cbn [eup gb tmb1 tmb2]; apply float_exact; lia.
Qed.

Lemma saldo_weight_add a b :
  saldo_weight (saldo_add a b) <= saldo_weight a + saldo_weight b.
Proof. unfold saldo_weight, saldo_add. cbn [eup gb tmb1 tmb2]. lia. Qed.

Lemma saldo_weight_scale a m :
  m = 1 \/ m = -1 -> saldo_weight (saldo_scale a m) = saldo_weight a.
Proof.
  unfold saldo_weight, saldo_scale. cbn [eup gb tmb1 tmb2].
  intros [-> | ->]; lia.
Qed.

Lemma saldo_weight_mengen e :
  weight e <= float_exact_max -> saldo_weight (mengen e) = weight e.
Proof. intros H. now rewrite (mengen_exact e H). Qed.

Lemma saldo_weight_contribution e :
  weight e <= float_exact_max -> saldo_weight (contribution e) = weight e.
Proof.
  intros H. unfold contribution.
  rewrite (saldo_weight_scale _ _ (mult_of_cases _)).
  now apply saldo_weight_mengen.
Qed.

(** [me * mult] is the contribution, rounded or not: the quantities are
    floats already and the multiplier is 1 or -1. *)
Lemma saldo_fmul_contribution e :
  weight e <= float_exact_max ->
  saldo_fmul (mengen e) (mult_of (Entry.richtung e)) = contribution e.
Proof.
  intros H. unfold contribution. apply saldo_fmul_exact.
  - rewrite (saldo_weight_mengen e H). exact H.
  - apply mult_of_cases.
Qed.

Lemma saldo_weight_sum_le l :
  volume l <= float_exact_max ->
  saldo_weight (saldo_sum (map contribution l)) <= volume l.
Proof.
  induction l as [|e l IH]; intros H; [simpl; unfold saldo_weight; simpl; lia|].
  cbn [map saldo_sum volume] in *.
  pose proof (weight_nonneg e). pose proof (volume_nonneg l).
  pose proof (saldo_weight_add (contribution e) (saldo_sum (map contribution l))).
  rewrite saldo_weight_contribution in H2 by lia.
  specialize (IH ltac:(lia)). lia.
Qed.

(* ================================================================== *)
(** ** The loop of the calculator *)
(* ================================================================== *)

(** The two zones exclude each other. *)
Lemma in_catch_up_not_in_period base_date start_date end_date e :
  in_catch_up base_date start_date e = true ->
  in_period base_date start_date end_date e = false.
Proof.
  unfold in_catch_up, in_period. destruct (Entry.datum e) as [d|]; auto.
  intros H. apply andb_true_iff in H as [H1 H2].
  rewrite (dt_leb_ltb start_date d), H2. simpl.
  now rewrite andb_false_r.
Qed.

(** What one iteration does, zone by zone, as the code computes it. *)
Lemma loop_body_catch_up_float base_date start_date end_date st e :
  in_catch_up base_date start_date e = true ->
  loop_body base_date start_date end_date st e
  = mkloop (saldo_fadd (l_saldo_start st)
              (saldo_fmul (mengen e) (mult_of (Entry.richtung e))))
           (l_movement st) (l_sums_eingang st) (l_sums_ausgang st)
           (l_entries_in_period st).
Proof.
  unfold in_catch_up, loop_body. destruct (Entry.datum e) as [d|];
    [|discriminate].
  intros H. rewrite H. apply andb_true_iff in H as [H1 H2].
  rewrite (dt_leb_ltb d base_date), H1. reflexivity.
Qed.

Lemma loop_body_in_period_float base_date start_date end_date st e :
  in_period base_date start_date end_date e = true ->
  loop_body base_date start_date end_date st e
  = mkloop (l_saldo_start st)
           (saldo_fadd (l_movement st)
              (saldo_fmul (mengen e) (mult_of (Entry.richtung e))))
           (if String.eqb (Entry.richtung e) "Eingang"
            then saldo_fadd (l_sums_eingang st) (mengen e)
            else l_sums_eingang st)
           (if String.eqb (Entry.richtung e) "Eingang"
            then l_sums_ausgang st
            else if String.eqb (Entry.richtung e) "Ausgang"
                 then saldo_fadd (l_sums_ausgang st) (mengen e)
                 else l_sums_ausgang st)
           (l_entries_in_period st ++ [e]).
Proof.
  unfold in_period, loop_body. destruct (Entry.datum e) as [d|];
    [|discriminate].
  intros H. apply andb_true_iff in H as [H H3].
  apply andb_true_iff in H as [H1 H2].
  rewrite (dt_leb_ltb d base_date), H1, H2, H3.
  rewrite (dt_ltb_leb d start_date), H2. reflexivity.
Qed.

Lemma loop_body_skip base_date start_date end_date st e :
  in_catch_up base_date start_date e = false ->
  in_period base_date start_date end_date e = false ->
  loop_body base_date start_date end_date st e = st.
Proof.
  unfold in_catch_up, in_period, loop_body.
  destruct (Entry.datum e) as [d|]; auto.
  rewrite (dt_leb_ltb d base_date).
  destruct (base_date <?t d); simpl; auto.
  intros -> ->. reflexivity.
Qed.

(** The same where no sum is rounded. *)
Lemma loop_body_catch_up base_date start_date end_date st e :
  in_catch_up base_date start_date e = true ->
  saldo_weight (l_saldo_start st) + weight e <= float_exact_max ->
  loop_body base_date start_date end_date st e
  = mkloop (saldo_add (l_saldo_start st) (contribution e))
           (l_movement st) (l_sums_eingang st) (l_sums_ausgang st)
           (l_entries_in_period st).
Proof.
  intros H Hb. rewrite (loop_body_catch_up_float _ _ _ _ _ H).
  pose proof (saldo_weight_nonneg (l_saldo_start st)).
  pose proof (weight_nonneg e).
  rewrite saldo_fmul_contribution by lia.
  rewrite saldo_fadd_exact; [reflexivity|].
  rewrite saldo_weight_contribution; lia.
Qed.

Lemma loop_body_in_period base_date start_date end_date st e :
  in_period base_date start_date end_date e = true ->
  state_weight st + weight e <= float_exact_max ->
  loop_body base_date start_date end_date st e
  = mkloop (l_saldo_start st)
           (saldo_add (l_movement st) (contribution e))
           (if String.eqb (Entry.richtung e) "Eingang"
            then saldo_add (l_sums_eingang st) (mengen e)
            else l_sums_eingang st)
           (if String.eqb (Entry.richtung e) "Eingang"
            then l_sums_ausgang st
            else if String.eqb (Entry.richtung e) "Ausgang"
                 then saldo_add (l_sums_ausgang st) (mengen e)
                 else l_sums_ausgang st)
           (l_entries_in_period st ++ [e]).
Proof.
  intros H Hb. rewrite (loop_body_in_period_float _ _ _ _ _ H).
  unfold state_weight in Hb.
  pose proof (saldo_weight_nonneg (l_saldo_start st)).
  pose proof (saldo_weight_nonneg (l_movement st)).
  pose proof (saldo_weight_nonneg (l_sums_eingang st)).
  pose proof (saldo_weight_nonneg (l_sums_ausgang st)).
  pose proof (weight_nonneg e).
  rewrite saldo_fmul_contribution by lia.
  rewrite (saldo_fadd_exact (l_movement st))
    by (rewrite saldo_weight_contribution; lia).
  rewrite (saldo_fadd_exact (l_sums_eingang st))
    by (rewrite saldo_weight_mengen; lia).
  rewrite (saldo_fadd_exact (l_sums_ausgang st))
    by (rewrite saldo_weight_mengen; lia).
  reflexivity.
Qed.

(** One iteration adds at most the weight of its entry to the
    accumulators. *)
Lemma loop_body_weight base_date start_date end_date st e :
  state_weight st + weight e <= float_exact_max ->
  state_weight (loop_body base_date start_date end_date st e)
  <= state_weight st + weight e.
Proof.
  intros Hb. pose proof (weight_nonneg e) as Hw.
  assert (He : weight e <= float_exact_max).
  { unfold state_weight in Hb.
    pose proof (saldo_weight_nonneg (l_saldo_start st)).
    pose proof (saldo_weight_nonneg (l_movement st)). lia. }
  pose proof (saldo_weight_contribution e He) as Hc.
  pose proof (saldo_weight_mengen e He) as Hm.
  destruct (in_catch_up base_date start_date e) eqn:Ec.
  - rewrite (loop_body_catch_up _ _ end_date _ _ Ec)
      by (unfold state_weight in Hb;
          pose proof (saldo_weight_nonneg (l_movement st)); lia).
    unfold state_weight. cbn [l_saldo_start l_movement l_sums_eingang
      l_sums_ausgang].
    pose proof (saldo_weight_add (l_saldo_start st) (contribution e)). lia.
  - destruct (in_period base_date start_date end_date e) eqn:Ep.
    + rewrite (loop_body_in_period _ _ _ _ _ Ep Hb).
      unfold state_weight. cbn [l_saldo_start l_movement l_sums_eingang
        l_sums_ausgang].
      pose proof (saldo_weight_add (l_movement st) (contribution e)).
      pose proof (saldo_weight_add (l_sums_eingang st) (mengen e)).
      pose proof (saldo_weight_add (l_sums_ausgang st) (mengen e)).
      destruct (String.eqb (Entry.richtung e) "Eingang");
        destruct (String.eqb (Entry.richtung e) "Ausgang"); lia.
    + rewrite (loop_body_skip _ _ _ _ _ Ec Ep). lia.
Qed.

(** The entries of the period are collected whatever the quantities. *)
Lemma loop_fold_entries base_date start_date end_date all_entries : forall st,
  l_entries_in_period
    (fold_left (loop_body base_date start_date end_date) all_entries st)
  = l_entries_in_period st
    ++ filter (in_period base_date start_date end_date) all_entries.
Proof.
  induction all_entries as [|e l IH]; intros st.
  - simpl. now rewrite app_nil_r.
  - cbn [fold_left filter]. rewrite IH.
    destruct (in_catch_up base_date start_date e) eqn:Ec.
    + rewrite (in_catch_up_not_in_period _ _ end_date _ Ec).
      now rewrite (loop_body_catch_up_float _ _ _ _ _ Ec).
    + destruct (in_period base_date start_date end_date e) eqn:Ep.
      * rewrite (loop_body_in_period_float _ _ _ _ _ Ep).
        cbn [l_entries_in_period]. now rewrite <- app_assoc.
      * now rewrite (loop_body_skip _ _ _ _ _ Ec Ep).
Qed.

(** The loop as a whole, where no sum is rounded: each accumulator is its
    initial value plus the sum over the entries of its zone, in the order
    of the list. *)
Lemma loop_fold base_date start_date end_date all_entries : forall st,
  state_weight st + volume all_entries <= float_exact_max ->
  let st' :=
    fold_left (loop_body base_date start_date end_date) all_entries st in
  l_saldo_start st'
  = saldo_add (l_saldo_start st)
      (saldo_sum (map contribution
                    (filter (in_catch_up base_date start_date) all_entries)))
  /\ l_movement st'
     = saldo_add (l_movement st)
         (saldo_sum (map contribution
            (filter (in_period base_date start_date end_date) all_entries)))
  /\ state_weight st' <= state_weight st + volume all_entries.
Proof.
  induction all_entries as [|e l IH]; intros st Hb; cbv zeta.
  - simpl. rewrite !saldo_add_zero_r. repeat split. lia.
  - cbn [fold_left filter volume] in *.
    pose proof (weight_nonneg e) as Hw. pose proof (volume_nonneg l) as Hv.
    pose proof (loop_body_weight base_date start_date end_date st e
                  ltac:(lia)) as Hstep.
    specialize (IH (loop_body base_date start_date end_date st e)
                  ltac:(lia)).
    cbv zeta in IH. destruct IH as (IH1 & IH2 & IH3).
    rewrite IH1, IH2. clear IH1 IH2.
    split; [|split; [|lia]].
    + destruct (in_catch_up base_date start_date e) eqn:Ec.
      * rewrite (loop_body_catch_up _ _ end_date _ _ Ec)
          by (unfold state_weight in Hb;
              pose proof (saldo_weight_nonneg (l_movement st)); lia).
        cbn [l_saldo_start map saldo_sum]. now rewrite saldo_add_assoc.
      * destruct (in_period base_date start_date end_date e) eqn:Ep.
        -- rewrite (loop_body_in_period _ _ _ _ _ Ep) by lia. reflexivity.
        -- now rewrite (loop_body_skip _ _ _ _ _ Ec Ep).
    + destruct (in_catch_up base_date start_date e) eqn:Ec.
      * rewrite (in_catch_up_not_in_period _ _ end_date _ Ec).
        rewrite (loop_body_catch_up _ _ end_date _ _ Ec)
          by (unfold state_weight in Hb;
              pose proof (saldo_weight_nonneg (l_movement st)); lia).
        reflexivity.
      * destruct (in_period base_date start_date end_date e) eqn:Ep.
        -- rewrite (loop_body_in_period _ _ _ _ _ Ep) by lia.
           cbn [l_movement map saldo_sum]. now rewrite saldo_add_assoc.
        -- now rewrite (loop_body_skip _ _ _ _ _ Ec Ep).
Qed.

(** The accumulators of the calculator start at the seed. *)
Lemma state_weight_seed seed :
  state_weight (mkloop seed saldo_zero saldo_zero saldo_zero [])
  = saldo_weight seed.
Proof.
  unfold state_weight. cbn [l_saldo_start l_movement l_sums_eingang
    l_sums_ausgang]. pose proof (saldo_weight_nonneg seed).
  change (saldo_weight saldo_zero) with 0. lia.
Qed.

Lemma insert_desc_perm x l : Permutation (insert_desc x l) (x :: l).
Proof.
  induction l as [|y l IH]; simpl; auto.
  destruct (sort_key x <?t sort_key y); auto.
  rewrite IH. apply perm_swap.
Qed.

Lemma sort_desc_perm l : Permutation (sort_desc l) l.
Proof.
  induction l as [|x l IH]; simpl; auto.
  rewrite insert_desc_perm. now constructor.
Qed.

(** The calculator answers for every existing partner, and its answer is
    the fold of the loop over that partner's entries. *)
Lemma calculate_saldo_and_sums_eq db partner_id partner start_date end_date :
  Partner_get db partner_id = Some partner ->
  calculate_saldo_and_sums db partner_id start_date end_date
  = let seed := base_of (get_last_closure_before db partner_id start_date) in
    let st :=
      fold_left (loop_body (snd seed) start_date end_date)
        (collect_partner_entries db partner)
        (mkloop (fst seed) saldo_zero saldo_zero saldo_zero []) in
    Some (mkresult (sort_desc (l_entries_in_period st))
                   (l_saldo_start st) (l_movement st)
                   (saldo_fadd (l_saldo_start st) (l_movement st))
                   (l_sums_eingang st) (l_sums_ausgang st)).
Proof.
  intros Hp. unfold calculate_saldo_and_sums. rewrite Hp.
  destruct (base_of (get_last_closure_before db partner_id start_date));
    reflexivity.
Qed.

Lemma in_range_split base_date start_date end_date e :
  (start_date <=?t end_date) = true ->
  in_range base_date end_date e
  = in_catch_up base_date start_date e
    || in_period base_date start_date end_date e.
Proof.
  intros Hse. unfold in_range, in_catch_up, in_period.
  destruct (Entry.datum e) as [d|]; auto.
  destruct (base_date <?t d); simpl; auto.
  rewrite (dt_leb_ltb start_date d).
  destruct (d <?t start_date) eqn:E; simpl; auto.
  apply dt_leb_cases. left. eauto using dt_lt_le_trans.
Qed.

Lemma saldo_sum_filter_split (p q r : Entry.t -> bool) l :
  (forall e, r e = p e || q e) ->
  (forall e, p e = true -> q e = false) ->
  saldo_sum (map contribution (filter r l))
  = saldo_add (saldo_sum (map contribution (filter p l)))
              (saldo_sum (map contribution (filter q l))).
Proof.
  intros Hr Hpq. induction l as [|e l IH]; simpl.
  - rewrite saldo_add_zero_r. reflexivity.
  - rewrite Hr. destruct (p e) eqn:Ep.
    + rewrite (Hpq e Ep). simpl. rewrite IH. now rewrite saldo_add_assoc.
    + destruct (q e); simpl; rewrite IH; auto. saldo_arith.
Qed.

(** The calculator where no sum is rounded: starting balance, movement
    and ending balance as sums over the zones. *)
Lemma calculate_exact db partner_id partner start_date end_date :
  Partner_get db partner_id = Some partner ->
  (start_date <=?t end_date) = true ->
  books_exact
    (fst (base_of (get_last_closure_before db partner_id start_date)))
    (collect_partner_entries db partner) ->
  exists r,
    calculate_saldo_and_sums db partner_id start_date end_date = Some r
    /\ r_saldo_start r
       = saldo_add
           (fst (base_of (get_last_closure_before db partner_id start_date)))
           (saldo_sum (map contribution
              (filter
                 (in_catch_up
                    (snd (base_of
                            (get_last_closure_before db partner_id
                               start_date)))
                    start_date)
                 (collect_partner_entries db partner))))
    /\ r_movement r
       = saldo_sum (map contribution
           (filter
              (in_period
                 (snd (base_of
                         (get_last_closure_before db partner_id start_date)))
                 start_date end_date)
              (collect_partner_entries db partner)))
    /\ r_saldo_end r = saldo_add (r_saldo_start r) (r_movement r)
    /\ r_saldo_end r
       = saldo_add
           (fst (base_of (get_last_closure_before db partner_id start_date)))
           (saldo_sum (map contribution
              (filter
                 (in_range
                    (snd (base_of
                            (get_last_closure_before db partner_id
                               start_date)))
                    end_date)
                 (collect_partner_entries db partner))))
    /\ saldo_weight (r_saldo_end r)
       <= saldo_weight
            (fst (base_of (get_last_closure_before db partner_id start_date)))
          + volume (collect_partner_entries db partner).
Proof.
  intros Hp Hse Hb.
  rewrite (calculate_saldo_and_sums_eq _ _ _ _ _ Hp). cbv zeta.
  set (seed := base_of (get_last_closure_before db partner_id start_date))
    in *.
  set (all_entries := collect_partner_entries db partner) in *.
  eexists. split; [reflexivity|].
  cbn [r_saldo_end r_saldo_start r_movement].
  destruct (loop_fold (snd seed) start_date end_date all_entries
              (mkloop (fst seed) saldo_zero saldo_zero saldo_zero []))
    as (H1 & H2 & H3).
  { rewrite state_weight_seed. exact Hb. }
  rewrite state_weight_seed in H3. unfold books_exact in Hb.
  set (st' := fold_left (loop_body (snd seed) start_date end_date)
                all_entries
                (mkloop (fst seed) saldo_zero saldo_zero saldo_zero []))
    in *.
  cbn [l_saldo_start l_movement] in H1, H2.
  assert (Hw : saldo_weight (l_saldo_start st') + saldo_weight (l_movement st')
               <= saldo_weight (fst seed) + volume all_entries).
  { unfold state_weight in H3. lia. }
  rewrite (saldo_fadd_exact (l_saldo_start st') (l_movement st')) by lia.
  split; [exact H1|]. split; [rewrite H2; saldo_arith|].
  split; [reflexivity|]. split.
  - rewrite H1, H2.
    rewrite (saldo_sum_filter_split
               (in_catch_up (snd seed) start_date)
               (in_period (snd seed) start_date end_date)
               (in_range (snd seed) end_date)).
    + saldo_arith.
    + intros e. now apply in_range_split.
    + intros e. apply in_catch_up_not_in_period.
  - pose proof (saldo_weight_add (l_saldo_start st') (l_movement st')). lia.
Qed.

(** C2. For an existing partner and a period with [start_date <= end_date],
    the calculator answers, and in each of the four categories its ending
    balance is the float sum of its starting balance and its movement.
    Where the seed and the volume of the partner's entries stay within
    2^53, so that no float sum is rounded, the ending balance is the
    starting balance plus the movement as numbers; the starting balance it
    reports is the seed of the last closure before the period with the
    catch-up entries folded in, so the ending balance is that seed plus
    every entry after the base date up to the end of the period. *)
Theorem saldo_end_is_start_plus_movement db partner_id partner
  start_date end_date :
  Partner_get db partner_id = Some partner ->
  (start_date <=?t end_date) = true ->
  exists r,
    calculate_saldo_and_sums db partner_id start_date end_date = Some r
    /\ (forall k,
          saldo_get k (r_saldo_end r)
          = fadd (saldo_get k (r_saldo_start r)) (saldo_get k (r_movement r)))
    /\ let seed := base_of (get_last_closure_before db partner_id start_date) in
       let all_entries := collect_partner_entries db partner in
       books_exact (fst seed) all_entries ->
       (forall k,
           saldo_get k (r_saldo_end r)
           = saldo_get k (r_saldo_start r) + saldo_get k (r_movement r))
       /\ r_saldo_start r
          = saldo_add (fst seed)
              (saldo_sum (map contribution
                 (filter (in_catch_up (snd seed) start_date) all_entries)))
       /\ r_saldo_end r
          = saldo_add (fst seed)
              (saldo_sum (map contribution
                 (filter (in_range (snd seed) end_date) all_entries))).
Proof.
  intros Hp Hse.
  destruct (calculate_saldo_and_sums db partner_id start_date end_date)
    as [r|] eqn:Hr.
  2:{ rewrite (calculate_saldo_and_sums_eq _ _ _ _ _ Hp) in Hr.
      discriminate Hr. }
  exists r. split; [reflexivity|]. split.
  - rewrite (calculate_saldo_and_sums_eq _ _ _ _ _ Hp) in Hr. cbv zeta in Hr.
    injection Hr as <-. cbn [r_saldo_end r_saldo_start r_movement].
    intros []; reflexivity.
  - cbv zeta. intros Hb.
    destruct (calculate_exact _ _ _ _ _ Hp Hse Hb)
      as (r' & Hr' & Hs & _ & He & Hsum & _).
    rewrite Hr in Hr'. injection Hr' as <-.
    split; [|split; assumption].
    intros k. rewrite He. apply saldo_get_add.
Qed.

Lemma saldo_end_is_start_plus_movement_witness :
  books_exact (fst (base_of (get_last_closure_before db_february 1
                               (at_time 2024 2 10 0 0))))
    (collect_partner_entries db_february (Partner.mk 1 "Spedition Nord"))
  /\ exists r,
       calculate_saldo_and_sums db_february 1
         (at_time 2024 2 10 0 0) (at_time 2024 2 20 0 0) = Some r
       /\ r_saldo_start r = mksaldo 6 (-5) 0 0
       /\ r_movement r = mksaldo 0 0 0 0
       /\ r_saldo_end r = mksaldo 6 (-5) 0 0
       /\ forall k,
            saldo_get k (r_saldo_end r)
            = saldo_get k (r_saldo_start r) + saldo_get k (r_movement r).
Proof.
  assert (Hb : books_exact
                 (fst (base_of (get_last_closure_before db_february 1
                                  (at_time 2024 2 10 0 0))))
                 (collect_partner_entries db_february
                    (Partner.mk 1 "Spedition Nord")))
    by (apply Z.leb_le; reflexivity).
  split; [exact Hb|].
  destruct (saldo_end_is_start_plus_movement db_february 1
              (Partner.mk 1 "Spedition Nord")
              (at_time 2024 2 10 0 0) (at_time 2024 2 20 0 0)
              eq_refl eq_refl) as (r & Hr & _ & Hex).
  destruct (Hex Hb) as (Hk & _ & _).
  exists r. split; [exact Hr|].
  vm_compute in Hr. injection Hr as <-. repeat split. exact Hk.
Defined.

(** Scenario A: no closures, 10 EUP in, 4 EUP out, asked for the first ten
    days of January. *)
Example scenario_A :
  exists r,
    calculate_saldo_and_sums db_january 1
      (at_time 2024 1 1 0 0) (at_time 2024 1 10 0 0) = Some r
    /\ r_saldo_start r = saldo_zero
    /\ eup (r_movement r) = 6 /\ eup (r_saldo_end r) = 6
    /\ eup (r_sums_eingang r) = 10 /\ eup (r_sums_ausgang r) = 4
    /\ map Entry.id (r_entries r) = [2; 1].
Proof. eexists. split; [reflexivity|]. repeat split. Qed.

Lemma saldo_get_scale k a m :
  saldo_get k (saldo_scale a m) = saldo_get k a * m.
Proof. destruct k; reflexivity. Qed.

(** C5. An entry dated strictly between the base date and the start of the
    period adds its quantities times its multiplier to the starting balance
    in the iteration that visits it (as a float sum, and as numbers where
    the starting balance and the entry stay within 2^53), and to nothing
    else; the returned list holds exactly the entries of the period, so an
    entry of the catch-up zone is in neither.  Over the whole call, where
    the seed and the volume of the partner's entries stay within 2^53, the
    starting balance is the seed plus those contributions and the movement
    sums the entries of the period only. *)
Theorem catch_up_entries_fold_into_saldo_start db partner_id partner
  start_date end_date r :
  Partner_get db partner_id = Some partner ->
  calculate_saldo_and_sums db partner_id start_date end_date = Some r ->
  let seed := base_of (get_last_closure_before db partner_id start_date) in
  let base_date := snd seed in
  let all_entries := collect_partner_entries db partner in
  (forall st e d,
      Entry.datum e = Some d ->
      (base_date <?t d) = true -> (d <?t start_date) = true ->
      let st' := loop_body base_date start_date end_date st e in
      (forall k, saldo_get k (l_saldo_start st')
                 = fadd (saldo_get k (l_saldo_start st))
                     (fmul (saldo_get k (mengen e))
                        (mult_of (Entry.richtung e))))
      /\ (saldo_weight (l_saldo_start st) + weight e <= float_exact_max ->
          forall k, saldo_get k (l_saldo_start st')
                    = saldo_get k (l_saldo_start st)
                      + saldo_get k (mengen e) * mult_of (Entry.richtung e))
      /\ l_movement st' = l_movement st
      /\ l_sums_eingang st' = l_sums_eingang st
      /\ l_sums_ausgang st' = l_sums_ausgang st
      /\ l_entries_in_period st' = l_entries_in_period st)
  /\ (books_exact (fst seed) all_entries ->
      r_saldo_start r
      = saldo_add (fst seed)
          (saldo_sum (map contribution
             (filter (in_catch_up base_date start_date) all_entries)))
      /\ r_movement r
         = saldo_sum (map contribution
             (filter (in_period base_date start_date end_date) all_entries)))
  /\ Permutation (r_entries r)
       (filter (in_period base_date start_date end_date) all_entries)
  /\ (forall e d,
        Entry.datum e = Some d ->
        (base_date <?t d) = true -> (d <?t start_date) = true ->
        in_period base_date start_date end_date e = false
        /\ ~ In e (r_entries r)).
Proof.
  intros Hp Hr seed base_date all_entries.
  assert (Hzone : forall e d, Entry.datum e = Some d ->
            (base_date <?t d) = true -> (d <?t start_date) = true ->
            in_catch_up base_date start_date e = true).
  { intros e d Hd H1 H2. unfold in_catch_up. now rewrite Hd, H1, H2. }
  rewrite (calculate_saldo_and_sums_eq _ _ _ _ _ Hp) in Hr. cbv zeta in Hr.
  fold seed in Hr. fold base_date in Hr. fold all_entries in Hr.
  pose proof (loop_fold_entries base_date start_date end_date all_entries
                (mkloop (fst seed) saldo_zero saldo_zero saldo_zero []))
    as H3.
  cbn [l_entries_in_period app] in H3.
  injection Hr as <-. cbn [r_saldo_start r_movement r_entries].
  assert (Hperm : Permutation
            (sort_desc (l_entries_in_period
               (fold_left (loop_body base_date start_date end_date)
                  all_entries
                  (mkloop (fst seed) saldo_zero saldo_zero saldo_zero []))))
            (filter (in_period base_date start_date end_date) all_entries)).
  { rewrite H3. apply sort_desc_perm. }
  split; [|split; [|split]].
  - intros st e d Hd Hb Hs. cbv zeta.
    split; [|split].
    + rewrite (loop_body_catch_up_float _ _ _ _ _ (Hzone _ _ Hd Hb Hs)).
      cbn [l_saldo_start]. intros []; reflexivity.
    + intros Hw k.
      rewrite (loop_body_catch_up _ _ _ _ _ (Hzone _ _ Hd Hb Hs) Hw).
      cbn [l_saldo_start]. unfold contribution.
      now rewrite saldo_get_add, saldo_get_scale.
    + rewrite (loop_body_catch_up_float _ _ _ _ _ (Hzone _ _ Hd Hb Hs)).
      repeat split.
  - intros Hex.
    destruct (loop_fold base_date start_date end_date all_entries
                (mkloop (fst seed) saldo_zero saldo_zero saldo_zero []))
      as (H1 & H2 & _).
    { rewrite state_weight_seed. exact Hex. }
    cbn [l_saldo_start l_movement] in H1, H2.
    split; [exact H1|]. rewrite H2. saldo_arith.
  - exact Hperm.
  - intros e d Hd Hb Hs.
    pose proof (in_catch_up_not_in_period _ _ end_date _ (Hzone _ _ Hd Hb Hs))
      as Hn.
    split; [exact Hn|]. intros Hin.
    apply (Permutation_in _ Hperm) in Hin.
    apply filter_In in Hin as [_ Hin]. congruence.
Qed.

Lemma catch_up_entries_fold_into_saldo_start_witness :
  books_exact (fst (base_of (get_last_closure_before db_february 1
                               (at_time 2024 2 10 0 0))))
    (collect_partner_entries db_february (Partner.mk 1 "Spedition Nord"))
  /\ exists r,
       calculate_saldo_and_sums db_february 1
         (at_time 2024 2 10 0 0) (at_time 2024 2 20 0 0) = Some r
       /\ gb (r_saldo_start r) = -5 /\ r_movement r = saldo_zero
       /\ r_entries r = []
       /\ r_saldo_start r
          = saldo_add (mksaldo 6 0 0 0)
              (saldo_sum (map contribution
                 (filter (in_catch_up (last_second 2024 1)
                            (at_time 2024 2 10 0 0))
                    (collect_partner_entries db_february
                       (Partner.mk 1 "Spedition Nord"))))).
Proof.
  assert (Hb : books_exact
                 (fst (base_of (get_last_closure_before db_february 1
                                  (at_time 2024 2 10 0 0))))
                 (collect_partner_entries db_february
                    (Partner.mk 1 "Spedition Nord")))
    by (apply Z.leb_le; reflexivity).
  split; [exact Hb|].
  assert (Hr : calculate_saldo_and_sums db_february 1
                 (at_time 2024 2 10 0 0) (at_time 2024 2 20 0 0)
               = Some (mkresult [] (mksaldo 6 (-5) 0 0) saldo_zero
                         (mksaldo 6 (-5) 0 0) saldo_zero saldo_zero))
    by reflexivity.
  eexists. split; [exact Hr|].
  destruct (catch_up_entries_fold_into_saldo_start db_february 1
              (Partner.mk 1 "Spedition Nord")
              (at_time 2024 2 10 0 0) (at_time 2024 2 20 0 0) _
              eq_refl Hr) as (_ & Hex & _ & _).
  destruct (Hex Hb) as (Hs & _).
  cbn [r_saldo_start r_movement r_entries] in *.
  split; [reflexivity|]. split; [reflexivity|]. split; [reflexivity|].
  exact Hs.
Defined.

(* ================================================================== *)
(** ** String facts *)
(* ================================================================== *)

Lemma append_assoc (a b c : string) :
  ((a ++ b) ++ c)%string = (a ++ (b ++ c))%string.
Proof. induction a as [|x a IH]; simpl; [|rewrite IH]; reflexivity. Qed.

Lemma length_append (a b : string) :
  String.length (a ++ b) = (String.length a + String.length b)%nat.
Proof. induction a as [|x a IH]; simpl; [|rewrite IH]; reflexivity. Qed.

Lemma append_same_length_inv (p q a b : string) :
  String.length p = String.length q ->
  (p ++ a)%string = (q ++ b)%string -> p = q /\ a = b.
Proof.
  revert q. induction p as [|x p IH]; intros [|y q]; simpl; try discriminate.
  - auto.
  - intros [= Hl] [= -> H]. destruct (IH q Hl H) as [-> ->]. auto.
Qed.

Lemma prefix_append (p s : string) : String.prefix p (p ++ s) = true.
Proof.
  induction p as [|x p IH]; simpl.
  - now destruct s.
  - destruct (ascii_dec x x); [exact IH | congruence].
Qed.

Lemma prefix_inv (p s : string) :
  String.prefix p s = true -> exists r, s = (p ++ r)%string.
Proof.
  revert s. induction p as [|x p IH]; intros [|y s]; simpl;
    try discriminate; eauto.
  destruct (ascii_dec x y) as [->|]; [|discriminate].
  intros H. destruct (IH s H) as [r ->]. eauto.
Qed.

(** *** The reference-number check *)

Lemma search_digit_run_spec k s : forall run,
  (run < k)%nat ->
  search_digit_run k run s = true <->
  (exists r post, s = (r ++ post)%string /\ all_digits r = true
                  /\ (k <= run + String.length r)%nat)
  \/ contains_digit_run k s.
Proof.
  induction s as [|c s IH]; intros run Hrun; simpl.
  - split; [discriminate|].
    intros [(r & post & Hs & Hd & Hl) | (pre & r & post & Hs & Hl & Hd)].
    + destruct r; [simpl in Hl; lia | discriminate].
    + destruct pre; [|discriminate]. destruct r; [simpl in Hl; lia|discriminate].
  - destruct (isdigit c) eqn:Ec.
    + destruct (k <=? S run)%nat eqn:Ek.
      * apply Nat.leb_le in Ek. split; auto. intros _. left.
        exists (String c EmptyString), s. simpl. rewrite Ec. repeat split. lia.
      * apply Nat.leb_gt in Ek. rewrite (IH (S run) Ek). split.
        -- intros [(r & post & -> & Hd & Hl) | (pre & r & post & -> & Hl & Hd)].
           ++ left. exists (String c r), post. simpl. rewrite Ec, Hd.
              repeat split. lia.
           ++ right. exists (String c pre), r, post. auto.
        -- intros [(r & post & Hs & Hd & Hl) | (pre & r & post & Hs & Hl & Hd)].
           ++ destruct r as [|c' r]; [simpl in Hl; lia|].
              simpl in Hs, Hd, Hl. injection Hs as <- ->.
              apply andb_true_iff in Hd as [_ Hd].
              left. exists r, post. repeat split; auto. lia.
           ++ destruct pre as [|c' pre].
              ** destruct r as [|c' r]; [simpl in Hl; lia|].
                 simpl in Hs, Hd, Hl. injection Hs as <- ->.
                 apply andb_true_iff in Hd as [_ Hd].
                 left. exists r, post. repeat split; auto. lia.
              ** simpl in Hs. injection Hs as <- ->.
                 right. exists pre, r, post. auto.
    + rewrite (IH 0%nat) by lia. split.
      * intros [(r & post & -> & Hd & Hl) | (pre & r & post & -> & Hl & Hd)].
        -- right. exists (String c EmptyString), r, post. auto.
        -- right. exists (String c pre), r, post. auto.
      * intros [(r & post & Hs & Hd & Hl) | (pre & r & post & Hs & Hl & Hd)].
        -- destruct r as [|c' r]; [simpl in Hl; lia|].
           simpl in Hs, Hd. injection Hs as <- ->.
           apply andb_true_iff in Hd as [Hd _]. congruence.
        -- destruct pre as [|c' pre].
           ++ destruct r as [|c' r]; [simpl in Hl; lia|].
              simpl in Hs, Hd. injection Hs as <- ->.
           apply andb_true_iff in Hd as [Hd _]. congruence.
           ++ simpl in Hs. injection Hs as <- ->.
              right. exists pre, r, post. auto.
Qed.

(** The check of [new_entry] accepts exactly the comments that contain a
    run of at least four consecutive digits. *)
Lemma has_reference_number_iff kommentar :
  has_reference_number kommentar = true <-> contains_digit_run 4 kommentar.
Proof.
  unfold has_reference_number.
  rewrite (search_digit_run_spec 4 kommentar 0) by lia. split; auto.
  intros [(r & post & -> & Hd & Hl)|H]; auto.
  exists EmptyString, r, post. auto.
Qed.

Example reference_number_absent :
  has_reference_number "no numbers here" = false.
Proof. reflexivity. Qed.

Example reference_number_present : has_reference_number "ref 1234" = true.
Proof. reflexivity. Qed.

Example reference_number_short_runs :
  has_reference_number "123 456 789" = false.
Proof. reflexivity. Qed.

(** *** Number formatting *)

Lemma decimal_value_decimal n : decimal_value (decimal n) = Some n.
Proof.
  unfold decimal_value, decimal. rewrite NilEmpty.usu. simpl.
  now rewrite DecimalNat.Unsigned.of_to.
Qed.

Lemma decimal_value_zero s n :
  decimal_value s = Some n -> decimal_value (String "0" s) = Some n.
Proof.
  unfold decimal_value. simpl.
  destruct (NilEmpty.uint_of_string s) as [d|]; [|discriminate].
  simpl. intros [= <-]. reflexivity.
Qed.

Lemma decimal_value_zfill w n : decimal_value (zfill w (decimal n)) = Some n.
Proof.
  unfold zfill. induction (w - String.length (decimal n))%nat as [|k IH]; simpl.
  - apply decimal_value_decimal.
  - now apply decimal_value_zero.
Qed.

Lemma format_02d_nonneg n :
  0 <= n -> decimal_value (format_02d n) = Some (Z.to_nat n).
Proof.
  intros Hn. unfold format_02d.
  destruct (n <? 0) eqn:E; [apply Z.ltb_lt in E; lia|].
  apply decimal_value_zfill.
Qed.

Lemma format_02d_inj n m :
  0 <= n -> 0 <= m -> format_02d n = format_02d m -> n = m.
Proof.
  intros Hn Hm H. apply (f_equal decimal_value) in H.
  rewrite !format_02d_nonneg in H by assumption.
  injection H as H. lia.
Qed.

Example format_02d_1 : format_02d 1 = "01"%string.
Proof. reflexivity. Qed.

Example format_02d_2 : format_02d 2 = "02"%string.
Proof. reflexivity. Qed.

Example format_02d_100 : format_02d 100 = "100"%string.
Proof. reflexivity. Qed.

(** *** Date prefixes *)


Lemma strftime_Ymd_length now : String.length (strftime_Ymd now) = 8%nat.
Proof. reflexivity. Qed.



Example strftime_Ymd_sample :
  strftime_Ymd (at_time 2024 2 10 12 0) = "20240210"%string.
Proof. reflexivity. Qed.

(* ================================================================== *)
(** ** Entry recorder: what each handler does, case by case *)
(* ================================================================== *)

Section Recorder.

Variable py_int : string -> option Z.
Variable strptime_date : string -> option date.

Abbreviation new_entry := (new_entry py_int strptime_date).
Abbreviation correction_entry := (correction_entry py_int strptime_date).
Abbreviation new_entry_admitted := (new_entry_admitted py_int strptime_date).
Abbreviation correction_admitted := (correction_admitted py_int strptime_date).

Lemma unlocked_test db partner_id dt :
  unlocked db partner_id dt <->
  match last_closure db partner_id with
  | Some last_close => dt <=?t MonthClosure.period_end last_close
  | None => false
  end = false.
Proof.
  unfold unlocked. destruct (last_closure db partner_id) as [c|]; split; auto.
  - intros H c' [= <-]. exact H.
  - intros _ c [=].
Qed.

(** When the earlier checks pass, the direction and the reference number
    decide. *)
Lemma new_entry_admitted_eq now db partner_id form account entry_date menge :
  new_entry_admitted now db partner_id form account entry_date menge ->
  new_entry now db partner_id form
  = match richtung_db_of (richtung_raw form) with
    | None => (Flashed InvalidDirection, db)
    | Some richtung_db =>
        if String.eqb richtung_db "Ausgang"
           && negb (has_reference_number (kommentar form))
        then (Flashed MissingReferenceNumber, db)
        else (Redirected,
              add_entry db (new_entry_row now db form account entry_date
                              menge richtung_db))
    end.
Proof.
  intros (partner & Hp & Ha & Hd & Hl & Hm).
  unfold new_entry. rewrite Hp.
  destruct (partner_accounts db partner) as [|a l]; [discriminate|].
  injection Ha as ->. rewrite Hd.
  rewrite (Partner_get_id _ _ _ Hp).
  apply unlocked_test in Hl. rewrite Hl, Hm. reflexivity.
Qed.

(** A request that writes passed every check, and wrote one row. *)
Lemma new_entry_inv now db partner_id form r db' :
  new_entry now db partner_id form = (r, db') ->
  (r <> Redirected /\ db' = db)
  \/ exists account entry_date menge richtung_db,
       new_entry_admitted now db partner_id form account entry_date menge
       /\ richtung_db_of (richtung_raw form) = Some richtung_db
       /\ (richtung_db = "Ausgang"%string ->
           has_reference_number (kommentar form) = true)
       /\ r = Redirected
       /\ db' = add_entry db (new_entry_row now db form account entry_date
                                menge richtung_db).
Proof.
  unfold new_entry.
  destruct (Partner_get db partner_id) as [partner|] eqn:Hp;
    [|intros [= <- <-]; left; split; [discriminate|reflexivity]].
  destruct (partner_accounts db partner) as [|account l] eqn:Ha;
    [intros [= <- <-]; left; split; [discriminate|reflexivity]|].
  destruct (entry_date_of strptime_date now (datum_str form))
    as [entry_date|] eqn:Hd;
    [|intros [= <- <-]; left; split; [discriminate|reflexivity]].
  rewrite (Partner_get_id _ _ _ Hp).
  destruct (match last_closure db partner_id with
            | Some last_close =>
                entry_date <=?t MonthClosure.period_end last_close
            | None => false
            end) eqn:Hl;
    [intros [= <- <-]; left; split; [discriminate|reflexivity]|].
  destruct (py_int (menge_str form)) as [menge|] eqn:Hm;
    [|intros [= <- <-]; left; split; [discriminate|reflexivity]].
  destruct (richtung_db_of (richtung_raw form)) as [richtung_db|] eqn:Hr;
    [|intros [= <- <-]; left; split; [discriminate|reflexivity]].
  destruct (String.eqb richtung_db "Ausgang"
            && negb (has_reference_number (kommentar form))) eqn:Hk;
    [intros [= <- <-]; left; split; [discriminate|reflexivity]|].
  intros [= <- <-]. right. exists account, entry_date, menge, richtung_db.
  repeat split; auto.
  - exists partner. rewrite Ha. repeat split; auto.
    now apply unlocked_test.
  - intros ->. rewrite String.eqb_refl in Hk. simpl in Hk.
    now apply negb_false_iff in Hk.
Qed.

Lemma new_entry_db_cases now db partner_id form :
  snd (new_entry now db partner_id form) = db
  \/ exists e, new_entry now db partner_id form = (Redirected, add_entry db e).
Proof.
  destruct (new_entry now db partner_id form) as [r db'] eqn:E.
  destruct (new_entry_inv _ _ _ _ _ _ E)
    as [[_ ->] | (a & d & m & ri & _ & _ & _ & -> & ->)]; eauto.
Qed.

Lemma correction_lock_test db partner_id original :
  (forall c, last_closure db partner_id = Some c ->
     exists d, Entry.datum original = Some d
               /\ (d <=?t MonthClosure.period_end c) = false)
  <->
  match last_closure db partner_id with
  | Some last_close =>
      match Entry.datum original with
      | Some d => Some (d <=?t MonthClosure.period_end last_close)
      | None => None
      end
  | None => Some false
  end = Some false.
Proof.
  destruct (last_closure db partner_id) as [c|]; split.
  - intros H. destruct (H c eq_refl) as (d & -> & ->). reflexivity.
  - intros H c' [= <-]. destruct (Entry.datum original) as [d|];
      [|discriminate]. injection H as H. eauto.
  - reflexivity.
  - intros _ c [=].
Qed.

Lemma correction_admitted_eq now db partner_id form account entry_date
  original menge :
  correction_admitted now db partner_id form account entry_date original
    menge ->
  correction_entry now db partner_id form
  = (Redirected,
     add_entry db (correction_row db partner_id form account entry_date
                     original menge)).
Proof.
  intros (partner & Hp & Ha & Hb & Hk & Hd & Ho & Hl & Hm).
  unfold correction_entry. rewrite Hp.
  destruct (partner_accounts db partner) as [|a l]; [discriminate|].
  injection Ha as ->. cbv zeta.
  apply String.eqb_neq in Hb, Hk. rewrite Hb, Hk, Hd.
  rewrite (Partner_get_id _ _ _ Hp), Ho.
  apply correction_lock_test in Hl. rewrite Hl, Hm. reflexivity.
Qed.

Lemma correction_entry_inv now db partner_id form r db' :
  correction_entry now db partner_id form = (r, db') ->
  (r <> Redirected /\ db' = db)
  \/ exists account entry_date original menge,
       correction_admitted now db partner_id form account entry_date
         original menge
       /\ r = Redirected
       /\ db' = add_entry db (correction_row db partner_id form account
                                entry_date original menge).
Proof.
  unfold correction_entry.
  destruct (Partner_get db partner_id) as [partner|] eqn:Hp;
    [|intros [= <- <-]; left; split; [discriminate|reflexivity]].
  destruct (partner_accounts db partner) as [|account l] eqn:Ha;
    [intros [= <- <-]; left; split; [discriminate|reflexivity]|].
  cbv zeta.
  destruct (String.eqb (c_belegnummer form) "") eqn:Hb;
    [intros [= <- <-]; left; split; [discriminate|reflexivity]|].
  destruct (String.eqb (c_kommentar form) "") eqn:Hk;
    [intros [= <- <-]; left; split; [discriminate|reflexivity]|].
  destruct (entry_date_of strptime_date now (c_datum_str form))
    as [entry_date|] eqn:Hd;
    [|intros [= <- <-]; left; split; [discriminate|reflexivity]].
  rewrite (Partner_get_id _ _ _ Hp).
  destruct (find_original db partner_id (c_belegnummer form))
    as [original|] eqn:Ho;
    [|intros [= <- <-]; left; split; [discriminate|reflexivity]].
  destruct (match last_closure db partner_id with
            | Some last_close =>
                match Entry.datum original with
                | Some d => Some (d <=?t MonthClosure.period_end last_close)
                | None => None
                end
            | None => Some false
            end) as [[|]|] eqn:Hl;
    try (intros [= <- <-]; left; split; [discriminate|reflexivity]).
  destruct (py_int (c_menge_str form)) as [menge|] eqn:Hm;
    [|intros [= <- <-]; left; split; [discriminate|reflexivity]].
  intros [= <- <-]. right. exists account, entry_date, original, menge.
  repeat split; auto.
  exists partner. rewrite Ha. apply String.eqb_neq in Hb, Hk.
  repeat split; auto. now apply correction_lock_test.
Qed.

End Recorder.

(* ================================================================== *)
(** ** Entry recorder: validation order *)
(* ================================================================== *)

Lemma verteilung_unknown typ menge :
  (forall k, typ <> Some (typ_name k)) ->
  verteilung typ menge = mksaldo 0 0 0 0.
Proof.
  intros H. unfold verteilung, typ_is. destruct typ as [s|]; auto.
  destruct (String.eqb_spec s "EUP") as [->|_]; [now destruct (H EUP)|].
  destruct (String.eqb_spec s "GB") as [->|_]; [now destruct (H GB)|].
  destruct (String.eqb_spec s "TMB1") as [->|_]; [now destruct (H TMB1)|].
  destruct (String.eqb_spec s "TMB2") as [->|_]; [now destruct (H TMB2)|].
  reflexivity.
Qed.

Lemma verteilung_known k menge :
  saldo_get k (verteilung (Some (typ_name k)) menge) = menge.
Proof. destruct k; reflexivity. Qed.

Section Validation.

Variable py_int : string -> option Z.
Variable strptime_date : string -> option date.

Abbreviation new_entry := (new_entry py_int strptime_date).
Abbreviation correction_entry := (correction_entry py_int strptime_date).
Abbreviation new_entry_admitted := (new_entry_admitted py_int strptime_date).
Abbreviation correction_admitted := (correction_admitted py_int strptime_date).


(** C9, as the code has it.  A request whose direction is ASCII text
    that maps to neither [Eingang] nor [Ausgang] never writes.  It is
    answered with [InvalidDirection] exactly when the checks that come
    first (partner and account, date, closure lock, quantity) pass;
    otherwise the first of those checks that fails is reported: the
    missing partner or account, [InvalidDate], [ClosureLocked] for a date
    at or before the end of the partner's last closure, [InvalidQuantity]
    for a quantity that does not parse. *)
Theorem invalid_direction_rejected now db partner_id form :
  is_ascii (match richtung_raw form with
            | Some s => s
            | None => EmptyString
            end) = true ->
  richtung_db_of (richtung_raw form) = None ->
  snd (new_entry now db partner_id form) = db
  /\ fst (new_entry now db partner_id form) <> Redirected
  /\ (fst (new_entry now db partner_id form) = Flashed InvalidDirection
      <-> exists account entry_date menge,
            new_entry_admitted now db partner_id form account entry_date
              menge)
  /\ (Partner_get db partner_id = None ->
      new_entry now db partner_id form = (NotFound, db))
  /\ forall partner,
       Partner_get db partner_id = Some partner ->
       (partner_accounts db partner = [] ->
        new_entry now db partner_id form = (Flashed NoAccount, db))
       /\ (partner_accounts db partner <> [] ->
           (entry_date_of strptime_date now (datum_str form) = None ->
            new_entry now db partner_id form = (Flashed InvalidDate, db))
           /\ forall entry_date,
                entry_date_of strptime_date now (datum_str form)
                = Some entry_date ->
                ((exists c, last_closure db partner_id = Some c
                            /\ (entry_date <=?t MonthClosure.period_end c)
                               = true) ->
                 new_entry now db partner_id form
                 = (Flashed ClosureLocked, db))
                /\ (unlocked db partner_id entry_date ->
                    (py_int (menge_str form) = None ->
                     new_entry now db partner_id form
                     = (Flashed InvalidQuantity, db))
                    /\ (py_int (menge_str form) <> None ->
                        new_entry now db partner_id form
                        = (Flashed InvalidDirection, db)))).
Proof.
  intros _ Hr.
  destruct (new_entry now db partner_id form) as [r db'] eqn:E.
  assert (H : r <> Redirected /\ db' = db).
  { destruct (new_entry_inv _ _ _ _ _ _ _ _ E)
      as [H | (a & d & m & ri & _ & Hri & _)]; auto. congruence. }
  destruct H as [Hne ->]. cbn [fst snd].
  split; [reflexivity|]. split; [exact Hne|]. split; [split|].
  - intros ->. revert E. unfold new_entry.
    destruct (Partner_get db partner_id) as [partner|] eqn:Hp;
      [|discriminate].
    destruct (partner_accounts db partner) as [|account l] eqn:Ha;
      [discriminate|].
    destruct (entry_date_of strptime_date now (datum_str form))
      as [entry_date|] eqn:Hd; [|discriminate].
    rewrite (Partner_get_id _ _ _ Hp).
    destruct (match last_closure db partner_id with
              | Some last_close =>
                  entry_date <=?t MonthClosure.period_end last_close
              | None => false
              end) eqn:Hl; [discriminate|].
    destruct (py_int (menge_str form)) as [menge|] eqn:Hm; [|discriminate].
    intros _. exists account, entry_date, menge, partner.
    rewrite Ha. repeat split; auto.
    now apply (unlocked_test db partner_id entry_date).
  - intros (account & entry_date & menge & Hadm).
    rewrite (new_entry_admitted_eq _ _ _ _ _ _ _ _ _ Hadm), Hr in E.
    congruence.
  - rewrite <- E. clear E Hne r. unfold new_entry. split.
    + intros ->. reflexivity.
    + intros partner Hp. rewrite Hp, (Partner_get_id _ _ _ Hp). split.
      * intros ->. reflexivity.
      * intros Ha.
        destruct (partner_accounts db partner) as [|account l];
          [contradiction|].
        split; [intros ->; reflexivity|].
        intros entry_date ->. split.
        -- intros (c & -> & ->). reflexivity.
        -- intros Hu. apply unlocked_test in Hu. rewrite Hu. split.
           ++ intros ->. reflexivity.
           ++ intros Hm.
              destruct (py_int (menge_str form)); [|contradiction].
              now rewrite Hr.
Qed.

(** C10.  A request that passes every check but names a category outside
    EUP, GB, TMB1 and TMB2 is answered like any other accepted request,
    and the row it writes has 0 in all four quantity columns: in
    [new_entry] and in [correction_entry]. *)
Theorem unknown_category_books_zero now db partner_id :
  (forall form account entry_date menge richtung_db,
      (forall k, typ form <> Some (typ_name k)) ->
      new_entry_admitted now db partner_id form account entry_date menge ->
      richtung_db_of (richtung_raw form) = Some richtung_db ->
      (richtung_db = "Ausgang"%string ->
       contains_digit_run 4 (kommentar form)) ->
      exists e,
        new_entry now db partner_id form = (Redirected, add_entry db e)
        /\ Entry.menge_eup e = Some 0 /\ Entry.menge_gb e = Some 0
        /\ Entry.menge_tmb1 e = Some 0 /\ Entry.menge_tmb2 e = Some 0)
  /\ (forall form account entry_date original menge,
        (forall k, c_typ form <> Some (typ_name k)) ->
        correction_admitted now db partner_id form account entry_date
          original menge ->
        exists e,
          correction_entry now db partner_id form
          = (Redirected, add_entry db e)
          /\ Entry.menge_eup e = Some 0 /\ Entry.menge_gb e = Some 0
          /\ Entry.menge_tmb1 e = Some 0 /\ Entry.menge_tmb2 e = Some 0).
Proof.
  split.
  - intros form account entry_date menge richtung_db Ht Hadm Hr Href.
    rewrite (new_entry_admitted_eq _ _ _ _ _ _ _ _ _ Hadm), Hr.
    assert (Hk : String.eqb richtung_db "Ausgang"
                 && negb (has_reference_number (kommentar form)) = false).
    { destruct (String.eqb_spec richtung_db "Ausgang") as [E|E]; auto.
      apply Href, has_reference_number_iff in E. now rewrite E. }
    rewrite Hk. eexists. split; [reflexivity|].
    unfold new_entry_row. cbv zeta. rewrite (verteilung_unknown _ _ Ht).
    repeat split.
  - intros form account entry_date original menge Ht Hadm.
    rewrite (correction_admitted_eq _ _ _ _ _ _ _ _ _ _ Hadm).
    eexists. split; [reflexivity|].
    unfold correction_row. cbv zeta. rewrite (verteilung_unknown _ _ Ht).
    repeat split.
Qed.

End Validation.

(** *** The validations on sample requests *)





Lemma invalid_direction_rejected_witness :
  new_entry parse_int parse_iso_date noon_10_feb db_february 1
    form_bad_direction
  = (Flashed InvalidDirection, db_february)
  /\ new_entry parse_int parse_iso_date noon_10_feb db_february 1
       form_bad_direction_locked
     = (Flashed ClosureLocked, db_february).
Proof.
  split.
  - destruct (invalid_direction_rejected parse_int parse_iso_date
                noon_10_feb db_february 1 form_bad_direction
                eq_refl eq_refl) as (Hdb & _ & Hf & _).
    destruct (new_entry parse_int parse_iso_date noon_10_feb db_february 1
                form_bad_direction) as [r db'] eqn:E.
    cbn [fst snd] in Hdb, Hf. subst db'. f_equal. apply Hf.
    exists (Account.mk 1 1), (at_time 2024 2 10 12 0), 4,
           (Partner.mk 1 "Spedition Nord").
    repeat split; auto. intros c [= <-]. reflexivity.
  - destruct (invalid_direction_rejected parse_int parse_iso_date
                noon_10_feb db_february 1 form_bad_direction_locked
                eq_refl eq_refl) as (_ & _ & _ & _ & H).
    destruct (H (Partner.mk 1 "Spedition Nord") eq_refl) as (_ & H').
    destruct H' as (_ & H'); [discriminate|].
    destruct (H' (at_time 2024 1 15 12 0) eq_refl) as (Hl & _).
    apply Hl. eexists. split; reflexivity.
Defined.

(** A request with an unknown direction and a date inside the closed month
    is answered with [ClosureLocked]. *)
Lemma invalid_direction_locked_date :
  richtung_db_of (richtung_raw form_bad_direction_locked) = None
  /\ new_entry parse_int parse_iso_date noon_10_feb db_february 1
       form_bad_direction_locked
     = (Flashed ClosureLocked, db_february)
  /\ fst (new_entry parse_int parse_iso_date noon_10_feb db_february 1
            form_bad_direction_locked)
     <> Flashed InvalidDirection.
Proof. repeat split. discriminate. Qed.

Lemma unknown_category_books_zero_witness :
  (exists e,
     new_entry parse_int parse_iso_date noon_10_feb db_february 1
       form_in_unknown_typ
     = (Redirected, add_entry db_february e)
     /\ mengen e = saldo_zero)
  /\ (exists e,
        correction_entry parse_int parse_iso_date noon_10_feb db_february 1
          form_correction_unknown_typ
        = (Redirected, add_entry db_february e)
        /\ mengen e = saldo_zero).
Proof.
  assert (Hu : forall k, Some "H1"%string <> Some (typ_name k))
    by (intros []; discriminate).
  destruct (unknown_category_books_zero parse_int parse_iso_date noon_10_feb
              db_february 1) as [H1 H2].
  split.
  - destruct (H1 form_in_unknown_typ (Account.mk 1 1)
                (at_time 2024 2 10 12 0) 7 "Eingang"%string Hu)
      as (e & He & E1 & E2 & E3 & E4).
    + exists (Partner.mk 1 "Spedition Nord").
      repeat split; auto. intros c [= <-]. reflexivity.
    + reflexivity.
    + discriminate.
    + exists e. split; [exact He|]. unfold mengen.
      now rewrite E1, E2, E3, E4.
  - destruct (H2 form_correction_unknown_typ (Account.mk 1 1)
                (at_time 2024 2 10 12 0)
                (sample_entry 3 "2024020501" (at_time 2024 2 5 9 0) "Ausgang"
                   (mksaldo 0 5 0 0) "inv-4471" 0) 2 Hu)
      as (e & He & E1 & E2 & E3 & E4).
    + exists (Partner.mk 1 "Spedition Nord").
      repeat split; auto; try discriminate.
      intros c [= <-]. eexists. split; reflexivity.
    + exists e. split; [exact He|]. unfold mengen.
      now rewrite E1, E2, E3, E4.
Defined.

(* ================================================================== *)
(** ** Entry recorder: voucher numbers *)
(* ================================================================== *)

Lemma add_entry_inj db e e' : add_entry db e = add_entry db e' -> e = e'.
Proof.
  unfold add_entry. intros [= H]. now apply app_inj_tail in H as [_ H].
Qed.

Lemma count_like_nonneg p rows : 0 <= count_like p rows.
Proof. unfold count_like. lia. Qed.

Lemma count_like_app p rows e :
  count_like p (rows ++ [e])
  = count_like p rows
    + (if like_prefix p (Entry.belegnummer e) then 1 else 0).
Proof.
  unfold count_like. rewrite filter_app, length_app. simpl.
  destruct (like_prefix p (Entry.belegnummer e)); simpl; lia.
Qed.

Lemma count_like_zero p rows :
  count_like p rows = 0 <->
  forall e, In e rows -> like_prefix p (Entry.belegnummer e) = false.
Proof.
  unfold count_like. split.
  - intros H e He.
    destruct (like_prefix p (Entry.belegnummer e)) eqn:E; auto.
    assert (Hin : In e (filter (fun e => like_prefix p (Entry.belegnummer e))
                           rows)) by (apply filter_In; auto).
    destruct (filter _ rows); [destruct Hin | simpl in H; lia].
  - intros H. induction rows as [|e rows IH]; auto. simpl.
    rewrite (H e) by (left; auto). apply IH. intros. apply H. now right.
Qed.

Lemma count_like_mono p rows e :
  count_like p rows <= count_like p (rows ++ [e]).
Proof.
  rewrite count_like_app. destruct (like_prefix p (Entry.belegnummer e)); lia.
Qed.

Section Belegnummer.

Variable py_int : string -> option Z.
Variable strptime_date : string -> option date.

Abbreviation new_entry := (new_entry py_int strptime_date).
Abbreviation correction_entry := (correction_entry py_int strptime_date).
Abbreviation recorder_step := (recorder_step py_int strptime_date).
Abbreviation recorder_run := (recorder_run py_int strptime_date).




End Belegnummer.



(* ================================================================== *)
(** ** Entry recorder: the closure lock *)
(* ================================================================== *)

Lemma unlocked_all_closures db partner_id dt c :
  unlocked db partner_id dt ->
  In c (month_closures db) -> MonthClosure.partner_id c = partner_id ->
  (dt <=?t MonthClosure.period_end c) = false.
Proof.
  intros Hu Hc Hp.
  assert (Hin : In c (filter (fun c => MonthClosure.partner_id c =? partner_id)
                        (month_closures db))).
  { apply filter_In. split; auto. now apply Z.eqb_eq. }
  destruct (first_desc_Some closure_later _ _ Hin) as [c0 Hc0].
  fold (last_closure db partner_id) in Hc0.
  pose proof (Hu c0 Hc0) as Hlt.
  destruct (last_closure_spec _ _ _ Hc0) as (_ & _ & Hmax).
  specialize (Hmax c Hc Hp).
  destruct (dt <=?t MonthClosure.period_end c) eqn:E; auto.
  now rewrite (dt_leb_trans _ _ _ E Hmax) in Hlt.
Qed.

Section Lock.

Variable py_int : string -> option Z.
Variable strptime_date : string -> option date.

Abbreviation new_entry := (new_entry py_int strptime_date).
Abbreviation correction_entry := (correction_entry py_int strptime_date).

(** [new_entry] never writes a row dated at or before the end of any of
    the partner's closures. *)
Lemma new_entry_respects_lock now db partner_id form db' :
  new_entry now db partner_id form = (Redirected, db') ->
  exists e d,
    db' = add_entry db e /\ Entry.datum e = Some d
    /\ (exists user_date, d = combine user_date (time_of now))
    /\ forall c, In c (month_closures db) ->
                 MonthClosure.partner_id c = partner_id ->
                 (d <=?t MonthClosure.period_end c) = false.
Proof.
  intros H.
  destruct (new_entry_inv _ _ _ _ _ _ _ _ H)
    as [[Hne _] | (a & d & m & ri & Hadm & _ & _ & _ & ->)]; [congruence|].
  destruct Hadm as (p & _ & _ & Hd & Hl & _).
  exists (new_entry_row now db form a d m ri), d. repeat split; auto.
  - unfold entry_date_of in Hd.
    destruct (strptime_date _) as [ud|]; [|discriminate].
    injection Hd as <-. eauto.
  - intros c Hc Hp. eapply unlocked_all_closures; eauto.
Qed.

(** [correction_entry] never writes a correction to a booking dated at or
    before the end of any of the partner's closures. *)
Lemma correction_entry_checks_original now db partner_id form db' :
  correction_entry now db partner_id form = (Redirected, db') ->
  exists original,
    find_original db partner_id (c_belegnummer form) = Some original
    /\ forall c, In c (month_closures db) ->
                 MonthClosure.partner_id c = partner_id ->
                 exists d0, Entry.datum original = Some d0
                            /\ (d0 <=?t MonthClosure.period_end c) = false.
Proof.
  intros H.
  destruct (correction_entry_inv _ _ _ _ _ _ _ _ H)
    as [[Hne _] | (a & d & o & m & Hadm & _ & _)]; [congruence|].
  destruct Hadm as (p & _ & _ & _ & _ & _ & Ho & Hl & _).
  exists o. split; auto. intros c Hc Hp.
  assert (Hin : In c (filter (fun c => MonthClosure.partner_id c =? partner_id)
                        (month_closures db))).
  { apply filter_In. split; auto. now apply Z.eqb_eq. }
  destruct (first_desc_Some closure_later _ _ Hin) as [c0 Hc0].
  fold (last_closure db partner_id) in Hc0.
  destruct (Hl c0 Hc0) as (d0 & Hd0 & Hlt). exists d0. split; auto.
  destruct (last_closure_spec _ _ _ Hc0) as (_ & _ & Hmax).
  specialize (Hmax c Hc Hp).
  destruct (d0 <=?t MonthClosure.period_end c) eqn:E; auto.
  now rewrite (dt_leb_trans _ _ _ E Hmax) in Hlt.
Qed.

End Lock.

(** C1, at the input where the code departs from it.  January 2024 is
    closed and the booking 2024020501 is dated 5 February.  A correction to
    it posted with the date 15 January is written with the timestamp
    15 January, inside the closed month; the balance of February, seeded
    from the closure, is the same with and without that row. *)
Theorem correction_entry_backdates_into_closed_month :
  exists e c r,
    correction_entry parse_int parse_iso_date noon_10_feb db_february 1
      form_correction_backdated
    = (Redirected, add_entry db_february e)
    /\ last_closure db_february 1 = Some c
    /\ MonthClosure.period_end c = last_second 2024 1
    /\ Entry.datum e
       = Some (combine (mkdate 2024 1 15) (time_of noon_10_feb))
    /\ (combine (mkdate 2024 1 15) (time_of noon_10_feb)
        <=?t MonthClosure.period_end c) = true
    /\ saldo_get GB (mengen e) = 2
    /\ calculate_saldo_and_sums (add_entry db_february e) 1
         (at_time 2024 2 1 0 0) (last_second 2024 2) = Some r
    /\ calculate_saldo_and_sums db_february 1
         (at_time 2024 2 1 0 0) (last_second 2024 2) = Some r.
Proof. do 3 eexists. repeat split. Qed.

(** Scenario B, second half: a booking dated inside the closed January. *)
Example scenario_B_locked :
  new_entry parse_int parse_iso_date noon_10_feb db_february 1
    (mkentry_form (Some "EIN"%string) (Some "EUP"%string) "3" "" "2024-01-20")
  = (Flashed ClosureLocked, db_february).
Proof. reflexivity. Qed.

(* ================================================================== *)
(** ** Corrections: the sign rule *)
(* ================================================================== *)

Lemma state_weight_balance st :
  saldo_weight (l_saldo_start st) + saldo_weight (l_movement st)
  <= state_weight st.
Proof. unfold state_weight. lia. Qed.

Lemma l_saldo_end_exact st :
  state_weight st <= float_exact_max ->
  l_saldo_end st = saldo_add (l_saldo_start st) (l_movement st).
Proof.
  intros H. unfold l_saldo_end. apply saldo_fadd_exact.
  pose proof (state_weight_balance st). lia.
Qed.

Lemma loop_body_counted base_date start_date end_date st e :
  in_catch_up base_date start_date e
  || in_period base_date start_date end_date e = true ->
  state_weight st + weight e <= float_exact_max ->
  l_saldo_end (loop_body base_date start_date end_date st e)
  = saldo_add (l_saldo_end st) (contribution e).
Proof.
  intros H Hb. pose proof (weight_nonneg e) as Hw.
  pose proof (loop_body_weight base_date start_date end_date st e Hb) as Hw'.
  pose proof (state_weight_balance st) as Hs.
  pose proof (saldo_weight_nonneg (l_movement st)) as Hm.
  rewrite !l_saldo_end_exact by lia.
  destruct (in_catch_up base_date start_date e) eqn:Ec.
  - rewrite (loop_body_catch_up _ _ end_date st _ Ec) by lia.
    cbn [l_saldo_start l_movement]. saldo_arith.
  - simpl in H. rewrite (loop_body_in_period _ _ _ st _ H) by lia.
    cbn [l_saldo_start l_movement]. saldo_arith.
Qed.

Lemma find_original_richtung db partner_id belegnummer original :
  find_original db partner_id belegnummer = Some original ->
  (Entry.richtung original = "Eingang"%string
   \/ Entry.richtung original = "Ausgang"%string)
  /\ Entry.belegnummer original = belegnummer
  /\ entry_of_partner db partner_id original = true
  /\ In original (entries db).
Proof.
  unfold find_original. intros H. apply first_desc_In in H.
  apply filter_In in H as [H Hr]. apply filter_In in H as [H Hb].
  apply filter_In in H as [H Hp]. apply String.eqb_eq in Hb.
  repeat split; auto.
  apply orb_true_iff in Hr as [Hr|Hr]; apply String.eqb_eq in Hr; auto.
Qed.

Section Sign.

Variable py_int : string -> option Z.
Variable strptime_date : string -> option date.

Abbreviation correction_entry := (correction_entry py_int strptime_date).

(** C4.  A correction of quantity [C] in category [k] against a booking
    whose stored quantity in [k] is [Q] is stored as [Korrektur] with
    quantity [+C] when the booking is an [Ausgang] and [-C] when it is an
    [Eingang]; the calculator multiplies it by [+1].  Where the running
    balance and the two rows stay within 2^53, so that no float is
    rounded, the two rows together add [-Q + C], respectively [+Q - C],
    to the running balance of [k] in any run of the loop that counts
    both. *)
Theorem correction_sign_rule now db partner_id form db' k :
  correction_entry now db partner_id form = (Redirected, db') ->
  c_typ form = Some (typ_name k) ->
  exists original e C,
    find_original db partner_id (c_belegnummer form) = Some original
    /\ py_int (c_menge_str form) = Some C
    /\ db' = add_entry db e
    /\ Entry.richtung e = "Korrektur"%string
    /\ mult_of (Entry.richtung e) = 1
    /\ weight e = Z.abs C
    /\ (Entry.richtung original = "Ausgang"%string ->
        saldo_get k (quantities e) = C)
    /\ (Entry.richtung original = "Eingang"%string ->
        saldo_get k (quantities e) = - C)
    /\ let Q := saldo_get k (quantities original) in
       let net := saldo_get k (contribution original)
                  + saldo_get k (contribution e) in
       (weight original <= float_exact_max ->
        weight e <= float_exact_max ->
        (Entry.richtung original = "Ausgang"%string ->
         saldo_get k (mengen e) = C /\ net = - Q + C)
        /\ (Entry.richtung original = "Eingang"%string ->
            saldo_get k (mengen e) = - C /\ net = Q - C))
       /\ forall base_date start_date end_date st,
            state_weight st + weight original + weight e
            <= float_exact_max ->
            in_catch_up base_date start_date original
            || in_period base_date start_date end_date original = true ->
            in_catch_up base_date start_date e
            || in_period base_date start_date end_date e = true ->
            saldo_get k
              (l_saldo_end
                 (loop_body base_date start_date end_date
                    (loop_body base_date start_date end_date st original) e))
            = saldo_get k (l_saldo_end st) + net.
Proof.
  intros H Ht.
  destruct (correction_entry_inv _ _ _ _ _ _ _ _ H)
    as [[Hne _] | (a & d & o & C & Hadm & _ & ->)]; [congruence|].
  pose proof Hadm as (p & _ & _ & _ & _ & _ & Ho & _ & Hm).
  exists o, (correction_row db partner_id form a d o C), C.
  split; [exact Ho|]. split; [exact Hm|]. split; [reflexivity|].
  split; [reflexivity|]. split; [reflexivity|].
  set (e := correction_row db partner_id form a d o C).
  set (q := if String.eqb (Entry.richtung o) "Ausgang" then C else - C).
  assert (Hqe : quantities e = verteilung (Some (typ_name k)) q).
  { unfold e, correction_row, quantities.
    cbn [Entry.menge_eup Entry.menge_gb Entry.menge_tmb1 Entry.menge_tmb2
         int_or0].
    rewrite Ht. fold q. now destruct (verteilung (Some (typ_name k)) q). }
  assert (Hq : saldo_get k (quantities e) = q).
  { rewrite Hqe. apply verteilung_known. }
  assert (Hwe : weight e = Z.abs C).
  { unfold weight. rewrite Hqe. unfold q.
    destruct (String.eqb (Entry.richtung o) "Ausgang"), k;
      unfold saldo_weight; cbn; lia. }
  split; [exact Hwe|].
  split; [intros Hr; rewrite Hq; unfold q; now rewrite Hr|].
  split; [intros Hr; rewrite Hq; unfold q; now rewrite Hr|].
  cbv zeta.
  assert (Hce : saldo_get k (contribution e) = saldo_get k (mengen e)).
  { unfold contribution. rewrite saldo_get_scale.
    change (mult_of (Entry.richtung e)) with 1. lia. }
  assert (Hco : saldo_get k (contribution o)
                = saldo_get k (mengen o) * mult_of (Entry.richtung o)).
  { unfold contribution. now rewrite saldo_get_scale. }
  split.
  - intros Hwo Hw. rewrite Hce, Hco, (mengen_exact e Hw), (mengen_exact o Hwo),
      Hq. unfold q. split.
    + intros Hr. rewrite Hr.
      change (String.eqb "Ausgang" "Ausgang") with true.
      change (mult_of "Ausgang") with (-1). cbv iota. split; lia.
    + intros Hr. rewrite Hr.
      change (String.eqb "Eingang" "Ausgang") with false.
      change (mult_of "Eingang") with 1. cbv iota. split; lia.
  - intros base_date start_date end_date st Hb H1 H2.
    pose proof (weight_nonneg o). pose proof (weight_nonneg e).
    pose proof (loop_body_weight base_date start_date end_date st o
                  ltac:(lia)) as Hstep.
    rewrite (loop_body_counted _ _ _ _ _ H2) by lia.
    rewrite (loop_body_counted _ _ _ _ _ H1) by lia.
    rewrite !saldo_get_add. lia.
Qed.

End Sign.

(** Scenario C: 5 GB out under 2024020501, then a correction of 2 GB. *)
Lemma correction_sign_rule_witness :
  exists original e,
    find_original db_february 1 "2024020501" = Some original
    /\ correction_entry parse_int parse_iso_date noon_10_feb db_february 1
         form_correction_gb
       = (Redirected, add_entry db_february e)
    /\ Entry.menge_gb e = Some 2
    /\ saldo_get GB (contribution original) + saldo_get GB (contribution e)
       = - 5 + 2.
Proof.
  assert (H : correction_entry parse_int parse_iso_date noon_10_feb
                db_february 1 form_correction_gb
              = (Redirected,
                 add_entry db_february
                   (correction_row db_february 1 form_correction_gb
                      (Account.mk 1 1) (at_time 2024 2 10 12 0)
                      (sample_entry 3 "2024020501" (at_time 2024 2 5 9 0)
                         "Ausgang" (mksaldo 0 5 0 0) "inv-4471" 0) 2)))
    by reflexivity.
  destruct (correction_sign_rule parse_int parse_iso_date _ _ _ _ _ GB
              H eq_refl)
    as (o & e & C & Ho & HC & He & _ & _ & _ & _ & _ & Hnet & _).
  apply add_entry_inj in He. subst e.
  exists o. eexists. split; [exact Ho|]. split; [exact H|].
  split; [reflexivity|].
  assert (Eo : find_original db_february 1 "2024020501"
               = Some (sample_entry 3 "2024020501" (at_time 2024 2 5 9 0)
                         "Ausgang" (mksaldo 0 5 0 0) "inv-4471" 0))
    by reflexivity.
  change (c_belegnummer form_correction_gb) with "2024020501"%string in Ho.
  rewrite Eo in Ho. injection Ho as <-.
  injection HC as <-.
  destruct Hnet as [Hout _]; [apply Z.leb_le; reflexivity ..|].
  exact (proj2 (Hout eq_refl)).
Defined.

Example scenario_C_balance :
  exists e r,
    correction_entry parse_int parse_iso_date noon_10_feb db_february 1
      form_correction_gb
    = (Redirected, add_entry db_february e)
    /\ calculate_saldo_and_sums (add_entry db_february e) 1
         (at_time 2024 2 1 0 0) (last_second 2024 2) = Some r
    /\ r_saldo_end r = mksaldo 6 (-3) 0 0.
Proof. do 2 eexists. repeat split. Qed.

(* ================================================================== *)
(** ** Closure manager *)
(* ================================================================== *)

Lemma existing_closure_Some db partner_id y m :
  (exists c, In c (month_closures db)
             /\ MonthClosure.partner_id c = partner_id
             /\ MonthClosure.year c = y /\ MonthClosure.month c = m)
  <-> exists c, existing_closure db partner_id y m = Some c.
Proof.
  unfold existing_closure. split.
  - intros (c & Hc & Hp & Hy & Hm).
    destruct (find _ (month_closures db)) as [c'|] eqn:E; eauto.
    apply (find_none _ _ E) in Hc. subst.
    now rewrite !Z.eqb_refl in Hc.
  - intros (c & Hc). apply find_some in Hc as [Hin Hc].
    apply andb_true_iff in Hc as [Hc Hm]. apply andb_true_iff in Hc as [Hp Hy].
    apply Z.eqb_eq in Hp, Hy, Hm. eauto.
Qed.

Lemma new_date_first y m :
  1 <= y <= 9999 -> 1 <= m <= 12 -> new_date y m 1 = Some (mkdate y m 1).
Proof.
  intros Hy Hm. pose proof (new_datetime_first y m Hy Hm) as H.
  unfold new_datetime in H. destruct (new_date y m 1) as [d|]; [|discriminate].
  injection H as ->. reflexivity.
Qed.

(** X19.  For an existing partner: when a closure for (partner, year,
    month) exists, [close_month] answers [DuplicateClosure] and writes
    nothing.  Otherwise, for a calendar month from January of year 1 to
    November of year 9999, it appends exactly one closure for (partner,
    year, month) whose [period_end] is the last second of that month and
    whose four balances are the ending balances the calculator returns
    from [datetime.min] up to that [period_end]. *)
Theorem close_month_spec utcnow db partner_id partner y m :
  Partner_get db partner_id = Some partner ->
  ((exists c, In c (month_closures db)
              /\ MonthClosure.partner_id c = partner_id
              /\ MonthClosure.year c = y /\ MonthClosure.month c = m) ->
   close_month utcnow db partner_id y m = (Flashed DuplicateClosure, db))
  /\ (~ (exists c, In c (month_closures db)
                   /\ MonthClosure.partner_id c = partner_id
                   /\ MonthClosure.year c = y /\ MonthClosure.month c = m) ->
      1 <= y <= 9999 -> 1 <= m <= 12 -> ~ (y = 9999 /\ m = 12) ->
      exists c r,
        close_month utcnow db partner_id y m = (Redirected, add_closure db c)
        /\ month_closures (add_closure db c) = month_closures db ++ [c]
        /\ entries (add_closure db c) = entries db
        /\ MonthClosure.partner_id c = partner_id
        /\ MonthClosure.year c = y /\ MonthClosure.month c = m
        /\ MonthClosure.period_end c = last_second y m
        /\ calculate_saldo_and_sums db partner_id datetime_min
             (last_second y m) = Some r
        /\ MonthClosure.saldo_eup c = Some (eup (r_saldo_end r))
        /\ MonthClosure.saldo_gb c = Some (gb (r_saldo_end r))
        /\ MonthClosure.saldo_tmb1 c = Some (tmb1 (r_saldo_end r))
        /\ MonthClosure.saldo_tmb2 c = Some (tmb2 (r_saldo_end r))).
Proof.
  intros Hp. split.
  - intros H. apply existing_closure_Some in H as [c Hc].
    unfold close_month. now rewrite Hp, Hc.
  - intros Hno Hy Hm Hne.
    assert (Hex : existing_closure db partner_id y m = None).
    { destruct (existing_closure db partner_id y m) eqn:E; auto.
      destruct Hno. apply existing_closure_Some. eauto. }
    unfold close_month. rewrite Hp, Hex, (new_date_first y m Hy Hm).
    rewrite (month_range_last_second y m Hy Hm Hne).
    rewrite (calculate_saldo_and_sums_eq _ _ _ _ _ Hp). cbv zeta.
    do 2 eexists. split; [reflexivity|]. repeat split.
Qed.

(** Scenario B, first half: closing January 2024. *)
Lemma close_month_spec_witness :
  exists c,
    close_month (at_time 2024 2 1 8 0) db_january 1 2024 1
    = (Redirected, add_closure db_january c)
    /\ MonthClosure.saldo_eup c = Some 6
    /\ MonthClosure.period_end c
       = combine (mkdate 2024 1 31) (mktime 23 59 59 0).
Proof.
  destruct (close_month_spec (at_time 2024 2 1 8 0) db_january 1
              (Partner.mk 1 "Spedition Nord") 2024 1 eq_refl) as [_ H].
  destruct H as (c & r & Hc & _ & _ & _ & _ & _ & Hpe & Hr & He & _);
    try lia.
  - intros (c & [] & _).
  - exists c. split; [exact Hc|]. rewrite He, Hpe.
    vm_compute in Hr. injection Hr as <-. split; reflexivity.
Defined.

(** C3, at the input where the code departs from it.  December 9999 is a
    calendar month whose last second, 9999-12-31 23:59:59, is a
    [datetime]; the partner exists and has no closure for it.
    [month_range] reaches that second through the first day of the
    following month, which is not a [datetime], and raises; [close_month]
    dies with it and writes no closure. *)
Theorem close_month_december_9999 :
  Partner_get db_january 1 = Some (Partner.mk 1 "Spedition Nord")
  /\ existing_closure db_january 1 9999 12 = None
  /\ new_date 9999 12 1 = Some (mkdate 9999 12 1)
  /\ valid_datetime (last_second 9999 12) = true
  /\ last_second 9999 12 = combine (mkdate 9999 12 31) (mktime 23 59 59 0)
  /\ new_datetime 10000 1 1 = None
  /\ month_range (mkdate 9999 12 1) = None
  /\ close_month (at_time 2024 2 1 8 0) db_january 1 9999 12
     = (Raised, db_january)
  /\ ~ (exists c,
          snd (close_month (at_time 2024 2 1 8 0) db_january 1 9999 12)
          = add_closure db_january c).
Proof.
  repeat split. intros (c & H). vm_compute in H.
  discriminate H.
Qed.

(* ================================================================== *)
(** ** Entry recorder: sequence numbers *)
(* ================================================================== *)

Lemma zrange_S n : zrange (S n) = zrange n ++ [Z.of_nat n].
Proof. unfold zrange. now rewrite seq_S, map_app. Qed.

Lemma zrange_In n x : In x (zrange n) <-> 0 <= x < Z.of_nat n.
Proof.
  unfold zrange. rewrite in_map_iff. split.
  - intros (k & <- & Hk). apply in_seq in Hk. lia.
  - intros Hx. exists (Z.to_nat x). split; [lia|]. apply in_seq. lia.
Qed.

Lemma beleg_group_app b rows e :
  beleg_group b (rows ++ [e])
  = beleg_group b rows
    ++ (if String.eqb (Entry.belegnummer e) b then [e] else []).
Proof. unfold beleg_group. now rewrite filter_app. Qed.

Lemma beleg_group_In b rows e :
  In e (beleg_group b rows) <-> In e rows /\ Entry.belegnummer e = b.
Proof.
  unfold beleg_group. rewrite filter_In, String.eqb_eq. reflexivity.
Qed.

Lemma beleg_group_nil b rows :
  (forall e, In e rows -> Entry.belegnummer e <> b) ->
  beleg_group b rows = [].
Proof.
  intros H. destruct (beleg_group b rows) as [|e l] eqn:E; auto.
  assert (Hin : In e (beleg_group b rows)) by (rewrite E; left; auto).
  apply beleg_group_In in Hin as [Hin Hb]. now destruct (H e Hin).
Qed.

Lemma filter_filter_absorb {A} (f g : A -> bool) l :
  (forall x, In x l -> f x = true -> g x = true) ->
  filter f (filter g l) = filter f l.
Proof.
  induction l as [|x l IH]; intros H; simpl; auto.
  destruct (g x) eqn:Eg; simpl.
  - destruct (f x); rewrite IH; auto; intros; apply H; auto; now right.
  - destruct (f x) eqn:Ef.
    + rewrite (H x) in Eg; auto; [discriminate | now left].
    + apply IH. intros; apply H; auto; now right.
Qed.

Lemma seq_later_asym e1 e2 : seq_later e1 e2 = true -> seq_later e2 e1 = false.
Proof. unfold seq_later. rewrite Z.ltb_lt, Z.ltb_ge. lia. Qed.

Lemma seq_later_ntrans e1 e2 e3 :
  seq_later e1 e2 = false -> seq_later e2 e3 = false ->
  seq_later e1 e3 = false.
Proof. unfold seq_later. rewrite !Z.ltb_ge. lia. Qed.

Lemma entry_of_partner_iff db partner_id e :
  entry_of_partner db partner_id e = true <->
  exists a, In a (accounts db) /\ Entry.account_id e = Account.id a
            /\ Account.partner_id a = partner_id.
Proof.
  unfold entry_of_partner. rewrite existsb_exists. split.
  - intros (a & Ha & H). apply andb_true_iff in H as [H1 H2].
    apply Z.eqb_eq in H1, H2. eauto.
  - intros (a & Ha & H1 & H2). exists a. split; auto.
    apply andb_true_iff. split; now apply Z.eqb_eq.
Qed.

Lemma account_by_id (accs : list Account.t) a1 a2 :
  NoDup (map Account.id accs) -> In a1 accs -> In a2 accs ->
  Account.id a1 = Account.id a2 -> a1 = a2.
Proof.
  induction accs as [|a l IH]; intros Hnd H1 H2 Hid; [destruct H1|].
  simpl in Hnd. apply NoDup_cons_iff in Hnd as [Hn Hnd].
  destruct H1 as [->|H1], H2 as [->|H2]; auto.
  - destruct Hn. rewrite Hid. now apply in_map.
  - destruct Hn. rewrite <- Hid. now apply in_map.
Qed.

Lemma entry_of_partner_add db partner_id e e' :
  entry_of_partner (add_entry db e') partner_id e
  = entry_of_partner db partner_id e.
Proof. reflexivity. Qed.

(** In a ledger that satisfies the invariant, the number [new_entry]
    generates is carried by no row. *)
Lemma new_belegnummer_fresh rows now :
  numbers_counted rows ->
  forall e, In e rows ->
    Entry.belegnummer e
    <> (strftime_Ymd now
        ++ format_02d (count_like (strftime_Ymd now) rows + 1))%string.
Proof.
  intros Hc e He Hb.
  pose proof (count_like_nonneg (strftime_Ymd now) rows).
  assert (H0 : 0 <= count_like (strftime_Ymd now) rows + 1) by lia.
  pose proof (Hc e (strftime_Ymd now) _ He (strftime_Ymd_length now) H0 Hb).
  lia.
Qed.

Lemma richtung_db_of_cases raw richtung_db :
  richtung_db_of raw = Some richtung_db ->
  richtung_db = "Eingang"%string \/ richtung_db = "Ausgang"%string.
Proof.
  unfold richtung_db_of.
  destruct (String.eqb _ "EIN"); [intros [= <-]; auto|].
  destruct (String.eqb _ "AUS"); [intros [= <-]; auto|discriminate].
Qed.

(** A booking keeps the invariant: its number is new, so it opens a group
    of its own with sequence number 0. *)
Lemma ledger_inv_new_entry now db form account entry_date menge richtung_db :
  ledger_inv db ->
  richtung_db_of (richtung_raw form) = Some richtung_db ->
  ledger_inv (add_entry db (new_entry_row now db form account entry_date
                              menge richtung_db)).
Proof.
  intros [Ha Hg Hc Hp Hk] Hr.
  set (e' := new_entry_row now db form account entry_date menge richtung_db).
  assert (Hb' : Entry.belegnummer e'
                = (strftime_Ymd now
                   ++ format_02d (count_like (strftime_Ymd now) (entries db)
                                  + 1))%string) by reflexivity.
  pose proof (new_belegnummer_fresh _ now Hc) as Hfresh.
  rewrite <- Hb' in Hfresh.
  constructor; cbn [accounts entries add_entry]; auto.
  - intros b. rewrite beleg_group_app.
    destruct (String.eqb_spec (Entry.belegnummer e') b) as [<-|Hne].
    + rewrite (beleg_group_nil (Entry.belegnummer e') (entries db))
        by (intros e He E; exact (Hfresh e He E)).
      reflexivity.
    + rewrite app_nil_r. apply Hg.
  - intros e D n He HD Hn Hb. apply in_app_iff in He as [He|[<-|[]]].
    + etransitivity; [eapply Hc; eauto | apply count_like_mono].
    + rewrite Hb' in Hb.
      apply append_same_length_inv in Hb as [<- Hb];
        [|rewrite strftime_Ymd_length; auto].
      pose proof (count_like_nonneg (strftime_Ymd now) (entries db)).
      apply format_02d_inj in Hb; try lia.
      rewrite count_like_app, Hb'. unfold like_prefix.
      rewrite prefix_append. lia.
  - intros e1 e2 pid H1 H2 Hb. cbn [entries add_entry] in H1, H2.
    rewrite !entry_of_partner_add.
    apply in_app_iff in H1 as [H1|[<-|[]]];
      apply in_app_iff in H2 as [H2|[<-|[]]]; auto.
    + eapply Hp; eauto.
    + now destruct (Hfresh e1 H1).
    + symmetry in Hb. now destruct (Hfresh e2 H2).
  - intros e He. apply in_app_iff in He as [He|[<-|[]]]; auto.
    left. split; [reflexivity|]. now apply richtung_db_of_cases in Hr.
Qed.

(** What [find_last_for_beleg] returns in a ledger that satisfies the
    invariant: the newest row of the whole group. *)
Lemma find_last_for_beleg_inv db partner_id b original :
  ledger_inv db ->
  find_original db partner_id b = Some original ->
  exists last,
    find_last_for_beleg db partner_id b = Some last
    /\ In last (beleg_group b (entries db))
    /\ Entry.konto_seq last + 1
       = Z.of_nat (List.length (beleg_group b (entries db)))
    /\ forall x, In x (beleg_group b (entries db)) ->
                 Entry.konto_seq x <= Entry.konto_seq last.
Proof.
  intros [Ha Hg Hc Hp Hk] Ho.
  destruct (find_original_richtung _ _ _ _ Ho) as (_ & Hob & Hop & Hoin).
  assert (HL : filter (fun e => String.eqb (Entry.belegnummer e) b)
                 (filter (entry_of_partner db partner_id) (entries db))
               = beleg_group b (entries db)).
  { apply filter_filter_absorb. intros x Hx Hxb.
    apply String.eqb_eq in Hxb. apply (Hp original x); auto. congruence. }
  assert (HoG : In original (beleg_group b (entries db)))
    by (apply beleg_group_In; auto).
  unfold find_last_for_beleg. rewrite HL.
  destruct (first_desc_Some seq_later _ _ HoG) as [last Hlast].
  exists last. split; [exact Hlast|].
  pose proof (first_desc_In _ _ _ Hlast) as Hin.
  pose proof (first_desc_max _ seq_later_asym seq_later_ntrans _ _ Hlast)
    as Hmax.
  assert (Hle : forall x, In x (beleg_group b (entries db)) ->
                          Entry.konto_seq x <= Entry.konto_seq last).
  { intros x Hx. specialize (Hmax x Hx). unfold seq_later in Hmax.
    now apply Z.ltb_ge in Hmax. }
  repeat split; auto.
  specialize (Hg b).
  set (G := beleg_group b (entries db)) in *.
  assert (Hlast_lt : 0 <= Entry.konto_seq last < Z.of_nat (List.length G)).
  { apply zrange_In. rewrite <- Hg. now apply in_map. }
  assert (Htop : In (Z.of_nat (List.length G) - 1) (zrange (List.length G))).
  { apply zrange_In. lia. }
  rewrite <- Hg in Htop. apply in_map_iff in Htop as (x & Hx & HxG).
  specialize (Hle x HxG). lia.
Qed.

(** A correction keeps the invariant: it joins the group of its booking
    with the next sequence number. *)
Lemma ledger_inv_correction py_int strptime_date now db partner_id form
  account entry_date original menge :
  ledger_inv db ->
  correction_admitted py_int strptime_date now db partner_id form account
    entry_date original menge ->
  ledger_inv (add_entry db (correction_row db partner_id form account
                              entry_date original menge)).
Proof.
  intros Hinv Hadm. pose proof Hinv as [Ha Hg Hc Hp Hk].
  destruct Hadm as (p & Hpg & Hacc & _ & _ & _ & Ho & _ & _).
  set (b := c_belegnummer form) in *.
  set (e' := correction_row db partner_id form account entry_date original
               menge).
  destruct (find_original_richtung _ _ _ _ Ho) as (_ & Hob & Hop & Hoin).
  destruct (find_last_for_beleg_inv _ _ _ _ Hinv Ho)
    as (last & Hlast & HlastG & Hlen & Hmax).
  assert (Hb' : Entry.belegnummer e' = b) by reflexivity.
  assert (Hs' : Entry.konto_seq e'
                = Z.of_nat (List.length (beleg_group b (entries db)))).
  { unfold e', correction_row. cbn [Entry.konto_seq]. fold b.
    now rewrite Hlast. }
  assert (Hacc' : In account (accounts db)
                  /\ Account.partner_id account = partner_id).
  { unfold partner_accounts in Hacc.
    destruct (filter _ (accounts db)) as [|a l] eqn:E; [discriminate|].
    injection Hacc as ->.
    assert (Hin : In account (filter (fun a => Account.partner_id a
                                               =? Partner.id p)
                                (accounts db))) by (rewrite E; left; auto).
    apply filter_In in Hin as [Hin Hid]. apply Z.eqb_eq in Hid.
    rewrite (Partner_get_id _ _ _ Hpg) in Hid. auto. }
  destruct Hacc' as [HaccIn HaccP].
  assert (He'p : forall pid, entry_of_partner db pid e' = true ->
                             pid = partner_id).
  { intros pid H. apply entry_of_partner_iff in H as (a & Hain & Hid & <-).
    change (Entry.account_id e') with (Account.id account) in Hid.
    now rewrite <- (account_by_id _ _ _ Ha HaccIn Hain Hid). }
  assert (He'p' : entry_of_partner db partner_id e' = true).
  { apply entry_of_partner_iff. exists account. auto. }
  constructor; cbn [accounts entries add_entry]; auto.
  - intros c. rewrite beleg_group_app.
    destruct (String.eqb_spec (Entry.belegnummer e') c) as [<-|Hne].
    + rewrite Hb', length_app, map_app. cbn [List.length map].
      rewrite Nat.add_1_r, zrange_S, (Hg b), Hs'. reflexivity.
    + rewrite app_nil_r. apply Hg.
  - intros e D n He HD Hn Hb0. apply in_app_iff in He as [He|[<-|[]]].
    + etransitivity; [eapply Hc; eauto | apply count_like_mono].
    + etransitivity; [eapply (Hc original); eauto | apply count_like_mono].
      congruence.
  - intros e1 e2 pid H1 H2 Hbb. cbn [entries add_entry] in H1, H2.
    rewrite !entry_of_partner_add.
    apply in_app_iff in H1 as [H1|[<-|[]]];
      apply in_app_iff in H2 as [H2|[<-|[]]]; auto.
    + eapply Hp; eauto.
    + intros H. assert (Hop' : entry_of_partner db pid original = true).
      { apply (Hp e1 original); auto. congruence. }
      apply entry_of_partner_iff in Hop' as (a1 & Ha1 & Hid1 & Hp1).
      apply entry_of_partner_iff in Hop as (a2 & Ha2 & Hid2 & Hp2).
      rewrite Hid1 in Hid2.
      rewrite (account_by_id _ _ _ Ha Ha1 Ha2 Hid2) in Hp1.
      now rewrite <- Hp1, Hp2.
    + intros H. rewrite (He'p pid H). apply (Hp original e2); auto.
      congruence.
  - intros e He. apply in_app_iff in He as [He|[<-|[]]]; auto.
    right. split; [|reflexivity]. rewrite Hs'.
    assert (In original (beleg_group b (entries db)))
      by (apply beleg_group_In; auto).
    destruct (beleg_group b (entries db)); [destruct H|simpl; lia].
Qed.

Lemma ledger_inv_step py_int strptime_date db db' :
  ledger_inv db -> recorder_step py_int strptime_date db db' ->
  ledger_inv db'.
Proof.
  intros Hinv Hstep. revert Hinv.
  destruct Hstep as [now db pid form r db' H | now db pid form r db' H];
    intros Hinv.
  - destruct (new_entry_inv _ _ _ _ _ _ _ _ H)
      as [[_ ->] | (a & d & m & ri & _ & Hri & _ & _ & ->)]; auto.
    now apply ledger_inv_new_entry.
  - destruct (correction_entry_inv _ _ _ _ _ _ _ _ H)
      as [[_ ->] | (a & d & o & m & Hadm & _ & ->)]; auto.
    eapply ledger_inv_correction; eauto.
Qed.

Lemma ledger_inv_run py_int strptime_date db db' :
  ledger_inv db -> recorder_run py_int strptime_date db db' ->
  ledger_inv db'.
Proof.
  intros Hinv Hrun. induction Hrun; eauto using ledger_inv_step.
Qed.

Lemma ledger_inv_init db :
  entries db = [] -> NoDup (map Account.id (accounts db)) -> ledger_inv db.
Proof.
  intros He Ha. constructor; auto.
  - rewrite He. intros b. reflexivity.
  - rewrite He. intros e D n [].
  - intros e1 e2 pid H1. rewrite He in H1. destruct H1.
  - rewrite He. intros e [].
Qed.

Section Sequence.

Variable py_int : string -> option Z.
Variable strptime_date : string -> option date.

Abbreviation new_entry := (new_entry py_int strptime_date).
Abbreviation correction_entry := (correction_entry py_int strptime_date).
Abbreviation recorder_run := (recorder_run py_int strptime_date).


End Sequence.



(* ================================================================== *)
(** ** Further properties: calendar *)
(* ================================================================== *)

Lemma check_date_fields_bounds y m d :
  check_date_fields y m d = true ->
  1 <= y <= 9999 /\ 1 <= m <= 12 /\ 1 <= d <= _days_in_month y m.
Proof.
  unfold check_date_fields. rewrite !andb_true_iff, !Z.leb_le. lia.
Qed.

Lemma check_time_fields_bounds h mi s us :
  check_time_fields h mi s us = true ->
  0 <= h <= 23 /\ 0 <= mi <= 59 /\ 0 <= s <= 59 /\ 0 <= us <= 999999.
Proof.
  unfold check_time_fields. rewrite !andb_true_iff, !Z.leb_le. lia.
Qed.

Lemma month_range_cases d :
  valid_date d = true ->
  (~ (dyear d = 9999 /\ dmonth d = 12) ->
   month_range d
   = Some (combine (mkdate (dyear d) (dmonth d) 1) (mktime 0 0 0 0),
           last_second (dyear d) (dmonth d)))
  /\ (dyear d = 9999 /\ dmonth d = 12 -> month_range d = None).
Proof.
  destruct d as [y m d]. unfold valid_date. cbn [dyear dmonth dday].
  intros Hv. apply check_date_fields_bounds in Hv as (Hy & Hm & _).
  split.
  - intros Hne. rewrite <- (month_range_last_second y m Hy Hm Hne).
    reflexivity.
  - intros [-> ->]. reflexivity.
Qed.

(** X1.  [month_range] looks at the year and the month of its argument
    only.  For every valid date outside December 9999 it returns midnight
    of the first day of the month and 23:59:59 of its last day; for a date
    in December 9999 it raises. *)
Theorem month_range_of_valid_date d :
  valid_date d = true ->
  (~ (dyear d = 9999 /\ dmonth d = 12) ->
   month_range d
   = Some (combine (mkdate (dyear d) (dmonth d) 1) (mktime 0 0 0 0),
           last_second (dyear d) (dmonth d)))
  /\ (dyear d = 9999 /\ dmonth d = 12 -> month_range d = None).
Proof.
  intros Hv. split; intros H; now apply (month_range_cases d Hv).
Qed.

Lemma month_range_of_valid_date_witness :
  month_range (mkdate 2024 2 17)
  = Some (combine (mkdate 2024 2 1) (mktime 0 0 0 0),
          combine (mkdate 2024 2 29) (mktime 23 59 59 0)).
Proof.
  destruct (month_range_of_valid_date (mkdate 2024 2 17) eq_refl) as [H _].
  apply H. intros [H1 _]. discriminate H1.
Defined.

Ltac lex_cases :=
  unfold dt_leb, dt_ltb, dt_compare, dt_fields, year, month, day;
  cbn [lex_compare date_of time_of dyear dmonth dday hour minute second
       microsecond];
  repeat match goal with
         | |- context [?a ?= ?b] =>
             destruct (Z.compare_spec a b); try lia
         end.

Lemma last_second_window dt :
  valid_datetime dt = true ->
  let start := combine (mkdate (year dt) (month dt) 1) (mktime 0 0 0 0) in
  let end_ := last_second (year dt) (month dt) in
  (start <=?t dt) = true
  /\ ((dt <=?t end_) = false <->
      day dt = _days_in_month (year dt) (month dt)
      /\ hour (time_of dt) = 23 /\ minute (time_of dt) = 59
      /\ second (time_of dt) = 59 /\ 0 < microsecond (time_of dt)).
Proof.
  destruct dt as [[y m d] [h mi s us]].
  unfold valid_datetime, valid_date, valid_time, last_second.
  cbn [date_of time_of dyear dmonth dday hour minute second microsecond
       year month day].
  intros Hv. apply andb_true_iff in Hv as [Hd Ht].
  apply check_date_fields_bounds in Hd as (Hy & Hm & Hd).
  apply check_time_fields_bounds in Ht as (Hh & Hmi & Hs & Hus).
  unfold year, month, day. cbn [date_of dyear dmonth dday]. split.
  - lex_cases; reflexivity.
  - lex_cases; split; intros; try discriminate; try lia; reflexivity.
Qed.

(** X2.  A valid timestamp is never before the start that [month_range]
    returns for its date, and it is after the end that [month_range]
    returns exactly when it lies in the last second of the month with a
    non-zero microsecond part. *)
Theorem month_range_window dt start end_ :
  valid_datetime dt = true ->
  month_range (date_of dt) = Some (start, end_) ->
  (start <=?t dt) = true
  /\ ((dt <=?t end_) = false <->
      day dt = _days_in_month (year dt) (month dt)
      /\ hour (time_of dt) = 23 /\ minute (time_of dt) = 59
      /\ second (time_of dt) = 59 /\ 0 < microsecond (time_of dt)).
Proof.
  intros Hv Hr. pose proof (last_second_window dt Hv) as H. cbv zeta in H.
  apply andb_true_iff in Hv as [Hd _].
  destruct (month_range_cases _ Hd) as [H1 H2].
  destruct (Z.eq_dec (dyear (date_of dt)) 9999) as [Ey|Ey];
    [destruct (Z.eq_dec (dmonth (date_of dt)) 12) as [Em|Em]|].
  - rewrite H2 in Hr by auto. discriminate.
  - rewrite H1 in Hr by tauto. injection Hr as <- <-. exact H.
  - rewrite H1 in Hr by tauto. injection Hr as <- <-. exact H.
Qed.

Lemma month_range_window_witness :
  (combine (mkdate 2024 1 31) (mktime 23 59 59 500000)
   <=?t last_second 2024 1) = false.
Proof.
  destruct (month_range_window
              (combine (mkdate 2024 1 31) (mktime 23 59 59 500000))
              _ _ eq_refl eq_refl) as [_ H].
  apply H. repeat split.
Defined.

(* ================================================================== *)
(** ** Further properties: queries and the calculator *)
(* ================================================================== *)

(** X3.  [get_last_closure_before] returns a closure of the partner that
    ends strictly before [dt] and no earlier than any other such closure;
    it returns nothing exactly when the partner has no closure that ends
    before [dt]. *)
Theorem get_last_closure_before_latest db partner_id dt :
  match get_last_closure_before db partner_id dt with
  | Some c =>
      In c (month_closures db) /\ MonthClosure.partner_id c = partner_id
      /\ (MonthClosure.period_end c <?t dt) = true
      /\ forall c', In c' (month_closures db) ->
           MonthClosure.partner_id c' = partner_id ->
           (MonthClosure.period_end c' <?t dt) = true ->
           (MonthClosure.period_end c' <=?t MonthClosure.period_end c) = true
  | None =>
      forall c', In c' (month_closures db) ->
        MonthClosure.partner_id c' = partner_id ->
        (MonthClosure.period_end c' <?t dt) = false
  end.
Proof.
  destruct (get_last_closure_before db partner_id dt) as [c|] eqn:E.
  - now apply get_last_closure_before_spec.
  - intros c' Hc' Hp. unfold get_last_closure_before in E.
    apply first_desc_None in E.
    destruct (MonthClosure.period_end c' <?t dt) eqn:Hlt; auto.
    assert (Hin : In c' (filter (fun c => MonthClosure.period_end c <?t dt)
                     (filter (fun c => MonthClosure.partner_id c =? partner_id)
                        (month_closures db)))).
    { apply filter_In. split; auto. apply filter_In. split; auto.
      now apply Z.eqb_eq. }
    rewrite E in Hin. destruct Hin.
Qed.

Lemma insert_desc_In x l y : In y (insert_desc x l) <-> y = x \/ In y l.
Proof.
  split.
  - intros H. apply (Permutation_in _ (insert_desc_perm x l)) in H.
    destruct H; auto.
  - intros H. apply (Permutation_in _ (Permutation_sym (insert_desc_perm x l))).
    destruct H; [left|right]; auto.
Qed.

Lemma insert_desc_sorted x l :
  StronglySorted not_older l -> StronglySorted not_older (insert_desc x l).
Proof.
  induction 1 as [|y l Hs IH Hall]; simpl.
  - repeat constructor.
  - destruct (sort_key x <?t sort_key y) eqn:E.
    + constructor; auto. apply Forall_forall. intros z Hz.
      apply insert_desc_In in Hz as [->|Hz].
      * unfold not_older. apply dt_leb_cases. auto.
      * rewrite Forall_forall in Hall. auto.
    + assert (Hxy : not_older x y).
      { unfold not_older. now rewrite dt_leb_ltb, E. }
      constructor; [constructor; auto|].
      constructor; auto. rewrite Forall_forall in *. intros z Hz.
      unfold not_older in *. eauto using dt_leb_trans.
Qed.

Lemma sort_desc_sorted l : StronglySorted not_older (sort_desc l).
Proof.
  induction l as [|x l IH]; simpl; [constructor|].
  now apply insert_desc_sorted.
Qed.

Lemma same_key_lt e x : (sort_key e <?t sort_key x) = true -> same_key e x = false.
Proof.
  intros H. unfold same_key. rewrite (dt_leb_ltb (sort_key x) (sort_key e)), H.
  reflexivity.
Qed.

Lemma insert_desc_stable e x l :
  filter (same_key e) (insert_desc x l)
  = filter (same_key e) (x :: l).
Proof.
  induction l as [|y l IH]; [reflexivity|]. cbn [insert_desc].
  destruct (sort_key x <?t sort_key y) eqn:E; [|reflexivity].
  cbn [filter] in *. rewrite IH.
  destruct (same_key e x) eqn:Ex; [|reflexivity].
  destruct (same_key e y) eqn:Ey; [|reflexivity].
  unfold same_key in Ex, Ey.
  apply andb_true_iff in Ex as [Ex1 Ex2]. apply andb_true_iff in Ey as [Ey1 Ey2].
  pose proof (dt_leb_trans _ _ _ Ey1 Ex2) as Hyx.
  rewrite dt_leb_ltb, E in Hyx. discriminate.
Qed.

Lemma sort_desc_stable e l :
  filter (same_key e) (sort_desc l) = filter (same_key e) l.
Proof.
  induction l as [|x l IH]; [reflexivity|]. cbn [sort_desc fold_right].
  fold (sort_desc l). rewrite insert_desc_stable. cbn [filter].
  now rewrite IH.
Qed.

(** X4.  The list of entries the calculator returns is sorted newest
    first (an entry without timestamp counting as [datetime.min]), and
    entries with equal timestamps keep the order in which the partner's
    entries were visited. *)
Theorem entries_newest_first db partner_id partner start_date end_date r :
  Partner_get db partner_id = Some partner ->
  calculate_saldo_and_sums db partner_id start_date end_date = Some r ->
  StronglySorted not_older (r_entries r)
  /\ forall e,
       filter (same_key e) (r_entries r)
       = filter (same_key e)
           (filter (in_period
                      (snd (base_of (get_last_closure_before db partner_id
                                       start_date)))
                      start_date end_date)
              (collect_partner_entries db partner)).
Proof.
  intros Hp Hr.
  rewrite (calculate_saldo_and_sums_eq _ _ _ _ _ Hp) in Hr. cbv zeta in Hr.
  injection Hr as <-. cbn [r_entries]. split; [apply sort_desc_sorted|].
  intros e. rewrite sort_desc_stable.
  pose proof (loop_fold_entries
              (snd (base_of (get_last_closure_before db partner_id start_date)))
              start_date end_date (collect_partner_entries db partner)
              (mkloop (fst (base_of (get_last_closure_before db partner_id
                                       start_date)))
                 saldo_zero saldo_zero saldo_zero [])) as H3.
  cbn [l_entries_in_period app] in H3. now rewrite H3.
Qed.

Lemma entries_newest_first_witness :
  exists r,
    calculate_saldo_and_sums db_january 1
      (at_time 2024 1 1 0 0) (at_time 2024 1 10 0 0) = Some r
    /\ StronglySorted not_older (r_entries r)
    /\ map Entry.id (r_entries r) = [2; 1].
Proof.
  eexists. split; [reflexivity|]. split; [|reflexivity].
  exact (proj1 (entries_newest_first db_january 1
                  (Partner.mk 1 "Spedition Nord")
                  (at_time 2024 1 1 0 0) (at_time 2024 1 10 0 0) _
                  eq_refl eq_refl)).
Defined.

Lemma loop_fold_sums base_date start_date end_date all_entries : forall st,
  state_weight st + volume all_entries <= float_exact_max ->
  let st' :=
    fold_left (loop_body base_date start_date end_date) all_entries st in
  let period := filter (in_period base_date start_date end_date) all_entries in
  l_sums_eingang st'
  = saldo_add (l_sums_eingang st)
      (saldo_sum (map mengen (filter is_eingang period)))
  /\ l_sums_ausgang st'
     = saldo_add (l_sums_ausgang st)
         (saldo_sum (map mengen (filter is_ausgang period))).
Proof.
  induction all_entries as [|e l IH]; intros st Hb; cbv zeta.
  - simpl. now rewrite !saldo_add_zero_r.
  - cbn [fold_left filter volume] in *.
    pose proof (weight_nonneg e) as Hw. pose proof (volume_nonneg l) as Hv.
    pose proof (loop_body_weight base_date start_date end_date st e
                  ltac:(lia)) as Hstep.
    specialize (IH (loop_body base_date start_date end_date st e)
                  ltac:(lia)).
    cbv zeta in IH. destruct IH as (IH1 & IH2). rewrite IH1, IH2.
    destruct (in_period base_date start_date end_date e) eqn:Ep.
    + rewrite (loop_body_in_period _ _ _ _ _ Ep) by lia.
      cbn [l_sums_eingang l_sums_ausgang filter].
      unfold is_eingang at 2, is_ausgang at 2.
      destruct (String.eqb_spec (Entry.richtung e) "Eingang") as [Er|Er].
      * rewrite Er. change (String.eqb "Eingang" "Ausgang") with false.
        cbn [map saldo_sum]. now rewrite saldo_add_assoc.
      * destruct (String.eqb (Entry.richtung e) "Ausgang");
          cbn [map saldo_sum]; now rewrite ?saldo_add_assoc.
    + destruct (in_catch_up base_date start_date e) eqn:Ec.
      * now rewrite (loop_body_catch_up_float _ _ end_date _ _ Ec).
      * now rewrite (loop_body_skip _ _ _ _ _ Ec Ep).
Qed.

Lemma movement_by_direction l k :
  saldo_get k (saldo_sum (map contribution l))
  = saldo_get k (saldo_sum (map mengen (filter is_eingang l)))
    - saldo_get k (saldo_sum (map mengen (filter is_ausgang l)))
    + saldo_get k
        (saldo_sum (map mengen
           (filter (fun e => negb (is_eingang e) && negb (is_ausgang e)) l))).
Proof.
  induction l as [|e l IH]; [destruct k; reflexivity|].
  cbn [map saldo_sum filter]. rewrite saldo_get_add, IH.
  unfold contribution, mult_of, is_eingang, is_ausgang.
  rewrite saldo_get_scale.
  destruct (String.eqb_spec (Entry.richtung e) "Eingang") as [Er|Er].
  - rewrite Er. change (String.eqb "Eingang" "Ausgang") with false.
    cbn [negb andb map saldo_sum]. rewrite saldo_get_add. lia.
  - destruct (String.eqb (Entry.richtung e) "Ausgang");
      cbn [negb andb map saldo_sum]; rewrite ?saldo_get_add.
    + lia.
    + destruct (String.eqb (Entry.richtung e) "Korrektur"); lia.
Qed.

(** X5.  Where the seed and the volume of the partner's entries stay
    within 2^53, so that no float sum is rounded: the two directional sums
    add the raw quantities of the [Eingang], respectively [Ausgang],
    entries of the period and of nothing else; the movement is the inbound
    sum minus the outbound sum plus the quantities of the remaining
    entries of the period (the corrections). *)
Theorem directional_sums db partner_id partner start_date end_date r :
  Partner_get db partner_id = Some partner ->
  calculate_saldo_and_sums db partner_id start_date end_date = Some r ->
  books_exact
    (fst (base_of (get_last_closure_before db partner_id start_date)))
    (collect_partner_entries db partner) ->
  let period :=
    filter (in_period
              (snd (base_of (get_last_closure_before db partner_id
                               start_date)))
              start_date end_date)
      (collect_partner_entries db partner) in
  r_sums_eingang r = saldo_sum (map mengen (filter is_eingang period))
  /\ r_sums_ausgang r = saldo_sum (map mengen (filter is_ausgang period))
  /\ forall k,
       saldo_get k (r_movement r)
       = saldo_get k (r_sums_eingang r) - saldo_get k (r_sums_ausgang r)
         + saldo_get k
             (saldo_sum (map mengen
                (filter (fun e => negb (is_eingang e) && negb (is_ausgang e))
                   period))).
Proof.
  intros Hp Hr Hb period.
  rewrite (calculate_saldo_and_sums_eq _ _ _ _ _ Hp) in Hr. cbv zeta in Hr.
  injection Hr as <-. cbn [r_sums_eingang r_sums_ausgang r_movement].
  set (seed := base_of (get_last_closure_before db partner_id start_date))
    in *.
  destruct (loop_fold_sums (snd seed) start_date end_date
              (collect_partner_entries db partner)
              (mkloop (fst seed) saldo_zero saldo_zero saldo_zero []))
    as (H1 & H2).
  { rewrite state_weight_seed. exact Hb. }
  destruct (loop_fold (snd seed) start_date end_date
              (collect_partner_entries db partner)
              (mkloop (fst seed) saldo_zero saldo_zero saldo_zero []))
    as (_ & H3 & _).
  { rewrite state_weight_seed. exact Hb. }
  cbn [l_sums_eingang l_sums_ausgang l_movement] in H1, H2, H3.
  fold period in H1, H2, H3.
  assert (Z0 : forall s, saldo_add saldo_zero s = s)
    by (intros s; saldo_arith).
  rewrite Z0 in H1, H2, H3. rewrite H1, H2, H3. repeat split.
  intros k. apply movement_by_direction.
Qed.

Lemma directional_sums_witness :
  exists r,
    calculate_saldo_and_sums db_january 1
      (at_time 2024 1 1 0 0) (at_time 2024 1 10 0 0) = Some r
    /\ eup (r_sums_eingang r) = 10 /\ eup (r_sums_ausgang r) = 4
    /\ eup (r_movement r) = 10 - 4 + 0.
Proof.
  eexists. split; [reflexivity|].
  destruct (directional_sums db_january 1 (Partner.mk 1 "Spedition Nord")
              (at_time 2024 1 1 0 0) (at_time 2024 1 10 0 0) _
              eq_refl eq_refl) as (H1 & H2 & H3).
  { apply Z.leb_le. reflexivity. }
  rewrite H1, H2. split; [reflexivity|]. split; [reflexivity|].
  exact (H3 EUP).
Defined.

(* ================================================================== *)
(** ** Further properties: closing a month *)
(* ================================================================== *)

Lemma new_date_Some y m d dd :
  new_date y m d = Some dd -> dd = mkdate y m d /\ valid_date dd = true.
Proof.
  unfold new_date. destruct (check_date_fields y m d) eqn:E; [|discriminate].
  intros [= <-]. auto.
Qed.

(** A closure is written only on this path. *)
Lemma close_month_inv utcnow db partner_id y m db' :
  close_month utcnow db partner_id y m = (Redirected, db') ->
  exists partner r c,
    Partner_get db partner_id = Some partner
    /\ existing_closure db partner_id y m = None
    /\ 1 <= y <= 9999 /\ 1 <= m <= 12 /\ ~ (y = 9999 /\ m = 12)
    /\ calculate_saldo_and_sums db partner_id datetime_min (last_second y m)
       = Some r
    /\ c = MonthClosure.mk (next_id (map MonthClosure.id (month_closures db)))
             partner_id y m
             (Some (eup (r_saldo_end r))) (Some (gb (r_saldo_end r)))
             (Some (tmb1 (r_saldo_end r))) (Some (tmb2 (r_saldo_end r)))
             (last_second y m) utcnow
    /\ db' = add_closure db c.
Proof.
  unfold close_month.
  destruct (Partner_get db partner_id) as [partner|] eqn:Hp; [|discriminate].
  destruct (existing_closure db partner_id y m) eqn:He; [discriminate|].
  destruct (new_date y m 1) as [dd|] eqn:Hd; [|discriminate].
  apply new_date_Some in Hd as [-> Hv].
  pose proof Hv as Hb. apply check_date_fields_bounds in Hb as (Hy & Hm & _).
  cbn [dyear dmonth dday] in Hy, Hm.
  destruct (month_range_cases _ Hv) as [H1 H2].
  cbn [dyear dmonth] in H1, H2.
  destruct (Z.eq_dec y 9999) as [Ey|Ey];
    [destruct (Z.eq_dec m 12) as [Em|Em]|].
  - rewrite H2 by auto. discriminate.
  - rewrite H1 by tauto.
    destruct (calculate_saldo_and_sums db partner_id datetime_min
                (last_second y m)) as [r|] eqn:Hr; [|discriminate].
    intros [= <-]. exists partner, r. eexists. repeat split; auto; tauto.
  - rewrite H1 by tauto.
    destruct (calculate_saldo_and_sums db partner_id datetime_min
                (last_second y m)) as [r|] eqn:Hr; [|discriminate].
    intros [= <-]. exists partner, r. eexists. repeat split; auto; tauto.
Qed.

(** [close_month] writes nothing unless it redirects. *)
Lemma close_month_db_cases utcnow db partner_id y m :
  snd (close_month utcnow db partner_id y m) = db
  \/ fst (close_month utcnow db partner_id y m) = Redirected.
Proof.
  unfold close_month.
  destruct (Partner_get db partner_id); auto.
  destruct (existing_closure db partner_id y m); auto.
  destruct (new_date y m 1); auto.
  destruct (month_range d) as [[s e]|]; auto.
  destruct (calculate_saldo_and_sums db partner_id datetime_min e); auto.
Qed.

(** X6.  Closing the same month a second time is answered with
    [DuplicateClosure] and writes nothing: the month has exactly the one
    closure the first call wrote. *)
Theorem close_month_twice utcnow1 utcnow2 db partner_id y m db' :
  close_month utcnow1 db partner_id y m = (Redirected, db') ->
  close_month utcnow2 db' partner_id y m = (Flashed DuplicateClosure, db')
  /\ List.length (month_closures db') = S (List.length (month_closures db))
  /\ List.length
       (filter (fun c => (MonthClosure.partner_id c =? partner_id)
                         && (MonthClosure.year c =? y)
                         && (MonthClosure.month c =? m))
               (month_closures db')) = 1%nat.
Proof.
  intros H.
  destruct (close_month_inv _ _ _ _ _ _ H)
    as (p & r & c & Hp & He & _ & _ & _ & _ & Hc & ->).
  assert (Hcf : MonthClosure.partner_id c = partner_id
                /\ MonthClosure.year c = y /\ MonthClosure.month c = m)
    by (subst c; auto).
  destruct Hcf as (C1 & C2 & C3).
  split; [|split].
  - assert (Hp2 : Partner_get (add_closure db c) partner_id = Some p)
      by exact Hp.
    assert (Hex : exists c0, In c0 (month_closures (add_closure db c))
                    /\ MonthClosure.partner_id c0 = partner_id
                    /\ MonthClosure.year c0 = y /\ MonthClosure.month c0 = m).
    { exists c. cbn [month_closures add_closure]. rewrite in_app_iff.
      simpl. auto. }
    apply existing_closure_Some in Hex as [c0 Hc0].
    unfold close_month. now rewrite Hp2, Hc0.
  - cbn [month_closures add_closure]. rewrite length_app. simpl. lia.
  - cbn [month_closures add_closure]. rewrite filter_app, length_app.
    cbn [filter]. rewrite C1, C2, C3, !Z.eqb_refl. cbn [andb List.length].
    unfold existing_closure in He.
    assert (Hnil : filter (fun c0 => (MonthClosure.partner_id c0 =? partner_id)
                                     && (MonthClosure.year c0 =? y)
                                     && (MonthClosure.month c0 =? m))
                     (month_closures db) = []).
    { destruct (filter _ (month_closures db)) as [|c0 l] eqn:E; auto.
      assert (Hin : In c0 (c0 :: l)) by (left; auto).
      rewrite <- E in Hin. apply filter_In in Hin as [Hin Hf].
      now rewrite (find_none _ _ He c0 Hin) in Hf. }
    now rewrite Hnil.
Qed.

Lemma close_month_twice_witness :
  exists db',
    close_month (at_time 2024 2 1 8 0) db_january 1 2024 1 = (Redirected, db')
    /\ close_month (at_time 2024 2 2 8 0) db' 1 2024 1
       = (Flashed DuplicateClosure, db').
Proof.
  eexists. split; [reflexivity|].
  exact (proj1 (close_month_twice (at_time 2024 2 1 8 0)
                  (at_time 2024 2 2 8 0) db_january 1 2024 1 _ eq_refl)).
Defined.

Lemma last_closure_after_close utcnow db partner_id y m db' :
  close_month utcnow db partner_id y m = (Redirected, db') ->
  exists c0,
    last_closure db' partner_id = Some c0
    /\ (last_second y m <=?t MonthClosure.period_end c0) = true.
Proof.
  intros H.
  destruct (close_month_inv _ _ _ _ _ _ H)
    as (p & r & c & Hp & He & _ & _ & _ & _ & Hc & ->).
  assert (Hin : In c (filter (fun c => MonthClosure.partner_id c =? partner_id)
                        (month_closures (add_closure db c)))).
  { apply filter_In. cbn [month_closures add_closure].
    rewrite in_app_iff. split; [right; left; auto|].
    subst c. apply Z.eqb_refl. }
  destruct (first_desc_Some closure_later _ _ Hin) as [c0 Hc0].
  fold (last_closure (add_closure db c) partner_id) in Hc0.
  exists c0. split; auto.
  destruct (last_closure_spec _ _ _ Hc0) as (_ & _ & Hmax).
  apply filter_In in Hin as [Hin _].
  specialize (Hmax c Hin). subst c. cbn [MonthClosure.partner_id
    MonthClosure.period_end] in Hmax. auto.
Qed.

Section Locking.

Variable py_int : string -> option Z.
Variable strptime_date : string -> option date.

Abbreviation new_entry := (new_entry py_int strptime_date).
Abbreviation correction_entry := (correction_entry py_int strptime_date).

(** X7.  Once a month is closed, [new_entry] answers every request of the
    partner whose date parses to a timestamp at or before the last second
    of that month with [ClosureLocked], and writes nothing. *)
Theorem closed_month_rejects_new_entry utcnow db partner_id y m db'
  now form entry_date :
  close_month utcnow db partner_id y m = (Redirected, db') ->
  (exists partner, Partner_get db partner_id = Some partner
                   /\ partner_accounts db partner <> []) ->
  entry_date_of strptime_date now (datum_str form) = Some entry_date ->
  (entry_date <=?t last_second y m) = true ->
  new_entry now db' partner_id form = (Flashed ClosureLocked, db').
Proof.
  intros H (p & Hp & Hacc) Hd Hle.
  destruct (last_closure_after_close _ _ _ _ _ _ H) as (c0 & Hc0 & Hpe).
  destruct (close_month_inv _ _ _ _ _ _ H)
    as (p' & r & c & _ & _ & _ & _ & _ & _ & _ & ->).
  unfold new_entry.
  change (Partner_get (add_closure db c) partner_id)
    with (Partner_get db partner_id). rewrite Hp.
  change (partner_accounts (add_closure db c) p) with (partner_accounts db p).
  destruct (partner_accounts db p) as [|a l]; [now destruct Hacc|].
  rewrite Hd, (Partner_get_id _ _ _ Hp), Hc0.
  now rewrite (dt_leb_trans _ _ _ Hle Hpe).
Qed.

(** X8.  Once a month is closed, [correction_entry] answers every
    otherwise complete request against a booking dated at or before the
    last second of that month with [ClosureLocked], and writes nothing. *)
Theorem closed_month_rejects_correction utcnow db partner_id y m db'
  now form entry_date original d0 :
  close_month utcnow db partner_id y m = (Redirected, db') ->
  (exists partner, Partner_get db partner_id = Some partner
                   /\ partner_accounts db partner <> []) ->
  c_belegnummer form <> ""%string -> c_kommentar form <> ""%string ->
  entry_date_of strptime_date now (c_datum_str form) = Some entry_date ->
  find_original db' partner_id (c_belegnummer form) = Some original ->
  Entry.datum original = Some d0 ->
  (d0 <=?t last_second y m) = true ->
  correction_entry now db' partner_id form = (Flashed ClosureLocked, db').
Proof.
  intros H (p & Hp & Hacc) Hb Hk Hd Ho Hd0 Hle.
  destruct (last_closure_after_close _ _ _ _ _ _ H) as (c0 & Hc0 & Hpe).
  destruct (close_month_inv _ _ _ _ _ _ H)
    as (p' & r & c & _ & _ & _ & _ & _ & _ & _ & ->).
  unfold correction_entry.
  change (Partner_get (add_closure db c) partner_id)
    with (Partner_get db partner_id). rewrite Hp.
  change (partner_accounts (add_closure db c) p) with (partner_accounts db p).
  destruct (partner_accounts db p) as [|a l]; [now destruct Hacc|].
  cbv zeta. apply String.eqb_neq in Hb, Hk.
  rewrite Hb, Hk, Hd, (Partner_get_id _ _ _ Hp), Ho, Hc0, Hd0.
  now rewrite (dt_leb_trans _ _ _ Hle Hpe).
Qed.

End Locking.

Lemma closed_month_rejects_new_entry_witness :
  exists db',
    close_month (at_time 2024 2 1 8 0) db_january 1 2024 1 = (Redirected, db')
    /\ new_entry parse_int parse_iso_date noon_10_feb db' 1 form_in_january
       = (Flashed ClosureLocked, db').
Proof.
  eexists. split; [reflexivity|].
  apply (closed_month_rejects_new_entry parse_int parse_iso_date
           (at_time 2024 2 1 8 0) db_january 1 2024 1 _
           noon_10_feb form_in_january (at_time 2024 1 20 12 0) eq_refl).
  - exists (Partner.mk 1 "Spedition Nord"). split; [reflexivity|discriminate].
  - reflexivity.
  - reflexivity.
Defined.

Lemma closed_month_rejects_correction_witness :
  exists db',
    close_month (at_time 2024 2 1 8 0) db_january 1 2024 1 = (Redirected, db')
    /\ correction_entry parse_int parse_iso_date noon_10_feb db' 1
         form_correction_january
       = (Flashed ClosureLocked, db').
Proof.
  eexists. split; [reflexivity|].
  apply (closed_month_rejects_correction parse_int parse_iso_date
           (at_time 2024 2 1 8 0) db_january 1 2024 1 _
           noon_10_feb form_correction_january (at_time 2024 2 10 12 0)
           (sample_entry 2 "2024010501" (at_time 2024 1 5 9 0) "Ausgang"
              (mksaldo 4 0 0 0) "doc-10023" 0)
           (at_time 2024 1 5 9 0) eq_refl).
  - exists (Partner.mk 1 "Spedition Nord"). split; [reflexivity|discriminate].
  - discriminate.
  - discriminate.
  - reflexivity.
  - reflexivity.
  - reflexivity.
  - reflexivity.
Defined.

(* ------------------------------------------------------------------ *)

Lemma datetime_min_le dt : valid_datetime dt = true -> (datetime_min <=?t dt) = true.
Proof.
  destruct dt as [[y m d] [h mi s us]].
  unfold valid_datetime, valid_date, valid_time, datetime_min.
  cbn [date_of time_of dyear dmonth dday hour minute second microsecond].
  intros Hv. apply andb_true_iff in Hv as [Hd Ht].
  apply check_date_fields_bounds in Hd as (Hy & Hm & Hd).
  apply check_time_fields_bounds in Ht as (Hh & Hmi & Hs & Hus).
  lex_cases; reflexivity.
Qed.

Lemma in_range_chain base_date mid end_date e :
  (base_date <=?t mid) = true -> (mid <=?t end_date) = true ->
  in_range base_date end_date e
  = in_range base_date mid e || in_range mid end_date e.
Proof.
  intros H1 H2. unfold in_range. destruct (Entry.datum e) as [d|]; auto.
  destruct (d <=?t mid) eqn:E.
  - rewrite (dt_leb_trans _ _ _ E H2), (dt_ltb_leb mid d), E.
    destruct (base_date <?t d); reflexivity.
  - assert (Hm : (mid <?t d) = true) by now rewrite dt_ltb_leb, E.
    rewrite Hm, (dt_le_lt_trans _ _ _ H1 Hm). reflexivity.
Qed.

Lemma in_range_disjoint base_date mid end_date e :
  in_range base_date mid e = true -> in_range mid end_date e = false.
Proof.
  unfold in_range. destruct (Entry.datum e) as [d|]; auto.
  intros H. apply andb_true_iff in H as [_ H].
  now rewrite (dt_ltb_leb mid d), H.
Qed.

Lemma last_second_valid y m :
  1 <= y <= 9999 -> 1 <= m <= 12 -> valid_datetime (last_second y m) = true.
Proof.
  intros Hy Hm. pose proof (_days_in_month_bounds y m Hm).
  unfold valid_datetime, valid_date, valid_time, last_second,
    check_date_fields, check_time_fields.
  cbn [date_of time_of dyear dmonth dday hour minute second microsecond].
  rewrite !andb_true_iff, !Z.leb_le. lia.
Qed.

(** The closure a successful [close_month] wrote seeds every later period
    when the partner's other closures end earlier. *)
Lemma get_last_closure_before_new db partner_id c start_date :
  MonthClosure.partner_id c = partner_id ->
  (MonthClosure.period_end c <?t start_date) = true ->
  (forall c', In c' (month_closures db) ->
     MonthClosure.partner_id c' = partner_id ->
     (MonthClosure.period_end c' <?t MonthClosure.period_end c) = true) ->
  get_last_closure_before (add_closure db c) partner_id start_date = Some c.
Proof.
  intros Hp Hlt Hold.
  assert (Hin : In c (filter (fun c => MonthClosure.period_end c <?t start_date)
                   (filter (fun c => MonthClosure.partner_id c =? partner_id)
                      (month_closures (add_closure db c))))).
  { apply filter_In. split; auto. apply filter_In.
    cbn [month_closures add_closure]. rewrite in_app_iff.
    split; [right; left; auto | now apply Z.eqb_eq]. }
  destruct (first_desc_Some closure_later _ _ Hin) as [c0 Hc0].
  unfold get_last_closure_before. rewrite Hc0. f_equal.
  pose proof (first_desc_max _ closure_later_asym closure_later_ntrans _ _
                Hc0 c Hin) as Hmax.
  apply first_desc_In in Hc0. apply filter_In in Hc0 as [Hc0 _].
  apply filter_In in Hc0 as [Hc0 Hp0]. apply Z.eqb_eq in Hp0.
  cbn [month_closures add_closure] in Hc0.
  apply in_app_iff in Hc0 as [Hc0|[<-|[]]]; auto.
  unfold closure_later in Hmax. now rewrite (Hold c0 Hc0 Hp0) in Hmax.
Qed.

(** X9.  After a month is closed as the partner's latest closure, the
    ending balance of every later period is the sum over all of the
    partner's entries dated after [datetime.min] and up to the end of the
    period: the closure changes no later balance.  This is stated where
    twice the volume of the partner's entries stays within 2^53, so that
    neither the balance stored in the closure nor a later sum is
    rounded. *)
Theorem closing_preserves_later_balances utcnow db partner_id partner y m db'
  start_date end_date :
  close_month utcnow db partner_id y m = (Redirected, db') ->
  Partner_get db partner_id = Some partner ->
  (forall c', In c' (month_closures db) ->
     MonthClosure.partner_id c' = partner_id ->
     (datetime_min <=?t MonthClosure.period_end c') = true
     /\ (MonthClosure.period_end c' <?t last_second y m) = true) ->
  (last_second y m <?t start_date) = true ->
  (start_date <=?t end_date) = true ->
  2 * volume (collect_partner_entries db partner) <= float_exact_max ->
  exists r,
    calculate_saldo_and_sums db' partner_id start_date end_date = Some r
    /\ r_saldo_end r
       = saldo_sum (map contribution
           (filter (in_range datetime_min end_date)
              (collect_partner_entries db partner))).
Proof.
  intros H Hp Hold Hlt Hse Hvol.
  pose proof (volume_nonneg (collect_partner_entries db partner)) as Hv0.
  destruct (close_month_inv _ _ _ _ _ _ H)
    as (p' & r0 & c & Hp' & _ & Hy & Hm & _ & Hr0 & Hc & ->).
  assert (Hmin : get_last_closure_before db partner_id datetime_min = None).
  { destruct (get_last_closure_before db partner_id datetime_min) as [c1|]
      eqn:E1; auto.
    destruct (get_last_closure_before_spec _ _ _ _ E1) as (G1 & G2 & G3 & _).
    destruct (Hold c1 G1 G2) as [G4 _].
    rewrite dt_ltb_leb, G4 in G3. discriminate. }
  assert (Hnew : get_last_closure_before (add_closure db c) partner_id
                   start_date = Some c).
  { apply get_last_closure_before_new.
    - subst c. reflexivity.
    - subst c. exact Hlt.
    - intros c' Hc' Hpc'. subst c. exact (proj2 (Hold c' Hc' Hpc')). }
  assert (Hpe_min : (datetime_min <=?t last_second y m) = true)
    by (apply datetime_min_le, last_second_valid; auto).
  assert (Hpe_end : (last_second y m <=?t end_date) = true).
  { apply dt_leb_cases. left. eauto using dt_lt_le_trans. }
  destruct (calculate_exact db partner_id partner
              datetime_min (last_second y m) Hp Hpe_min)
    as (r0' & Hr0' & _ & _ & _ & Hend0 & Hw0).
  { rewrite Hmin. unfold books_exact. cbn [base_of fst].
    change (saldo_weight saldo_zero) with 0. lia. }
  rewrite Hr0 in Hr0'. injection Hr0' as <-.
  rewrite Hmin in Hend0, Hw0. cbn [base_of fst snd] in Hend0, Hw0.
  change (saldo_weight saldo_zero) with 0 in Hw0.
  assert (Hcf : closure_saldo c = r_saldo_end r0).
  { subst c. unfold closure_saldo, float_or0. cbn [MonthClosure.saldo_eup
      MonthClosure.saldo_gb MonthClosure.saldo_tmb1 MonthClosure.saldo_tmb2
      int_or0].
    unfold saldo_weight in Hw0.
    apply saldo_eq; cbn [eup gb tmb1 tmb2]; apply float_exact; lia. }
  assert (Hp2 : Partner_get (add_closure db c) partner_id = Some partner)
    by exact Hp.
  destruct (calculate_exact (add_closure db c) partner_id
              partner start_date end_date Hp2 Hse)
    as (r & Hr & _ & _ & _ & Hend & _).
  { rewrite Hnew. unfold books_exact. cbn [base_of fst].
    change (collect_partner_entries (add_closure db c) partner)
      with (collect_partner_entries db partner).
    rewrite Hcf. lia. }
  exists r. split; [exact Hr|].
  rewrite Hnew in Hend. cbn [base_of fst snd] in Hend.
  change (collect_partner_entries (add_closure db c) partner)
    with (collect_partner_entries db partner) in Hend.
  rewrite Hend.
  assert (Hcp : MonthClosure.period_end c = last_second y m)
    by (subst c; reflexivity).
  assert (Hcs : closure_saldo c
                = saldo_sum (map contribution
                    (filter (in_range datetime_min (last_second y m))
                       (collect_partner_entries db partner)))).
  { rewrite Hcf, Hend0. saldo_arith. }
  rewrite Hcp, Hcs.
  symmetry. apply saldo_sum_filter_split.
  - intros e. now apply in_range_chain.
  - intros e. apply in_range_disjoint.
Qed.

Lemma closing_preserves_later_balances_witness :
  exists db' r,
    close_month (at_time 2024 2 1 8 0) db_january 1 2024 1 = (Redirected, db')
    /\ calculate_saldo_and_sums db' 1 (at_time 2024 2 1 0 0)
         (last_second 2024 2) = Some r
    /\ r_saldo_end r = mksaldo 6 0 0 0.
Proof.
  destruct (closing_preserves_later_balances (at_time 2024 2 1 8 0)
              db_january 1 (Partner.mk 1 "Spedition Nord") 2024 1 _
              (at_time 2024 2 1 0 0) (last_second 2024 2)
              eq_refl eq_refl) as (r & Hr & He); try reflexivity.
  - intros c' [].
  - apply Z.leb_le. reflexivity.
  - eexists. exists r. split; [reflexivity|]. split; [exact Hr|].
    rewrite He. reflexivity.
Defined.

(* ================================================================== *)
(** ** Further properties: what the entry recorder writes *)
(* ================================================================== *)

Lemma next_id_gt ids x : In x ids -> x < next_id ids.
Proof.
  unfold next_id. induction ids as [|y ids IH]; intros Hin;
    [destruct Hin|].
  cbn [fold_right]. destruct Hin as [->|Hin]; [lia|].
  specialize (IH Hin). lia.
Qed.

(** X10.  A request to the entry recorder leaves the partners, the
    accounts and the closures as they are and either leaves the entries as
    they are or appends one row, recorded by "Taach" on an existing
    account, whose id is above every id in the table; so ids that were
    unique stay unique. *)
Theorem recorder_appends_one_row py_int strptime_date db db' :
  recorder_step py_int strptime_date db db' ->
  partners db' = partners db /\ accounts db' = accounts db
  /\ month_closures db' = month_closures db
  /\ (entries db' = entries db
      \/ exists e,
           entries db' = entries db ++ [e]
           /\ (forall x, In x (entries db) -> Entry.id x < Entry.id e)
           /\ Entry.erfasst_von e = "Taach"%string
           /\ exists a, In a (accounts db)
                        /\ Entry.account_id e = Account.id a)
  /\ (NoDup (map Entry.id (entries db)) ->
      NoDup (map Entry.id (entries db'))).
Proof.
  assert (Hacc : forall p a, hd_error (partner_accounts db p) = Some a ->
                             In a (accounts db)).
  { intros p a H. unfold partner_accounts in H.
    destruct (filter _ (accounts db)) as [|a0 l] eqn:E; [discriminate|].
    injection H as ->.
    assert (Hin : In a (a :: l)) by (left; auto).
    rewrite <- E in Hin. now apply filter_In in Hin. }
  assert (Hfresh : forall e,
            Entry.id e = next_id (map Entry.id (entries db)) ->
            (forall x, In x (entries db) -> Entry.id x < Entry.id e)
            /\ (NoDup (map Entry.id (entries db)) ->
                NoDup (map Entry.id (entries db ++ [e])))).
  { intros e He. split.
    - intros x Hx. rewrite He. apply next_id_gt. now apply in_map.
    - intros Hnd. rewrite map_app. simpl.
      apply NoDup_app; auto.
      + repeat constructor. intros [].
      + intros i Hi [<-|[]]. apply next_id_gt in Hi. lia. }
  intros Hstep. revert Hacc Hfresh.
  destruct Hstep as [now db pid form r db' H | now db pid form r db' H];
    intros Hacc Hfresh.
  - destruct (new_entry_inv _ _ _ _ _ _ _ _ H)
      as [[_ ->] | (a & d & m & ri & Hadm & _ & _ & _ & ->)];
      [repeat split; auto|].
    destruct Hadm as (p & _ & Ha & _).
    destruct (Hfresh (new_entry_row now db form a d m ri) eq_refl) as [F1 F2].
    repeat split; auto. right. eexists. repeat split; eauto.
  - destruct (correction_entry_inv _ _ _ _ _ _ _ _ H)
      as [[_ ->] | (a & d & o & m & Hadm & _ & ->)];
      [repeat split; auto|].
    destruct Hadm as (p & _ & Ha & _).
    destruct (Hfresh (correction_row db pid form a d o m) eq_refl) as [F1 F2].
    repeat split; auto. right. eexists. repeat split; eauto.
Qed.

Lemma recorder_appends_one_row_witness :
  exists e,
    entries (snd (new_entry parse_int parse_iso_date noon_10_feb db_february 1
                    form_in_eup))
    = entries db_february ++ [e]
    /\ Entry.id e = 4.
Proof.
  destruct (recorder_appends_one_row parse_int parse_iso_date db_february
              (snd (new_entry parse_int parse_iso_date noon_10_feb
                      db_february 1 form_in_eup)))
    as (_ & _ & _ & [H|(e & He & _)] & _).
  - eapply step_new_entry. apply surjective_pairing.
  - apply (f_equal (@List.length _)) in H. discriminate H.
  - exists e. split; [exact He|].
    assert (He' : entries db_february ++ [e]
                  = entries db_february
                    ++ [new_entry_row noon_10_feb db_february form_in_eup
                          (Account.mk 1 1) (at_time 2024 2 10 12 0) 7
                          "Eingang"])
      by (rewrite <- He; reflexivity).
    apply app_inv_head in He'. injection He' as ->. reflexivity.
Defined.

(** X11.  In a ledger that started without entries and was written by the
    entry recorder only, no two bookings share a [belegnummer]: every
    voucher group holds exactly one [Eingang]/[Ausgang] row, its first. *)
Theorem one_booking_per_belegnummer py_int strptime_date db0 db b :
  entries db0 = [] ->
  NoDup (map Account.id (accounts db0)) ->
  recorder_run py_int strptime_date db0 db ->
  match beleg_group b (entries db) with
  | [] => True
  | first :: rest =>
      (is_eingang first || is_ausgang first) = true
      /\ forall x, In x rest -> Entry.richtung x = "Korrektur"%string
  end.
Proof.
  intros He Ha Hrun.
  pose proof (ledger_inv_run _ _ _ _ (ledger_inv_init db0 He Ha) Hrun) as Hinv.
  pose proof (inv_gapless _ Hinv b) as Hg.
  assert (Hk : forall x, In x (beleg_group b (entries db)) -> seq_marks_kind x).
  { intros x Hx. apply beleg_group_In in Hx as [Hx _].
    exact (inv_kind _ Hinv x Hx). }
  destruct (beleg_group b (entries db)) as [|first rest]; [exact I|].
  cbn [List.length map] in Hg. unfold zrange in Hg. cbn [seq map] in Hg.
  injection Hg as H0 Hrest. split.
  - destruct (Hk first (or_introl eq_refl)) as [[_ [Hr|Hr]]|[Hpos _]];
      [| |lia]; unfold is_eingang, is_ausgang; rewrite Hr; reflexivity.
  - intros x Hx.
    destruct (Hk x (or_intror Hx)) as [[Hz _]|[_ Hr]]; auto.
    assert (Hin : In (Entry.konto_seq x) (map Entry.konto_seq rest))
      by now apply in_map.
    rewrite Hrest in Hin. apply in_map_iff in Hin as (n & Hn & Hin).
    apply in_seq in Hin. lia.
Qed.

Lemma one_booking_per_belegnummer_witness :
  exists db,
    recorder_run parse_int parse_iso_date db_empty db
    /\ map Entry.richtung (beleg_group "2024021001" (entries db))
       = ["Eingang"; "Korrektur"]%string.
Proof.
  assert (Hrun : recorder_run parse_int parse_iso_date db_empty
            (snd (correction_entry parse_int parse_iso_date
                    (at_time 2024 2 11 9 0)
               (snd (new_entry parse_int parse_iso_date noon_10_feb
                       db_empty 1 form_in_eup))
               1 form_correction_first))).
  { eapply run_step; [eapply run_step; [apply run_refl|]|].
    - eapply step_new_entry. apply surjective_pairing.
    - eapply step_correction_entry. apply surjective_pairing. }
  eexists. split; [exact Hrun|].
  pose proof (one_booking_per_belegnummer parse_int parse_iso_date db_empty _
                "2024021001" eq_refl
                (NoDup_cons 1 (fun H : In 1 [] => H) (NoDup_nil Z)) Hrun) as H.
  reflexivity.
Defined.

(* ================================================================== *)
(** ** Further properties: the booking a correction refers to *)
(* ================================================================== *)

Lemma entry_later_asym e1 e2 :
  entry_later e1 e2 = true -> entry_later e2 e1 = false.
Proof.
  unfold entry_later.
  rewrite orb_true_iff, orb_false_iff, !andb_true_iff, !andb_false_iff,
    !Z.ltb_lt, !Z.ltb_ge, !Z.eqb_eq, Z.eqb_neq. lia.
Qed.

Lemma entry_later_false e1 e2 :
  entry_later e1 e2 = false <->
  Entry.konto_seq e1 < Entry.konto_seq e2
  \/ (Entry.konto_seq e1 = Entry.konto_seq e2 /\ Entry.id e1 <= Entry.id e2).
Proof.
  unfold entry_later.
  rewrite orb_false_iff, !andb_false_iff, !Z.ltb_ge, Z.eqb_neq. lia.
Qed.

Lemma entry_later_ntrans e1 e2 e3 :
  entry_later e1 e2 = false -> entry_later e2 e3 = false ->
  entry_later e1 e3 = false.
Proof. rewrite !entry_later_false. lia. Qed.

Section Original.

Variable py_int : string -> option Z.
Variable strptime_date : string -> option date.

Abbreviation correction_entry := (correction_entry py_int strptime_date).

(** X12.  The booking [correction_entry] corrects is an [Eingang] or
    [Ausgang] row of the partner under the posted [belegnummer], and no
    such row has a larger sequence number, or the same one and a larger
    id.  When the partner has no such row, a request that passed the
    checks before the lookup is answered with [OriginalEntryNotFound] and
    writes nothing. *)
Theorem original_lookup now db partner_id form :
  let candidate e :=
    In e (entries db) /\ entry_of_partner db partner_id e = true
    /\ Entry.belegnummer e = c_belegnummer form
    /\ (is_eingang e || is_ausgang e) = true in
  match find_original db partner_id (c_belegnummer form) with
  | Some original =>
      candidate original
      /\ forall e, candidate e ->
           Entry.konto_seq e < Entry.konto_seq original
           \/ (Entry.konto_seq e = Entry.konto_seq original
               /\ Entry.id e <= Entry.id original)
  | None =>
      (forall e, ~ candidate e)
      /\ ((exists partner, Partner_get db partner_id = Some partner
                           /\ partner_accounts db partner <> []) ->
          c_belegnummer form <> ""%string -> c_kommentar form <> ""%string ->
          entry_date_of strptime_date now (c_datum_str form) <> None ->
          correction_entry now db partner_id form
          = (Flashed OriginalEntryNotFound, db))
  end.
Proof.
  intros candidate.
  assert (Hcand : forall e, candidate e <->
            In e (filter (fun e => String.eqb (Entry.richtung e) "Eingang"
                                   || String.eqb (Entry.richtung e) "Ausgang")
                    (filter (fun e => String.eqb (Entry.belegnummer e)
                                        (c_belegnummer form))
                       (filter (entry_of_partner db partner_id)
                          (entries db))))).
  { intros e. unfold candidate, is_eingang, is_ausgang.
    rewrite !filter_In, String.eqb_eq. tauto. }
  destruct (find_original db partner_id (c_belegnummer form))
    as [original|] eqn:Ho.
  - unfold find_original in Ho. split.
    + apply Hcand. eapply first_desc_In; eauto.
    + intros e He. apply Hcand in He. apply entry_later_false.
      exact (first_desc_max _ entry_later_asym entry_later_ntrans _ _ Ho e He).
  - split.
    + intros e He. apply Hcand in He. unfold find_original in Ho.
      apply first_desc_None in Ho. rewrite Ho in He. destruct He.
    + intros (p & Hp & Hacc) Hb Hk Hd. unfold correction_entry.
      rewrite Hp. destruct (partner_accounts db p) as [|a l];
        [now destruct Hacc|].
      cbv zeta. apply String.eqb_neq in Hb, Hk. rewrite Hb, Hk.
      destruct (entry_date_of strptime_date now (c_datum_str form));
        [|now destruct Hd].
      now rewrite (Partner_get_id _ _ _ Hp), Ho.
Qed.

End Original.

(* ================================================================== *)
(** ** Further properties: the month view *)
(* ================================================================== *)

Lemma dt_eqb_eq a b : dt_eqb a b = true -> a = b.
Proof.
  unfold dt_eqb. destruct (dt_compare a b) eqn:E; try discriminate.
  intros _. now apply dt_compare_eq.
Qed.

(** X13.  When the month view offers to close the month on display
    ([can_close_month] is true), [close_month] for the year and month of
    that view succeeds for an existing partner: it writes a closure that
    ends at the end of the period on display, which lies before the first
    day of the current month. *)
Theorem offered_month_can_be_closed today utcnow db partner_id partner
  start_date end_date :
  Partner_get db partner_id = Some partner ->
  can_close_month today db partner_id start_date end_date = Some true ->
  exists c,
    close_month utcnow db partner_id (year start_date) (month start_date)
    = (Redirected, add_closure db c)
    /\ MonthClosure.period_end c = end_date
    /\ MonthClosure.year c = year start_date
    /\ MonthClosure.month c = month start_date
    /\ date_ltb (date_of end_date)
         (mkdate (dyear today) (dmonth today) 1) = true.
Proof.
  intros Hp H. unfold can_close_month in H.
  destruct (month_range (date_of start_date)) as [[ms me]|] eqn:Hr;
    [|discriminate].
  injection H as H. apply andb_true_iff in H as [H Hex].
  apply andb_true_iff in H as [Hfull Hlt].
  apply andb_true_iff in Hfull as [_ Hend]. apply dt_eqb_eq in Hend.
  destruct (existing_closure db partner_id (year start_date)
              (month start_date)) eqn:He; [discriminate|].
  assert (Hr1 : month_range (mkdate (year start_date) (month start_date) 1)
                = Some (ms, me)) by exact Hr.
  assert (Hd : new_date (year start_date) (month start_date) 1
               = Some (mkdate (year start_date) (month start_date) 1)).
  { unfold month_range, new_datetime in Hr1. cbn [dyear dmonth] in Hr1.
    unfold new_date in *.
    destruct (check_date_fields (year start_date) (month start_date) 1);
      [reflexivity|discriminate]. }
  unfold close_month. rewrite Hp, He, Hd, Hr1.
  rewrite (calculate_saldo_and_sums_eq _ _ _ _ _ Hp). cbv zeta.
  eexists. split; [reflexivity|]. repeat split; auto.
Qed.

Lemma offered_month_can_be_closed_witness :
  exists c,
    close_month (at_time 2024 2 10 8 0) db_january 1 2024 1
    = (Redirected, add_closure db_january c)
    /\ MonthClosure.period_end c = last_second 2024 1.
Proof.
  destruct (offered_month_can_be_closed (mkdate 2024 2 10)
              (at_time 2024 2 10 8 0) db_january 1
              (Partner.mk 1 "Spedition Nord")
              (at_time 2024 1 1 0 0) (last_second 2024 1)
              eq_refl eq_refl) as (c & Hc & Hpe & _).
  exists c. split; [exact Hc | exact Hpe].
Defined.

(* ================================================================== *)
(** ** Further properties: the overview *)
(* ================================================================== *)

Lemma fold_contributions l : forall s,
  saldo_weight s + volume l <= float_exact_max ->
  fold_left (fun s e => saldo_fadd s (saldo_fmul (mengen e)
                                        (mult_of (Entry.richtung e)))) l s
  = saldo_add s (saldo_sum (map contribution l)).
Proof.
  induction l as [|e l IH]; intros s Hb; cbn [fold_left map saldo_sum volume]
    in *.
  - now rewrite saldo_add_zero_r.
  - pose proof (weight_nonneg e). pose proof (volume_nonneg l).
    pose proof (saldo_weight_nonneg s).
    rewrite saldo_fmul_contribution by lia.
    rewrite saldo_fadd_exact by (rewrite saldo_weight_contribution; lia).
    pose proof (saldo_weight_add s (contribution e)) as Hw.
    rewrite saldo_weight_contribution in Hw by lia.
    rewrite IH by lia. now rewrite saldo_add_assoc.
Qed.

Lemma index_saldo_sum db p :
  volume (collect_partner_entries db p) <= float_exact_max ->
  index_saldo db p
  = saldo_sum (map contribution (collect_partner_entries db p)).
Proof.
  unfold index_saldo, collect_partner_entries. intros Hb.
  assert (H : forall accs s,
            saldo_weight s + volume (flat_map (account_entries db) accs)
            <= float_exact_max ->
            fold_left
              (fun acc_saldo acc =>
                 fold_left
                   (fun s e => saldo_fadd s (saldo_fmul (mengen e)
                                               (mult_of (Entry.richtung e))))
                   (account_entries db acc) acc_saldo) accs s
            = saldo_add s
                (saldo_sum (map contribution
                              (flat_map (account_entries db) accs)))).
  { induction accs as [|a accs IH]; intros s Hs;
      cbn [fold_left flat_map] in *.
    - simpl. now rewrite saldo_add_zero_r.
    - rewrite volume_app in Hs.
      pose proof (volume_nonneg (account_entries db a)).
      pose proof (volume_nonneg (flat_map (account_entries db) accs)).
      pose proof (saldo_weight_nonneg s).
      rewrite fold_contributions by lia.
      pose proof (saldo_weight_add s
                    (saldo_sum (map contribution (account_entries db a))))
        as Hw.
      pose proof (saldo_weight_sum_le (account_entries db a) ltac:(lia))
        as Hw'.
      rewrite IH by lia.
      rewrite map_app, saldo_sum_app. now rewrite saldo_add_assoc. }
  rewrite H.
  - saldo_arith.
  - change (saldo_weight saldo_zero) with 0. lia.
Qed.

Lemma filter_all_true {A} (f : A -> bool) l :
  (forall x, In x l -> f x = true) -> filter f l = l.
Proof.
  induction l as [|x l IH]; intros H; simpl; auto.
  rewrite (H x) by (left; auto). f_equal. apply IH. intros; apply H; now right.
Qed.

(** X14.  Where the volume of the partner's entries stays within 2^53, so
    that no float sum is rounded: the balance the overview shows for a
    partner is the sum over all of the partner's entries.  It agrees with
    the ending balance of the calculator for a period that no closure
    precedes when every entry is dated after [datetime.min] and no later
    than the end of the period. *)
Theorem overview_matches_calculator db partner_id partner
  start_date end_date :
  Partner_get db partner_id = Some partner ->
  get_last_closure_before db partner_id start_date = None ->
  (start_date <=?t end_date) = true ->
  volume (collect_partner_entries db partner) <= float_exact_max ->
  (forall e, In e (collect_partner_entries db partner) ->
             in_range datetime_min end_date e = true) ->
  index_saldo db partner
  = saldo_sum (map contribution (collect_partner_entries db partner))
  /\ exists r,
       calculate_saldo_and_sums db partner_id start_date end_date = Some r
       /\ r_saldo_end r = index_saldo db partner.
Proof.
  intros Hp Hc Hse Hvol Hall. split; [now apply index_saldo_sum|].
  destruct (calculate_exact db partner_id partner
              start_date end_date Hp Hse) as (r & Hr & _ & _ & _ & Hend & _).
  { rewrite Hc. unfold books_exact. cbn [base_of fst].
    change (saldo_weight saldo_zero) with 0. lia. }
  exists r. split; [exact Hr|].
  rewrite Hc in Hend. cbn [base_of fst snd] in Hend.
  rewrite Hend, (filter_all_true _ _ Hall), index_saldo_sum by exact Hvol.
  saldo_arith.
Qed.

Lemma overview_matches_calculator_witness :
  index_saldo db_january (Partner.mk 1 "Spedition Nord") = mksaldo 6 0 0 0
  /\ exists r,
       calculate_saldo_and_sums db_january 1
         (at_time 2024 1 1 0 0) (last_second 2024 1) = Some r
       /\ r_saldo_end r = mksaldo 6 0 0 0.
Proof.
  destruct (overview_matches_calculator db_january 1
              (Partner.mk 1 "Spedition Nord")
              (at_time 2024 1 1 0 0) (last_second 2024 1)
              eq_refl eq_refl eq_refl) as (H1 & r & Hr & He).
  - apply Z.leb_le. reflexivity.
  - intros e [<-|[<-|[]]]; reflexivity.
  - split; [reflexivity|]. exists r. split; [exact Hr|].
    rewrite He. reflexivity.
Defined.

(* ================================================================== *)
(** ** Further properties: creating and deleting partners *)
(* ================================================================== *)

Lemma find_app_skip {A} (f : A -> bool) l x :
  (forall y, In y l -> f y = false) -> f x = true ->
  find f (l ++ [x]) = Some x.
Proof.
  induction l as [|y l IH]; intros H Hx; simpl.
  - now rewrite Hx.
  - rewrite (H y) by (left; auto). apply IH; auto.
    intros; apply H; now right.
Qed.

Lemma find_app_some {A} (f : A -> bool) l l' x :
  find f l = Some x -> find f (l ++ l') = Some x.
Proof.
  induction l as [|y l IH]; [discriminate|]. simpl.
  destruct (f y); auto.
Qed.

Lemma filter_none {A} (f : A -> bool) l :
  (forall x, In x l -> f x = false) -> filter f l = [].
Proof.
  induction l as [|x l IH]; intros H; simpl; auto.
  rewrite (H x) by (left; auto). apply IH. intros; apply H; now right.
Qed.

(** X15.  [new_partner] with a non-empty name, in a database whose foreign
    keys point at existing rows, creates a partner with an id above all
    others and exactly one account; the new partner has no entries and no
    closure, every balance of it is zero, and the partners that existed
    are found as before. *)
Theorem new_partner_starts_empty db name :
  name <> ""%string -> references_ok db ->
  exists p a db',
    new_partner db name = (PartnerCreated, db')
    /\ Partner.name p = name
    /\ (forall q, In q (partners db) -> Partner.id q < Partner.id p)
    /\ Partner_get db' (Partner.id p) = Some p
    /\ partner_accounts db' p = [a]
    /\ collect_partner_entries db' p = []
    /\ last_closure db' (Partner.id p) = None
    /\ (forall start_date end_date,
          calculate_saldo_and_sums db' (Partner.id p) start_date end_date
          = Some (mkresult [] saldo_zero saldo_zero saldo_zero saldo_zero
                    saldo_zero))
    /\ (forall partner_id q, Partner_get db partner_id = Some q ->
          Partner_get db' partner_id = Some q).
Proof.
  intros Hname [Ra Re Rc].
  set (pid := next_id (map Partner.id (partners db))).
  set (aid := next_id (map Account.id (accounts db))).
  set (p := Partner.mk pid name). set (a := Account.mk aid pid).
  set (db' := mkDB (partners db ++ [p]) (accounts db ++ [a]) (entries db)
                (month_closures db)).
  assert (Hlt : forall q, In q (partners db) -> Partner.id q < pid).
  { intros q Hq. apply next_id_gt. now apply in_map. }
  assert (Halt : forall a0, In a0 (accounts db) -> Account.id a0 < aid).
  { intros a0 Ha0. apply next_id_gt. now apply in_map. }
  assert (Hget : Partner_get db' pid = Some p).
  { unfold Partner_get, db'. cbn [partners]. apply find_app_skip.
    - intros q Hq. apply Z.eqb_neq. specialize (Hlt q Hq). lia.
    - apply Z.eqb_refl. }
  assert (Hacc : partner_accounts db' p = [a]).
  { unfold partner_accounts, db'. cbn [accounts Partner.id p].
    rewrite filter_app. cbn [filter Account.partner_id a].
    rewrite Z.eqb_refl, filter_none; auto.
    intros a0 Ha0. apply Z.eqb_neq. destruct (Ra a0 Ha0) as (q & Hq & ->).
    specialize (Hlt q Hq). lia. }
  assert (Hent : collect_partner_entries db' p = []).
  { unfold collect_partner_entries. rewrite Hacc. cbn [flat_map].
    rewrite app_nil_r. unfold account_entries, db'. cbn [entries].
    apply filter_none. intros e He. apply Z.eqb_neq.
    destruct (Re e He) as (a0 & Ha0 & ->). specialize (Halt a0 Ha0).
    cbn [Account.id a]. lia. }
  assert (Hclo : filter (fun c => MonthClosure.partner_id c =? pid)
                   (month_closures db) = []).
  { apply filter_none. intros c Hc. apply Z.eqb_neq.
    destruct (Rc c Hc) as (q & Hq & ->). specialize (Hlt q Hq). lia. }
  exists p, a, db'. unfold new_partner.
  apply String.eqb_neq in Hname. rewrite Hname. fold pid aid p a db'.
  split; [reflexivity|]. split; [reflexivity|].
  split; [exact Hlt|]. split; [exact Hget|]. split; [exact Hacc|].
  split; [exact Hent|]. split; [|split].
  - unfold last_closure, db'. cbn [month_closures Partner.id p].
    now rewrite Hclo.
  - intros s e. unfold calculate_saldo_and_sums.
    change (Partner.id p) with pid. rewrite Hget, Hent.
    unfold get_last_closure_before, db'. cbn [month_closures].
    rewrite Hclo. reflexivity.
  - intros pid0 q Hq. unfold Partner_get, db' in *. cbn [partners].
    now apply find_app_some.
Qed.

Lemma references_ok_db_january : references_ok db_january.
Proof.
  constructor.
  - intros a [<-|[]]. eexists. split; [left; reflexivity|reflexivity].
  - intros e [<-|[<-|[]]]; eexists; (split; [left; reflexivity|reflexivity]).
  - intros c [].
Qed.

Lemma new_partner_starts_empty_witness :
  exists db',
    new_partner db_january "Spedition Sued" = (PartnerCreated, db')
    /\ map Partner.id (partners db') = [1; 2]
    /\ map Account.partner_id (accounts db') = [1; 2].
Proof.
  destruct (new_partner_starts_empty db_january "Spedition Sued")
    as (p & a & db' & H & _).
  - discriminate.
  - exact references_ok_db_january.
  - exists db'. split; [exact H|].
    vm_compute in H. injection H as <-. split; reflexivity.
Defined.

Lemma delete_entries_of_filter accs : forall rows,
  delete_entries_of accs rows
  = filter (fun e => negb (existsb (fun a => Entry.account_id e =? Account.id a)
                             accs)) rows.
Proof.
  unfold delete_entries_of.
  induction accs as [|a accs IH]; intros rows; simpl.
  - symmetry. now apply filter_all_true.
  - rewrite IH. clear IH. induction rows as [|e rows IHr]; simpl; auto.
    destruct (Entry.account_id e =? Account.id a); simpl; auto.
    destruct (existsb _ accs); simpl; now rewrite IHr.
Qed.

Lemma existsb_partner_accounts db partner e :
  existsb (fun a => Entry.account_id e =? Account.id a)
    (partner_accounts db partner)
  = entry_of_partner db (Partner.id partner) e.
Proof.
  unfold partner_accounts, entry_of_partner.
  induction (accounts db) as [|a l IH]; simpl; auto.
  destruct (Account.partner_id a =? Partner.id partner); simpl.
  - now rewrite IH, andb_true_r.
  - now rewrite IH, andb_false_r.
Qed.

(** X16.  [delete_partner] of an existing partner removes the partner, the
    partner's accounts, every entry on those accounts and the partner's
    closures.  Another partner is found as before and keeps its accounts
    and closures; when account ids are unique it keeps its entries too. *)
Theorem delete_partner_cascades db partner_id partner :
  Partner_get db partner_id = Some partner ->
  exists db',
    delete_partner db partner_id = (PartnerDeleted, db')
    /\ Partner_get db' partner_id = None
    /\ (forall a, In a (accounts db') -> Account.partner_id a <> partner_id)
    /\ (forall c, In c (month_closures db') ->
                  MonthClosure.partner_id c <> partner_id)
    /\ (forall e, In e (entries db') ->
                  In e (entries db)
                  /\ entry_of_partner db partner_id e = false)
    /\ forall other q,
         other <> partner_id -> Partner_get db other = Some q ->
         Partner_get db' other = Some q
         /\ partner_accounts db' q = partner_accounts db q
         /\ filter (fun c => MonthClosure.partner_id c =? other)
              (month_closures db')
            = filter (fun c => MonthClosure.partner_id c =? other)
                (month_closures db)
         /\ (NoDup (map Account.id (accounts db)) ->
             collect_partner_entries db' q = collect_partner_entries db q).
Proof.
  intros Hp. pose proof (Partner_get_id _ _ _ Hp) as Hid.
  unfold delete_partner. rewrite Hp. cbv zeta. rewrite Hid.
  eexists. split; [reflexivity|].
  rewrite delete_entries_of_filter.
  split; [|split; [|split; [|split]]].
  - unfold Partner_get. cbn [partners].
    destruct (find _ (filter _ (partners db))) as [q|] eqn:E; auto.
    apply find_some in E as [Hin Hq]. apply filter_In in Hin as [_ Hn].
    now rewrite Hq in Hn.
  - cbn [accounts]. intros a Ha. apply filter_In in Ha as [_ Hn].
    apply negb_true_iff, Z.eqb_neq in Hn. exact Hn.
  - cbn [month_closures]. intros c Hc. apply filter_In in Hc as [_ Hn].
    apply negb_true_iff, Z.eqb_neq in Hn. exact Hn.
  - cbn [entries]. intros e He. apply filter_In in He as [He Hn].
    split; auto. rewrite existsb_partner_accounts, Hid in Hn.
    now apply negb_true_iff in Hn.
  - intros other q Hne Hq. pose proof (Partner_get_id _ _ _ Hq) as Hqid.
    assert (Hacc : partner_accounts
                     (mkDB (filter (fun p => negb (Partner.id p =? partner_id))
                              (partners db))
                        (filter (fun a => negb (Account.partner_id a
                                                =? partner_id)) (accounts db))
                        (filter (fun e => negb (existsb
                                   (fun a => Entry.account_id e =? Account.id a)
                                   (partner_accounts db partner))) (entries db))
                        (filter (fun c => negb (MonthClosure.partner_id c
                                                =? partner_id))
                           (month_closures db))) q
                   = partner_accounts db q).
    { unfold partner_accounts. cbn [accounts].
      apply filter_filter_absorb. intros a _ Ha. apply Z.eqb_eq in Ha.
      apply negb_true_iff, Z.eqb_neq. lia. }
    split; [|split; [exact Hacc|split]].
    + unfold Partner_get in *. cbn [partners]. clear - Hq Hne.
      induction (partners db) as [|x l IH]; [discriminate|].
      cbn [find filter] in *.
      destruct (Partner.id x =? other) eqn:Ex.
      * injection Hq as ->. apply Z.eqb_eq in Ex.
        assert (En : (Partner.id q =? partner_id) = false)
          by (apply Z.eqb_neq; lia).
        rewrite En. cbn [negb find]. apply Z.eqb_eq in Ex.
        now rewrite Ex.
      * destruct (negb (Partner.id x =? partner_id)); cbn [find];
          rewrite ?Ex; auto.
    + cbn [month_closures]. apply filter_filter_absorb.
      intros c _ Hc. apply Z.eqb_eq in Hc.
      apply negb_true_iff, Z.eqb_neq. lia.
    + intros Hnd. unfold collect_partner_entries. rewrite Hacc.
      assert (Hq_acc : forall a, In a (partner_accounts db q) ->
                In a (accounts db) /\ Account.partner_id a = other).
      { intros a Ha. unfold partner_accounts in Ha.
        apply filter_In in Ha as [Ha Hpa]. apply Z.eqb_eq in Hpa.
        split; auto. lia. }
      clear Hacc. revert Hq_acc.
      generalize (partner_accounts db q) as accs.
      induction accs as [|a accs IH]; intros Hq_acc; auto.
      cbn [flat_map]. rewrite IH by (intros; apply Hq_acc; now right).
      f_equal. unfold account_entries. cbn [entries].
      apply filter_filter_absorb. intros e _ He. apply Z.eqb_eq in He.
      rewrite existsb_partner_accounts, Hid. apply negb_true_iff.
      destruct (entry_of_partner db partner_id e) eqn:Ee; auto.
      apply entry_of_partner_iff in Ee as (a' & Ha' & Hid' & Hp').
      destruct (Hq_acc a (or_introl eq_refl)) as [Hain Hap].
      rewrite He in Hid'.
      rewrite <- (account_by_id _ _ _ Hnd Hain Ha' Hid') in Hp'. lia.
Qed.

Lemma delete_partner_cascades_witness :
  delete_partner db_february 1
  = (PartnerDeleted, mkDB [] [] [] []).
Proof.
  destruct (delete_partner_cascades db_february 1
              (Partner.mk 1 "Spedition Nord") eq_refl) as (db' & H & _).
  rewrite H. vm_compute in H. now injection H as <-.
Defined.

(** X17.  In a database whose foreign keys point at existing rows,
    deleting the partner that [new_partner] has just created gives back
    the database as it was. *)
Theorem new_then_delete_partner db name db' :
  references_ok db ->
  new_partner db name = (PartnerCreated, db') ->
  delete_partner db' (next_id (map Partner.id (partners db)))
  = (PartnerDeleted, db).
Proof.
  intros [Ra Re Rc] Hnew. unfold new_partner in Hnew.
  destruct (String.eqb name "") ; [discriminate Hnew|].
  injection Hnew as <-. cbn [Partner.id].
  set (pid := next_id (map Partner.id (partners db))).
  set (aid := next_id (map Account.id (accounts db))).
  set (p := Partner.mk pid name). set (a := Account.mk aid pid).
  assert (Hlt : forall q, In q (partners db) -> Partner.id q < pid).
  { intros q Hq. apply next_id_gt. now apply in_map. }
  assert (Halt : forall a0, In a0 (accounts db) -> Account.id a0 < aid).
  { intros a0 Ha0. apply next_id_gt. now apply in_map. }
  assert (Hown : forall a0, In a0 (accounts db) ->
                   (Account.partner_id a0 =? pid) = false).
  { intros a0 Ha0. apply Z.eqb_neq. destruct (Ra a0 Ha0) as (q & Hq & ->).
    specialize (Hlt q Hq). lia. }
  unfold delete_partner.
  assert (Hget : Partner_get (mkDB (partners db ++ [p]) (accounts db ++ [a])
                                (entries db) (month_closures db)) pid
                 = Some p).
  { unfold Partner_get. cbn [partners]. apply find_app_skip.
    - intros q Hq. apply Z.eqb_neq. specialize (Hlt q Hq). lia.
    - apply Z.eqb_refl. }
  rewrite Hget. cbv zeta.
  assert (Hacc : partner_accounts (mkDB (partners db ++ [p])
                                     (accounts db ++ [a]) (entries db)
                                     (month_closures db)) p = [a]).
  { unfold partner_accounts. cbn [accounts Partner.id p].
    rewrite filter_app. cbn [filter Account.partner_id a].
    rewrite Z.eqb_refl, filter_none; auto. }
  rewrite Hacc.
  cbn [Partner.id p partners accounts entries month_closures
       delete_entries_of fold_left Account.id a].
  f_equal. destruct db as [ps accs es cs].
  cbn [partners accounts entries month_closures] in *. f_equal.
  - rewrite filter_app. cbn [filter Partner.id]. rewrite Z.eqb_refl.
    cbn [negb]. rewrite app_nil_r. apply filter_all_true.
    intros q Hq. apply negb_true_iff, Z.eqb_neq. specialize (Hlt q Hq). lia.
  - rewrite filter_app. cbn [filter Account.partner_id]. rewrite Z.eqb_refl.
    cbn [negb]. rewrite app_nil_r. apply filter_all_true.
    intros a0 Ha0. now rewrite Hown.
  - apply filter_all_true. intros e He. apply negb_true_iff, Z.eqb_neq.
    destruct (Re e He) as (a0 & Ha0 & ->). specialize (Halt a0 Ha0). lia.
  - apply filter_all_true. intros c Hc. apply negb_true_iff, Z.eqb_neq.
    destruct (Rc c Hc) as (q & Hq & ->). specialize (Hlt q Hq). lia.
Qed.

Lemma new_then_delete_partner_witness :
  exists db',
    new_partner db_january "Spedition Sued" = (PartnerCreated, db')
    /\ delete_partner db' 2 = (PartnerDeleted, db_january).
Proof.
  eexists. split; [reflexivity|].
  exact (new_then_delete_partner db_january "Spedition Sued" _
           references_ok_db_january eq_refl).
Defined.

(* ================================================================== *)
(** ** Further properties: a booking as the calculator sees it *)
(* ================================================================== *)

Lemma account_entries_add db e a :
  account_entries (add_entry db e) a
  = account_entries db a
    ++ (if Entry.account_id e =? Account.id a then [e] else []).
Proof.
  unfold account_entries, add_entry. cbn [entries].
  rewrite filter_app. reflexivity.
Qed.

(** The sum a filter picks from the rows of some accounts, after one row
    has been appended to the table. *)
Lemma saldo_sum_collect_add db e (f : Entry.t -> bool) : forall accs,
  saldo_sum (map contribution
    (filter f (flat_map (account_entries (add_entry db e)) accs)))
  = saldo_add
      (saldo_sum (map contribution
         (filter f (flat_map (account_entries db) accs))))
      (saldo_scale
         (if f e then contribution e else saldo_zero)
         (Z.of_nat (List.length
            (filter (fun a => Entry.account_id e =? Account.id a) accs)))).
Proof.
  induction accs as [|a accs IH];
    [cbn; destruct (f e); saldo_arith|].
  cbn [flat_map filter]. rewrite !filter_app, !map_app, !saldo_sum_app, IH.
  rewrite account_entries_add, filter_app, map_app, saldo_sum_app.
  destruct (Entry.account_id e =? Account.id a).
  - cbn [filter List.length]. rewrite Nat2Z.inj_succ.
    destruct (f e); cbn [map saldo_sum]; saldo_arith.
  - cbn [filter map saldo_sum]. saldo_arith.
Qed.

Lemma volume_collect_add db e : forall accs,
  volume (flat_map (account_entries (add_entry db e)) accs)
  = volume (flat_map (account_entries db) accs)
    + weight e
      * Z.of_nat (List.length
          (filter (fun a => Entry.account_id e =? Account.id a) accs)).
Proof.
  induction accs as [|a accs IH]; [simpl; lia|].
  cbn [flat_map filter]. rewrite !volume_app, IH, account_entries_add.
  rewrite volume_app.
  destruct (Entry.account_id e =? Account.id a).
  - cbn [List.length volume]. rewrite Nat2Z.inj_succ. lia.
  - cbn [volume]. lia.
Qed.

Lemma count_account_once (accs : list Account.t) a :
  NoDup (map Account.id accs) -> In a accs ->
  List.length (filter (fun a0 => Account.id a =? Account.id a0) accs) = 1%nat.
Proof.
  induction accs as [|x l IH]; intros Hnd Hin; [destruct Hin|].
  cbn [map] in Hnd. apply NoDup_cons_iff in Hnd as [Hn Hnd].
  cbn [filter]. destruct Hin as [->|Hin].
  - rewrite Z.eqb_refl. cbn [List.length]. f_equal.
    rewrite filter_none; auto.
    intros y Hy. apply Z.eqb_neq. intros E. apply Hn. rewrite E.
    now apply in_map.
  - destruct (Z.eqb_spec (Account.id a) (Account.id x)) as [E|_]; auto.
    destruct Hn. rewrite <- E. now apply in_map.
Qed.

Lemma NoDup_map_filter {A B} (g : A -> B) (f : A -> bool) l :
  NoDup (map g l) -> NoDup (map g (filter f l)).
Proof.
  induction l as [|x l IH]; intros H; [constructor|].
  cbn [map] in H. apply NoDup_cons_iff in H as [Hn H].
  cbn [filter]. destruct (f x); auto. cbn [map]. constructor; auto.
  intros Hin. apply Hn. apply in_map_iff in Hin as (y & <- & Hy).
  apply filter_In in Hy as [Hy _]. now apply in_map.
Qed.

Section Booking.

Variable py_int : string -> option Z.
Variable strptime_date : string -> option date.

Abbreviation new_entry := (new_entry py_int strptime_date).

(** X18.  A booking that [new_entry] accepts, dated after [datetime.min],
    changes the ending balance of every period that ends on or after its
    date by the quantity in the column of its category, with the sign of
    its direction, and leaves the ending balance of every earlier period
    as it was.  This is stated where the seed, the volume of the
    partner's entries and the booked quantity together stay within 2^53,
    so that no float sum is rounded, before or after the booking. *)
Theorem booking_moves_balance now db partner_id partner form db' d
  start_date end_date :
  NoDup (map Account.id (accounts db)) ->
  Partner_get db partner_id = Some partner ->
  new_entry now db partner_id form = (Redirected, db') ->
  entry_date_of strptime_date now (datum_str form) = Some d ->
  (datetime_min <?t d) = true ->
  (start_date <=?t end_date) = true ->
  (forall menge,
      py_int (menge_str form) = Some menge ->
      saldo_weight
        (fst (base_of (get_last_closure_before db partner_id start_date)))
      + volume (collect_partner_entries db partner) + Z.abs menge
      <= float_exact_max) ->
  exists menge richtung_db r r',
    py_int (menge_str form) = Some menge
    /\ richtung_db_of (richtung_raw form) = Some richtung_db
    /\ calculate_saldo_and_sums db partner_id start_date end_date = Some r
    /\ calculate_saldo_and_sums db' partner_id start_date end_date = Some r'
    /\ r_saldo_end r'
       = saldo_add (r_saldo_end r)
           (if d <=?t end_date
            then saldo_scale (verteilung (typ form) menge)
                   (if String.eqb richtung_db "Eingang" then 1 else -1)
            else saldo_zero).
Proof.
  intros Hnd Hp H Hd Hmin Hse Hvol.
  destruct (new_entry_inv _ _ _ _ _ _ _ _ H)
    as [[Hne _] | (a & d' & menge & ri & Hadm & Hri & _ & _ & ->)];
    [congruence|].
  destruct Hadm as (p & Hp' & Ha & Hd' & Hunl & Hm).
  rewrite Hp in Hp'. injection Hp' as <-.
  rewrite Hd in Hd'. injection Hd' as <-.
  set (row := new_entry_row now db form a d menge ri).
  specialize (Hvol menge Hm).
  pose proof (volume_nonneg (collect_partner_entries db partner)) as Hv0.
  pose proof (saldo_weight_nonneg
                (fst (base_of (get_last_closure_before db partner_id
                                 start_date)))) as Hs0.
  assert (Hin : In a (partner_accounts db partner)).
  { destruct (partner_accounts db partner); [discriminate|].
    injection Ha as ->. now left. }
  assert (Hwrow : 0 <= weight row <= Z.abs menge).
  { split; [apply weight_nonneg|].
    unfold weight, row, new_entry_row, quantities.
    cbn [Entry.menge_eup Entry.menge_gb Entry.menge_tmb1 Entry.menge_tmb2
         int_or0].
    unfold verteilung.
    destruct (typ_is (typ form) "EUP"); [unfold saldo_weight; cbn; lia|].
    destruct (typ_is (typ form) "GB"); [unfold saldo_weight; cbn; lia|].
    destruct (typ_is (typ form) "TMB1"); [unfold saldo_weight; cbn; lia|].
    destruct (typ_is (typ form) "TMB2"); unfold saldo_weight; cbn.
    - lia.
    - lia. }
  assert (Hone : List.length
                   (filter (fun a0 => Entry.account_id row =? Account.id a0)
                      (partner_accounts db partner)) = 1%nat).
  { apply (count_account_once (partner_accounts db partner) a); auto.
    unfold partner_accounts. now apply NoDup_map_filter. }
  assert (Hvol' : volume (collect_partner_entries (add_entry db row) partner)
                  <= volume (collect_partner_entries db partner)
                     + Z.abs menge).
  { unfold collect_partner_entries.
    change (partner_accounts (add_entry db row) partner)
      with (partner_accounts db partner).
    rewrite (volume_collect_add db row (partner_accounts db partner)).
    rewrite Hone. lia. }
  destruct (calculate_exact db partner_id partner start_date end_date
              Hp Hse) as (r & Hr & _ & _ & _ & Hend & _).
  { unfold books_exact. lia. }
  assert (Hp2 : Partner_get (add_entry db row) partner_id = Some partner)
    by exact Hp.
  destruct (calculate_exact (add_entry db row) partner_id partner
              start_date end_date Hp2 Hse) as (r' & Hr' & _ & _ & _ & Hend' & _).
  { unfold books_exact.
    change (get_last_closure_before (add_entry db row) partner_id start_date)
      with (get_last_closure_before db partner_id start_date). lia. }
  exists menge, ri, r, r'. repeat (split; [assumption|]).
  change (get_last_closure_before (add_entry db row) partner_id start_date)
    with (get_last_closure_before db partner_id start_date) in Hend'.
  set (seed := base_of (get_last_closure_before db partner_id start_date))
    in *.
  unfold collect_partner_entries in Hend'.
  change (partner_accounts (add_entry db row) partner)
    with (partner_accounts db partner) in Hend'.
  rewrite saldo_sum_collect_add in Hend'.
  fold (collect_partner_entries db partner) in Hend'.
  rewrite Hone in Hend'.
  assert (Hbase : (snd seed <?t d) = true).
  { unfold seed.
    destruct (get_last_closure_before db partner_id start_date) as [c|] eqn:E;
      [|exact Hmin].
    destruct (get_last_closure_before_spec _ _ _ _ E) as (G1 & G2 & _).
    cbn [base_of snd]. rewrite dt_ltb_leb.
    now rewrite (unlocked_all_closures _ _ _ _ Hunl G1 G2). }
  assert (Hrange : in_range (snd seed) end_date row = (d <=?t end_date)).
  { unfold in_range, row, new_entry_row. cbn [Entry.datum].
    now rewrite Hbase. }
  rewrite Hrange in Hend'. rewrite Hend', Hend.
  assert (Hc : contribution row
               = saldo_scale (verteilung (typ form) menge)
                   (if String.eqb ri "Eingang" then 1 else -1)).
  { unfold contribution. rewrite (mengen_exact row) by lia.
    unfold row, new_entry_row, quantities.
    cbn [Entry.richtung Entry.menge_eup Entry.menge_gb Entry.menge_tmb1
         Entry.menge_tmb2 int_or0].
    destruct (richtung_db_of_cases _ _ Hri) as [-> | ->];
      destruct (verteilung (typ form) menge); reflexivity. }
  rewrite Hc. destruct (d <=?t end_date); saldo_arith.
Qed.

End Booking.

Lemma booking_moves_balance_witness :
  exists r r',
    calculate_saldo_and_sums db_january 1 (at_time 2024 2 1 0 0)
      (last_second 2024 2) = Some r
    /\ calculate_saldo_and_sums
         (snd (new_entry parse_int parse_iso_date noon_10_feb db_january 1
                 form_in_eup))
         1 (at_time 2024 2 1 0 0) (last_second 2024 2) = Some r'
    /\ eup (r_saldo_end r') = eup (r_saldo_end r) + 7.
Proof.
  destruct (booking_moves_balance parse_int parse_iso_date noon_10_feb
              db_january 1 (Partner.mk 1 "Spedition Nord") form_in_eup
              (snd (new_entry parse_int parse_iso_date noon_10_feb
                      db_january 1 form_in_eup))
              (combine (mkdate 2024 2 10) (time_of noon_10_feb))
              (at_time 2024 2 1 0 0) (last_second 2024 2))
    as (menge & ri & r & r' & Hm & Hri & Hr & Hr' & Hend);
    try reflexivity.
  - repeat constructor; simpl; tauto.
  - intros menge Hm. vm_compute in Hm. injection Hm as <-.
    apply Z.leb_le. reflexivity.
  - exists r, r'. split; [exact Hr|]. split; [exact Hr'|].
    rewrite Hend. vm_compute in Hm, Hri.
    injection Hm as <-. injection Hri as <-. reflexivity.
Defined.
